(** * The [movable] action of svelte-put: drag, clamp and session engine

    A shallow embedding of [packages/actions/movable/src/movable.ts].

    Conventions of the embedding:
    - JavaScript numbers are doubles.  The move handler comes twice: with
      exact rational arithmetic ([onMouseMove], on which the properties of
      its control flow are stated) and with the result of every operation
      rounded ([onMouseMoveR]; with [round64] for the rounding it is the
      arithmetic of the program, on which the properties of the numbers it
      writes are stated).  Equalities between numbers are stated with [==].
    - [querySelectorAll] throws on a string that is not a selector.  The
      functions whose name ends in [T] return an [Outcome], the world they
      leave and whether they returned or threw; the ones without are the
      program on parameters whose [ignore] is absent, empty or a selector.
    - The closure variables of one call of [movable] are the record
      [Closure]; the part of the page the closure reads and writes is the
      record [Page].  Every function of the source takes and returns a
      [World], the pair of both.
    - A DOM element is named by its address in the document tree (the list
      of child indices from the root), so that "is a descendant of" is
      "has a proper prefix".
    - [input] lives in [./utils], which is not part of the module under
      study: it is a parameter of the development.
    - The layout engine is an input: a [mousemove] comes with the
      rectangles and window size read while it is handled, a [mousedown]
      with the computed style of the node.
    - The [detail.position] of a dispatched event is recorded as it is at
      the time of the dispatch. *)

From Stdlib Require Import QArith Qabs Lqa Qminmax Qround Qpower Qreduction.
From Stdlib Require Import PrimFloat FloatOps.
From stdpp Require Import base option list gmap strings.

Local Open Scope Q_scope.

(** ** The page *)

Abbreviation Elem := (list nat).

(** [Node.contains]: [anc] is [e] or one of its ancestors. *)
Fixpoint contains (anc e : Elem) : bool :=
  match anc, e with
  | [], _ => true
  | a :: anc', b :: e' => Nat.eqb a b && contains anc' e'
  | _ :: _, [] => false
  end.

Definition isSameNode (a b : Elem) : bool := bool_decide (a = b).

Definition descendant_of (anc e : Elem) : bool :=
  contains anc e && negb (isSameNode anc e).

Record Document := mkDocument {
  body : Elem;
  all_elements : list Elem;
  selector_matches : string -> Elem -> bool
}.

(** [root.querySelectorAll(sel)]: the descendants of [root] (never [root]
    itself) that match [sel], in document order. *)
Definition querySelectorAll (d : Document) (root : Elem) (sel : string) : list Elem :=
  List.filter (fun e => descendant_of root e && selector_matches d sel e)
              (all_elements d).

(** A [DOMRect]; [top], [left], [bottom] and [right] are derived from the
    origin and the size as they are for the box of an element, whose width
    and height are not negative. *)
Record DOMRect := mkRect { r_x : Q; r_y : Q; r_width : Q; r_height : Q }.

Definition rect_top (r : DOMRect) : Q := r_y r.
Definition rect_left (r : DOMRect) : Q := r_x r.
Definition rect_bottom (r : DOMRect) : Q := r_y r + r_height r.
Definition rect_right (r : DOMRect) : Q := r_x r + r_width r.

(** [Record<'top' | 'bottom' | 'left' | 'right', number>] *)
Record Box := mkBox { b_top : Q; b_bottom : Q; b_left : Q; b_right : Q }.

Definition box_of_rect (r : DOMRect) : Box :=
  {| b_top := rect_top r; b_bottom := rect_bottom r;
     b_left := rect_left r; b_right := rect_right r |}.

(** What a [mousemove] handler can read from the layout engine. *)
Record Layout := mkLayout {
  getBoundingClientRect : Elem -> DOMRect;
  innerWidth : Q;
  innerHeight : Q
}.

(** What [onMouseDown] reads from [getComputedStyle(node)]: [cs_left] and
    [cs_top] are the integers [parseInt] yields on the leading [[-0-9]+] of
    the [left] and [top] values ([0] when nothing matches). *)
Record ComputedStyle := mkComputed {
  cs_left : Z;
  cs_top : Z;
  cs_position : string
}.

(** ** The resolved parameters *)

Record Measure := mkMeasure { m_unit : string; m_value : Q }.
Record NormalizedDelta := mkDelta { d_x : Measure; d_y : Measure }.

Inductive Parent :=
| screen
| parentNode (e : Elem).

(** The object returned by [input(node, parameters)]. *)
Record Input := mkInput {
  parent : option Parent;
  normalizedDelta : NormalizedDelta;
  handle : Elem;
  enabled : bool;
  ignore : option string;
  cursor : bool
}.

(** ** The state *)

Record Point := mkPoint { pt_x : Q; pt_y : Q }.
Record Position := mkPosition { p_top : Q; p_left : Q }.

Inductive CustomEvent :=
| movablestart (n : Elem) (position : Position)
| movableend (n : Elem) (position : Position).

Record Closure := mkClosure {
  node : Elem;
  config : Input;
  lastMousePosition : Point;
  lastNodePosition : Position;
  ΣΔx : Q;
  ΣΔy : Q
}.

Record Page := mkPage {
  document : Document;
  (** [document.body.style.userSelect] *)
  userSelect : string;
  (** inline [style.cursor] per element; no entry reads as the empty string *)
  cursors : gmap (list nat) string;
  (** [node.style.left], [node.style.top] in px, once written *)
  nodeLeft : option Q;
  nodeTop : option Q;
  (** [node.style.position], once written *)
  nodePosition : option string;
  (** elements on which [onMouseDown] is registered (capture phase) *)
  mousedownListeners : list Elem;
  (** is [onMouseMove] / [end] registered on [window] *)
  mousemoveListener : bool;
  mouseupListener : bool;
  (** pending [tick().then(() => addCursor())] callbacks *)
  microtasks : nat;
  (** events dispatched on [node], oldest first *)
  dispatched : list CustomEvent
}.

Record World := mkWorld { closure : Closure; page : Page }.

Definition set_config (c : Input) (w : World) : World :=
  let k := closure w in
  mkWorld (mkClosure (node k) c (lastMousePosition k) (lastNodePosition k)
                     (ΣΔx k) (ΣΔy k)) (page w).

Definition set_total (sx sy : Q) (w : World) : World :=
  let k := closure w in
  mkWorld (mkClosure (node k) (config k) (lastMousePosition k)
                     (lastNodePosition k) sx sy) (page w).

Definition set_userSelect (v : string) (w : World) : World :=
  let p := page w in
  mkWorld (closure w)
    (mkPage (document p) v (cursors p) (nodeLeft p) (nodeTop p) (nodePosition p)
            (mousedownListeners p) (mousemoveListener p) (mouseupListener p)
            (microtasks p) (dispatched p)).

Definition set_cursors (m : gmap (list nat) string) (w : World) : World :=
  let p := page w in
  mkWorld (closure w)
    (mkPage (document p) (userSelect p) m (nodeLeft p) (nodeTop p) (nodePosition p)
            (mousedownListeners p) (mousemoveListener p) (mouseupListener p)
            (microtasks p) (dispatched p)).

Definition set_nodeOffsets (l t : Q) (w : World) : World :=
  let p := page w in
  mkWorld (closure w)
    (mkPage (document p) (userSelect p) (cursors p) (Some l) (Some t) (nodePosition p)
            (mousedownListeners p) (mousemoveListener p) (mouseupListener p)
            (microtasks p) (dispatched p)).

Definition set_nodePosition (v : string) (w : World) : World :=
  let p := page w in
  mkWorld (closure w)
    (mkPage (document p) (userSelect p) (cursors p) (nodeLeft p) (nodeTop p) (Some v)
            (mousedownListeners p) (mousemoveListener p) (mouseupListener p)
            (microtasks p) (dispatched p)).

Definition set_mousedownListeners (ls : list Elem) (w : World) : World :=
  let p := page w in
  mkWorld (closure w)
    (mkPage (document p) (userSelect p) (cursors p) (nodeLeft p) (nodeTop p)
            (nodePosition p) ls (mousemoveListener p) (mouseupListener p)
            (microtasks p) (dispatched p)).

Definition set_windowListeners (mv up : bool) (w : World) : World :=
  let p := page w in
  mkWorld (closure w)
    (mkPage (document p) (userSelect p) (cursors p) (nodeLeft p) (nodeTop p)
            (nodePosition p) (mousedownListeners p) mv up
            (microtasks p) (dispatched p)).

Definition set_microtasks (n : nat) (w : World) : World :=
  let p := page w in
  mkWorld (closure w)
    (mkPage (document p) (userSelect p) (cursors p) (nodeLeft p) (nodeTop p)
            (nodePosition p) (mousedownListeners p) (mousemoveListener p)
            (mouseupListener p) n (dispatched p)).

Definition set_document (d : Document) (w : World) : World :=
  let p := page w in
  mkWorld (closure w)
    (mkPage d (userSelect p) (cursors p) (nodeLeft p) (nodeTop p)
            (nodePosition p) (mousedownListeners p) (mousemoveListener p)
            (mouseupListener p) (microtasks p) (dispatched p)).

(** [node.dispatchEvent(ev)] *)
Definition dispatchEvent (ev : CustomEvent) (w : World) : World :=
  let p := page w in
  mkWorld (closure w)
    (mkPage (document p) (userSelect p) (cursors p) (nodeLeft p) (nodeTop p)
            (nodePosition p) (mousedownListeners p) (mousemoveListener p)
            (mouseupListener p) (microtasks p) (dispatched p ++ [ev])).

(** [e.style.cursor] *)
Definition style_cursor (w : World) (e : Elem) : string :=
  match cursors (page w) !! e with
  | Some v => v
  | None => ""
  end.

(** [e.style.cursor = v] *)
Definition set_style_cursor (e : Elem) (v : string) (w : World) : World :=
  set_cursors (<[e := v]> (cursors (page w))) w.

(** [e.style.removeProperty('cursor')] *)
Definition remove_style_cursor (e : Elem) (w : World) : World :=
  set_cursors (delete e (cursors (page w))) w.

(** [target.addEventListener('mousedown', onMouseDown, true)]: registering
    the same callback twice on one target keeps a single registration. *)
Definition addEventListener_mousedown (e : Elem) (w : World) : World :=
  let ls := mousedownListeners (page w) in
  if List.existsb (isSameNode e) ls then w
  else set_mousedownListeners (ls ++ [e]) w.

Definition removeEventListener_mousedown (e : Elem) (w : World) : World :=
  set_mousedownListeners
    (List.filter (fun h => negb (isSameNode e h)) (mousedownListeners (page w))) w.

Definition updateLastMousePosition (clientX clientY : Q) (w : World) : World :=
  let k := closure w in
  mkWorld (mkClosure (node k) (config k) (mkPoint clientX clientY)
                     (lastNodePosition k) (ΣΔx k) (ΣΔy k)) (page w).

Definition updateLastNodePosition (p : Position) (w : World) : World :=
  let k := closure w in
  mkWorld (mkClosure (node k) (config k) (lastMousePosition k) p
                     (ΣΔx k) (ΣΔy k)) (page w).

(** ** The handlers *)

Definition getIgnoredElements (w : World) : list Elem :=
  match ignore (config (closure w)) with
  | Some sel =>
      if (sel =? "")%string then []
      else querySelectorAll (document (page w)) (handle (config (closure w))) sel
  | None => []
  end.

(** The two [switch] statements on [normalizedDelta.x.unit] and
    [normalizedDelta.y.unit]; [size] is the width, resp. the height, of the
    node's bounding rectangle. *)
Definition bound (m : Measure) (size : Q) : Q :=
  if (m_unit m =? "%")%string then (m_value m * size) / 100
  else if (m_unit m =? "px")%string then m_value m
  else 0.

Definition insideBoundingRect (p : Parent) (lay : Layout) : Box :=
  match p with
  | screen =>
      {| b_top := 0; b_bottom := innerHeight lay;
         b_left := 0; b_right := innerWidth lay |}
  | parentNode e => box_of_rect (getBoundingClientRect lay e)
  end.

(** One axis of the [if (parent)] branch.  For the vertical axis
    [candidate] is [top], [near]/[far] are [nodeBoundingRect.top]/[.bottom],
    [lo]/[hi] are [insideBoundingRect.top]/[.bottom]; the horizontal axis
    reads [left], [.left]/[.right]. *)
Definition clampInside (candidate near far Δ bnd lo hi : Q) : Q :=
  let newAbsNear := near + Δ + bnd in
  if Qlt_le_dec newAbsNear lo then candidate + (lo - newAbsNear)
  else
    let newAbsFar := far + Δ - bnd in
    if Qlt_le_dec hi newAbsFar then candidate - (newAbsFar - hi)
    else candidate.

(** One axis of the [else] branch: [total] is [ΣΔx] (resp. [ΣΔy]) and
    [last] is [lastNodePosition.left] (resp. [.top]). *)
Definition clampTotal (candidate last total bnd : Q) : Q :=
  if Qlt_le_dec 0 bnd then
    let newTotal := total + candidate - last in
    if Qlt_le_dec bnd newTotal then candidate - (newTotal - bnd)
    else if Qlt_le_dec newTotal (- bnd) then candidate - (newTotal + bnd)
    else candidate
  else candidate.

Definition onMouseMove (w : World) (clientX clientY : Q) (lay : Layout) : World :=
  let k := closure w in
  let last := lastNodePosition k in
  let Δx := clientX - pt_x (lastMousePosition k) in
  let Δy := clientY - pt_y (lastMousePosition k) in
  let w := updateLastMousePosition clientX clientY w in
  let top0 := p_top last + Δy in
  let left0 := p_left last + Δx in
  let nodeBoundingRect := getBoundingClientRect lay (node k) in
  let boundX := bound (d_x (normalizedDelta (config k))) (r_width nodeBoundingRect) in
  let boundY := bound (d_y (normalizedDelta (config k))) (r_height nodeBoundingRect) in
  let '(top1, left1) :=
    match parent (config k) with
    | Some p =>
        let R := insideBoundingRect p lay in
        (clampInside top0 (rect_top nodeBoundingRect) (rect_bottom nodeBoundingRect)
                     Δy boundY (b_top R) (b_bottom R),
         clampInside left0 (rect_left nodeBoundingRect) (rect_right nodeBoundingRect)
                     Δx boundX (b_left R) (b_right R))
    | None =>
        (clampTotal top0 (p_top last) (ΣΔy k) boundY,
         clampTotal left0 (p_left last) (ΣΔx k) boundX)
    end in
  let w := set_nodeOffsets left1 top1 w in
  let w := set_total (ΣΔx k + (left1 - p_left last)) (ΣΔy k + (top1 - p_top last)) w in
  updateLastNodePosition (mkPosition top1 left1) w.

(** [end] (a reserved word here, hence the underscore). *)
Definition end_ (w : World) : World :=
  let w := set_userSelect "" w in
  let w :=
    if cursor (config (closure w)) then
      let b := body (document (page w)) in
      let w := if (style_cursor w b =? "grabbing")%string
               then remove_style_cursor b w else w in
      set_style_cursor (handle (config (closure w))) "grab" w
    else w in
  let w := set_windowListeners false false w in
  dispatchEvent (movableend (node (closure w)) (lastNodePosition (closure w))) w.

Definition is_positioned (position : string) : bool :=
  (position =? "relative")%string || (position =? "absolute")%string
  || (position =? "fixed")%string.

Definition onMouseDown (w : World) (target : Elem) (clientX clientY : Q)
    (computedStyles : ComputedStyle) : World :=
  if List.existsb (fun n => isSameNode n target) (getIgnoredElements w) then w
  else
    let w := updateLastNodePosition
               (mkPosition (inject_Z (cs_top computedStyles))
                           (inject_Z (cs_left computedStyles))) w in
    let w := dispatchEvent
               (movablestart (node (closure w)) (lastNodePosition (closure w))) w in
    let w := if is_positioned (cs_position computedStyles) then w
             else set_nodePosition "relative" w in
    let w := updateLastMousePosition clientX clientY w in
    let w := set_userSelect "none" w in
    let w :=
      if cursor (config (closure w)) then
        let w := set_style_cursor (body (document (page w))) "grabbing" w in
        set_style_cursor (handle (config (closure w))) "grabbing" w
      else w in
    set_windowListeners true true w.

Definition addCursor (w : World) : World :=
  if cursor (config (closure w)) then
    let w := set_style_cursor (handle (config (closure w))) "grab" w in
    fold_left
      (fun w e => if (style_cursor w e =? "")%string
                  then set_style_cursor e "auto" w else w)
      (getIgnoredElements w) w
  else w.

Definition removeCursor (w : World) : World :=
  if cursor (config (closure w)) then
    let h := handle (config (closure w)) in
    let w := if (style_cursor w h =? "grab")%string
             then remove_style_cursor h w else w in
    fold_left
      (fun w e => if (style_cursor w e =? "auto")%string
                  then remove_style_cursor e w else w)
      (getIgnoredElements w) w
  else w.

(** [tick().then(() => { addCursor(); })] *)
Definition schedule_addCursor (w : World) : World :=
  set_microtasks (S (microtasks (page w))) w.

Section Action.

(** [MovableParameters] and [input] come from [./movable.types] and
    [./utils]; [defaultParameters] is the literal [{ enabled: true }]. *)
Variable Params : Type.
Variable input : Elem -> Params -> Input.
Variable defaultParameters : Params.

(** [onMouseDown], [onMouseMove] and [end] are created by the call of
    [movable], so when it starts none of them is registered anywhere and
    nothing has been scheduled or dispatched by this instance. *)
Definition fresh (pg : Page) : Page :=
  mkPage (document pg) (userSelect pg) (cursors pg) (nodeLeft pg) (nodeTop pg)
         (nodePosition pg) [] false false 0%nat [].

Definition install (w : World) : World :=
  if enabled (config (closure w)) then
    schedule_addCursor
      (addEventListener_mousedown (handle (config (closure w))) w)
  else w.

(** The body of [movable] up to the [return]. *)
Definition movable (n : Elem) (parameters : option Params) (pg : Page) : World :=
  let parameters := match parameters with
                    | Some p => p
                    | None => defaultParameters
                    end in
  install (mkWorld (mkClosure n (input n parameters) (mkPoint 0 0)
                              (mkPosition 0 0) 0 0) (fresh pg)).

(** The statements of [update], one definition per statement. *)
Definition update_removeCursor (w : World) : World := removeCursor w.

Definition update_removeListener (w : World) : World :=
  removeEventListener_mousedown (handle (config (closure w))) w.

Definition update_assign (p : Params) (w : World) : World :=
  set_config (input (node (closure w)) p) w.

Definition update (w : World) (p : Params) : World :=
  install (update_assign p (update_removeListener (update_removeCursor w))).

Definition destroy (w : World) : World :=
  removeCursor (removeEventListener_mousedown (handle (config (closure w))) w).

(** ** Events and their delivery *)

Inductive Event :=
| Mousedown (target : Elem) (clientX clientY : Q) (computedStyles : ComputedStyle)
| Mousemove (clientX clientY : Q) (lay : Layout)
| Mouseup
| Microtask
| Update (p : Params)
| Destroy
| HostSetCursor (e : Elem) (v : string)
| HostSetUserSelect (v : string)
| HostSetDocument (d : Document).

(** A [mousedown] on [target] reaches the capturing listeners registered on
    [target] and on its ancestors; [mousemove] and [mouseup] reach [window]
    wherever they happen. *)
Definition step (w : World) (ev : Event) : World :=
  match ev with
  | Mousedown target clientX clientY cs =>
      fold_left
        (fun w h => if contains h target
                    then onMouseDown w target clientX clientY cs else w)
        (mousedownListeners (page w)) w
  | Mousemove clientX clientY lay =>
      if mousemoveListener (page w) then onMouseMove w clientX clientY lay else w
  | Mouseup => if mouseupListener (page w) then end_ w else w
  | Microtask =>
      match microtasks (page w) with
      | O => w
      | S n => addCursor (set_microtasks n w)
      end
  | Update p => update w p
  | Destroy => destroy w
  | HostSetCursor e v =>
      if (v =? "")%string then remove_style_cursor e w else set_style_cursor e v w
  | HostSetUserSelect v => set_userSelect v w
  | HostSetDocument d => set_document d w
  end.

Definition run (w : World) (evs : list Event) : World := fold_left step evs w.

(** The session is [Dragging] exactly while [end] is registered on [window]. *)
Definition dragging (w : World) : bool := mouseupListener (page w).

End Action.

Arguments movable {Params} input defaultParameters n parameters pg.
Arguments update_assign {Params} input p w.
Arguments update {Params} input w p.
Arguments step {Params} input w ev.
Arguments run {Params} input w evs.
Arguments Mousedown {Params} target clientX clientY computedStyles.
Arguments Mousemove {Params} clientX clientY lay.
Arguments Mouseup {Params}.
Arguments Microtask {Params}.
Arguments Update {Params} p.
Arguments Destroy {Params}.
Arguments HostSetCursor {Params} e v.
Arguments HostSetUserSelect {Params} v.
Arguments HostSetDocument {Params} d.

(** ** Quantities of one [mousemove], named as in [onMouseMove] *)

Definition Δx_of (w : World) (clientX : Q) : Q :=
  clientX - pt_x (lastMousePosition (closure w)).

Definition Δy_of (w : World) (clientY : Q) : Q :=
  clientY - pt_y (lastMousePosition (closure w)).

Definition nodeBoundingRect_of (w : World) (lay : Layout) : DOMRect :=
  getBoundingClientRect lay (node (closure w)).

Definition boundX_of (w : World) (lay : Layout) : Q :=
  bound (d_x (normalizedDelta (config (closure w))))
        (r_width (nodeBoundingRect_of w lay)).

Definition boundY_of (w : World) (lay : Layout) : Q :=
  bound (d_y (normalizedDelta (config (closure w))))
        (r_height (nodeBoundingRect_of w lay)).

Definition top_of (w : World) : Q := p_top (lastNodePosition (closure w)).
Definition left_of (w : World) : Q := p_left (lastNodePosition (closure w)).

(** The displacement a move applies to the node: the offsets it writes
    minus the offsets the node had. *)
Definition applied_dx (w w' : World) : Q := left_of w' - left_of w.
Definition applied_dy (w w' : World) : Q := top_of w' - top_of w.

Definition translate (r : DOMRect) (dx dy : Q) : DOMRect :=
  mkRect (r_x r + dx) (r_y r + dy) (r_width r) (r_height r).

(** The region [R] extended by the margins. *)
Definition extended (R : Box) (marginX marginY : Q) : Box :=
  {| b_top := b_top R - marginY; b_bottom := b_bottom R + marginY;
     b_left := b_left R - marginX; b_right := b_right R + marginX |}.

Definition within_vertically (r : DOMRect) (B : Box) : Prop :=
  b_top B <= rect_top r /\ rect_bottom r <= b_bottom B.

Definition within_horizontally (r : DOMRect) (B : Box) : Prop :=
  b_left B <= rect_left r /\ rect_right r <= b_right B.

Definition fits_vertically (r : DOMRect) (B : Box) : Prop :=
  r_height r <= b_bottom B - b_top B.

Definition fits_horizontally (r : DOMRect) (B : Box) : Prop :=
  r_width r <= b_right B - b_left B.

(** [w'] is [w] but for the cursor styles. *)
Definition only_cursors_differ (w w' : World) : Prop :=
  w' = set_cursors (cursors (page w')) w.

(** The guard at the head of [onMouseDown]. *)
Definition ignoredTarget (w : World) (target : Elem) : bool :=
  List.existsb (fun n => isSameNode n target) (getIgnoredElements w).

(** The worlds [update] goes through, statement by statement. *)
Definition update_points {Params : Type} (input : Elem -> Params -> Input)
    (w : World) (p : Params) : list World :=
  let w1 := update_removeCursor w in
  let w2 := update_removeListener w1 in
  let w3 := update_assign input p w2 in
  [w1; w2; w3; install w3].

(** The worlds visited while a list of events is delivered. *)
Definition points {Params : Type} (input : Elem -> Params -> Input)
    (w : World) (ev : Event Params) : list World :=
  match ev with
  | Update p => update_points input w p
  | _ => [step input w ev]
  end.

Fixpoint visited {Params : Type} (input : Elem -> Params -> Input)
    (w : World) (evs : list (Event Params)) : list World :=
  match evs with
  | [] => []
  | ev :: evs' => points input w ev ++ visited input (step input w ev) evs'
  end.

Definition is_destroy {Params : Type} (ev : Event Params) : bool :=
  match ev with
  | Destroy => true
  | _ => false
  end.

(** A run of [mousemove] events, each with the pointer position and the
    layout read while it is handled. *)
Definition mousemoves {Params : Type} (moves : list (Q * Q * Layout))
    : list (Event Params) :=
  map (fun m => Mousemove (fst (fst m)) (snd (fst m)) (snd m)) moves.

(** The press listener is where the current parameters say it is. *)
Definition installed_exact (w : World) : Prop :=
  mousedownListeners (page w) =
  if enabled (config (closure w)) then [handle (config (closure w))] else [].

(** The same, or the listener has been taken away by [destroy]. *)
Definition installed_ok (w : World) : Prop :=
  mousedownListeners (page w) = [] \/
  (mousedownListeners (page w) = [handle (config (closure w))] /\
   enabled (config (closure w)) = true).

(** A handler that leaves the press listeners and the parameters alone. *)
Definition same_install (w w' : World) : Prop :=
  mousedownListeners (page w') = mousedownListeners (page w) /\
  config (closure w') = config (closure w).

(** ** A small page used to run the handlers

    [[0]] is the body, [[0;0]] the node, [[0;0;0]] a handle inside it,
    [[0;0;0;1]] a child of the handle that matches [".text"] and
    [[0;0;0;1;0]] a child of that one. *)
Module Sample.

Definition doc : Document :=
  mkDocument [0%nat]
    [[0]; [0;0]; [0;0;0]; [0;0;0;0]; [0;0;0;1]; [0;0;0;1;0]]%nat
    (fun sel e => (sel =? ".text")%string && isSameNode e [0;0;0;1]%nat).

Definition blank : Page :=
  mkPage doc "" ∅ None None None [] false false 0%nat [].

Definition px (v : Q) : Measure := mkMeasure "px" v.

Definition free : Input :=
  mkInput None (mkDelta (px 0) (px 0)) [0;0]%nat true None true.

Definition limited (bx by_ : Q) : Input :=
  mkInput None (mkDelta (px bx) (px by_)) [0;0]%nat true None true.

Definition inside (p : Parent) (m : Q) : Input :=
  mkInput (Some p) (mkDelta (px m) (px m)) [0;0]%nat true None true.

Definition withHandle : Input :=
  mkInput None (mkDelta (px 0) (px 0)) [0;0;0]%nat true (Some ".text") true.

Definition disabled : Input :=
  mkInput None (mkDelta (px 0) (px 0)) [0;0;0]%nat false (Some ".text") true.

(** Here the parameters are already resolved: [input] is the identity. *)
Definition attach (c : Input) (pg : Page) : World :=
  movable (fun _ p => p) free [0;0]%nat (Some c) pg.

(** A layout in which the node is a [width] x [height] box at [(x, y)] and
    the window is [500] x [500]. *)
Definition layout (x y width height : Q) : Layout :=
  mkLayout (fun _ => mkRect x y width height) 500 500.

Definition static : ComputedStyle := mkComputed 0 0 "static".

(** A world in the middle of a drag: the node is at [top], [left], the
    pointer was last seen at [(0, 0)]. *)
Definition grabbed (c : Input) (top left : Z) : World :=
  step (fun _ p => p) (attach c blank)
       (Mousedown [0;0]%nat 0 0 (mkComputed left top "absolute")).

Definition deliver : World -> Event Input -> World := step (fun _ p => p).
Definition play : World -> list (Event Input) -> World := run (fun _ p => p).

(** A page on which the host has given the [".text"] element the cursor
    [auto] and the body a text-selection style and a cursor of its own. *)
Definition styled : Page :=
  mkPage doc "text" (<[ [0;0;0;1]%nat := "auto" ]> (<[ [0]%nat := "wait" ]> ∅))
         None None None [] false false 0%nat [].

(** Limits given in percent of the size of the node. *)
Definition percent (vx vy : Q) : Input :=
  mkInput None (mkDelta (mkMeasure "%" vx) (mkMeasure "%" vy)) [0;0]%nat
          true None true.

Definition insidePercent (p : Parent) (m : Q) : Input :=
  mkInput (Some p) (mkDelta (mkMeasure "%" m) (mkMeasure "%" m)) [0;0]%nat
          true None true.

(** Parameters whose [ignore] is not a selector, and a grammar that knows
    it: ["["] does not parse. *)
Definition brokenIgnore : Input :=
  mkInput None (mkDelta (px 0) (px 0)) [0;0;0]%nat true (Some "[") true.

Definition valid (sel : string) : bool := negb (sel =? "[")%string.

End Sample.

(** ** Observations used by the properties of the whole life of the action *)

Definition is_mousemove {Params : Type} (ev : Event Params) : bool :=
  match ev with
  | Mousemove _ _ _ => true
  | _ => false
  end.

Definition is_movablestart (ev : CustomEvent) : bool :=
  match ev with
  | movablestart _ _ => true
  | movableend _ _ => false
  end.

Definition is_movableend (ev : CustomEvent) : bool :=
  match ev with
  | movablestart _ _ => false
  | movableend _ _ => true
  end.

(** How many [movablestart], resp. [movableend], events were dispatched. *)
Definition starts (w : World) : nat :=
  length (List.filter is_movablestart (dispatched (page w))).

Definition ends (w : World) : nat :=
  length (List.filter is_movableend (dispatched (page w))).

(** [w'] has the session of [w]: the same node, pointer and node positions,
    running totals, window listeners and dispatched events. *)
Definition same_session (w w' : World) : Prop :=
  node (closure w') = node (closure w) /\
  lastMousePosition (closure w') = lastMousePosition (closure w) /\
  lastNodePosition (closure w') = lastNodePosition (closure w) /\
  ΣΔx (closure w') = ΣΔx (closure w) /\
  ΣΔy (closure w') = ΣΔy (closure w) /\
  mousemoveListener (page w') = mousemoveListener (page w) /\
  mouseupListener (page w') = mouseupListener (page w) /\
  nodeLeft (page w') = nodeLeft (page w) /\
  nodeTop (page w') = nodeTop (page w) /\
  dispatched (page w') = dispatched (page w).

(** The two window listeners go together, and no more [movableend] than
    [movablestart] events have been dispatched (strictly fewer while a
    drag is in progress). *)
Definition session_ok (w : World) : Prop :=
  mousemoveListener (page w) = mouseupListener (page w) /\
  (ends w + (if mouseupListener (page w) then 1 else 0) <= starts w)%nat.

(** ** The arithmetic of the program

    The handlers above compute in exact rationals.  The program computes in
    IEEE 754 binary64: every [+], [-], [*] and [/] of [onMouseMove] returns
    the exact result rounded to the nearest double, ties to even.  The
    definitions of this part are [onMouseMove] again with a rounding
    function [rnd] applied after each operation; comparisons and unary
    minus are exact.  With [round64] for [rnd] this is the program as
    long as no operation overflows (no infinity or NaN arises; the
    quantities below are pixels); with the identity for [rnd] it is
    [onMouseMove]. *)

(** The exponent of the leading bit of a positive rational. *)
Definition Qlog2 (a : Q) : Z :=
  let ln := Z.log2 (Qnum a) in
  let ld := Z.log2 (Zpos (Qden a)) in
  if Qle_bool (2 ^ (ln - ld)) a then (ln - ld)%Z else (ln - ld - 1)%Z.

(** Round to the nearest integer, ties to even. *)
Definition rne (x : Q) : Z :=
  let f := Qfloor x in
  match Qcompare (x - inject_Z f) (1 # 2) with
  | Lt => f
  | Gt => (f + 1)%Z
  | Eq => if Z.even f then f else (f + 1)%Z
  end.

(** Round to the nearest binary64 number: 53 significant bits, exponent
    of the last bit not below -1074. *)
Definition round64 (x : Q) : Q :=
  let q := Qred x in
  if Qeq_bool q 0 then 0
  else
    let e := Z.max (Qlog2 (Qabs q) - 52) (-1074) in
    inject_Z (rne (q / 2 ^ e)) * 2 ^ e.

(** The rational a double stands for, to compare [round64] with the
    doubles of the kernel. *)
Definition Q_of_SF (f : SpecFloat.spec_float) : option Q :=
  match f with
  | SpecFloat.S754_zero _ => Some 0
  | SpecFloat.S754_finite s m e =>
      Some ((if s then -1 else 1) * inject_Z (Zpos m) * 2 ^ e)
  | _ => None
  end.

Definition Q_of_float (f : float) : option Q := Q_of_SF (Prim2SF f).

Definition same_number (f : float) (q : Q) : bool :=
  match Q_of_float f with
  | Some x => Qeq_bool x q
  | None => false
  end.

Section Rounded.

Variable rnd : Q -> Q.

Definition radd (x y : Q) : Q := rnd (x + y).
Definition rsub (x y : Q) : Q := rnd (x - y).
Definition rmul (x y : Q) : Q := rnd (x * y).
Definition rdiv (x y : Q) : Q := rnd (x / y).

(** [DOMRect.bottom] and [DOMRect.right] are computed from the origin and
    the size. *)
Definition rect_bottomR (r : DOMRect) : Q := radd (r_y r) (r_height r).
Definition rect_rightR (r : DOMRect) : Q := radd (r_x r) (r_width r).

Definition box_of_rectR (r : DOMRect) : Box :=
  {| b_top := rect_top r; b_bottom := rect_bottomR r;
     b_left := rect_left r; b_right := rect_rightR r |}.

Definition boundR (m : Measure) (size : Q) : Q :=
  if (m_unit m =? "%")%string then rdiv (rmul (m_value m) size) 100
  else if (m_unit m =? "px")%string then m_value m
  else 0.

Definition insideBoundingRectR (p : Parent) (lay : Layout) : Box :=
  match p with
  | screen =>
      {| b_top := 0; b_bottom := innerHeight lay;
         b_left := 0; b_right := innerWidth lay |}
  | parentNode e => box_of_rectR (getBoundingClientRect lay e)
  end.

Definition clampInsideR (candidate near far Δ bnd lo hi : Q) : Q :=
  let newAbsNear := radd (radd near Δ) bnd in
  if Qlt_le_dec newAbsNear lo then radd candidate (rsub lo newAbsNear)
  else
    let newAbsFar := rsub (radd far Δ) bnd in
    if Qlt_le_dec hi newAbsFar then rsub candidate (rsub newAbsFar hi)
    else candidate.

Definition clampTotalR (candidate last total bnd : Q) : Q :=
  if Qlt_le_dec 0 bnd then
    let newTotal := rsub (radd total candidate) last in
    if Qlt_le_dec bnd newTotal then rsub candidate (rsub newTotal bnd)
    else if Qlt_le_dec newTotal (- bnd) then rsub candidate (radd newTotal bnd)
    else candidate
  else candidate.

Definition onMouseMoveR (w : World) (clientX clientY : Q) (lay : Layout) : World :=
  let k := closure w in
  let last := lastNodePosition k in
  let Δx := rsub clientX (pt_x (lastMousePosition k)) in
  let Δy := rsub clientY (pt_y (lastMousePosition k)) in
  let w := updateLastMousePosition clientX clientY w in
  let top0 := radd (p_top last) Δy in
  let left0 := radd (p_left last) Δx in
  let nodeBoundingRect := getBoundingClientRect lay (node k) in
  let boundX := boundR (d_x (normalizedDelta (config k))) (r_width nodeBoundingRect) in
  let boundY := boundR (d_y (normalizedDelta (config k))) (r_height nodeBoundingRect) in
  let '(top1, left1) :=
    match parent (config k) with
    | Some p =>
        let R := insideBoundingRectR p lay in
        (clampInsideR top0 (rect_top nodeBoundingRect) (rect_bottomR nodeBoundingRect)
                      Δy boundY (b_top R) (b_bottom R),
         clampInsideR left0 (rect_left nodeBoundingRect) (rect_rightR nodeBoundingRect)
                      Δx boundX (b_left R) (b_right R))
    | None =>
        (clampTotalR top0 (p_top last) (ΣΔy k) boundY,
         clampTotalR left0 (p_left last) (ΣΔx k) boundX)
    end in
  let w := set_nodeOffsets left1 top1 w in
  let w := set_total (radd (ΣΔx k) (rsub left1 (p_left last)))
                     (radd (ΣΔy k) (rsub top1 (p_top last))) w in
  updateLastNodePosition (mkPosition top1 left1) w.

(** The margins [onMouseMoveR] computes. *)
Definition boundX_ofR (w : World) (lay : Layout) : Q :=
  boundR (d_x (normalizedDelta (config (closure w))))
         (r_width (nodeBoundingRect_of w lay)).

Definition boundY_ofR (w : World) (lay : Layout) : Q :=
  boundR (d_y (normalizedDelta (config (closure w))))
         (r_height (nodeBoundingRect_of w lay)).

(** A run of moves of one drag. *)
Definition movesR (w : World) (moves : list (Q * Q * Layout)) : World :=
  fold_left (fun w m => onMouseMoveR w (fst (fst m)) (snd (fst m)) (snd m))
            moves w.

End Rounded.

(** ** Quantities on which the arithmetic of the program is exact

    A double holds every multiple [c * 2^-k] with [|c| < 2^53] (and
    [k <= 1074]) exactly, so sums and differences of a few such numbers
    are computed without rounding.  [on_grid k x] says that [x] is a
    multiple of [2^-k] of at most [2^48] steps: whole pixels for [k = 0],
    the 1/64 px units of layout engines for [k = 6]. *)

Definition grid_step (k : nat) : Q := 2 ^ (- Z.of_nat k).

Definition safe : Z := 2 ^ 48.

Definition on_grid (k : nat) (x : Q) : bool :=
  let c := Qfloor (x / grid_step k) in
  Qeq_bool x (inject_Z c * grid_step k) && (Z.abs c <=? safe)%Z.

(** [x] is [c] steps [u] with [|c| <= M]. *)
Definition steps (u : Q) (M : Z) (x : Q) : Prop :=
  exists c : Z, (Z.abs c <= M)%Z /\ x == inject_Z c * u.

(** The pointer positions, the remembered offsets, the running totals and
    the margins of a move are on the grid. *)
Definition move_on_grid (k : nat) (w : World) (clientX clientY : Q)
    (lay : Layout) : bool :=
  on_grid k clientX && on_grid k clientY
  && on_grid k (pt_x (lastMousePosition (closure w)))
  && on_grid k (pt_y (lastMousePosition (closure w)))
  && on_grid k (top_of w) && on_grid k (left_of w)
  && on_grid k (ΣΔx (closure w)) && on_grid k (ΣΔy (closure w))
  && on_grid k (boundX_ofR round64 w lay)
  && on_grid k (boundY_ofR round64 w lay).

Definition rect_on_grid (k : nat) (r : DOMRect) : bool :=
  on_grid k (r_x r) && on_grid k (r_y r)
  && on_grid k (r_width r) && on_grid k (r_height r).

(** The boxes a move reads when a boundary is configured are on the grid. *)
Definition boxes_on_grid (k : nat) (p : Parent) (w : World) (lay : Layout)
    : bool :=
  rect_on_grid k (nodeBoundingRect_of w lay)
  && match p with
     | screen => on_grid k (innerWidth lay) && on_grid k (innerHeight lay)
     | parentNode e => rect_on_grid k (getBoundingClientRect lay e)
     end.

(** The node's box once the offsets written by a move have taken effect,
    given the offsets [actual] the node really had when the move was
    handled: the box read during the move, shifted by the written offsets
    minus the actual ones. *)
Definition boxAfterMove (actual : Position) (w' : World) (r : DOMRect) : DOMRect :=
  translate r (left_of w' - p_left actual) (top_of w' - p_top actual).

(** What a move reads is on the grid: its quantities and, when a boundary
    is configured, the boxes. *)
Definition reads_on_grid (k : nat) (w : World) (clientX clientY : Q)
    (lay : Layout) : bool :=
  move_on_grid k w clientX clientY lay
  && match parent (config (closure w)) with
     | Some p => boxes_on_grid k p w lay
     | None => true
     end.

(** Every move of a run reads on the grid. *)
Fixpoint moves_on_grid (k : nat) (w : World) (moves : list (Q * Q * Layout))
    : bool :=
  match moves with
  | [] => true
  | m :: moves' =>
      reads_on_grid k w (fst (fst m)) (snd (fst m)) (snd m)
      && moves_on_grid k (onMouseMoveR round64 w (fst (fst m)) (snd (fst m)) (snd m))
                       moves'
  end.

(** ** Exceptions

    [handle.querySelectorAll(ignore)] throws a [SyntaxError] when [ignore]
    is not a selector, and with it [getIgnoredElements] and the function
    that called it.  Which strings are selectors is a matter of the CSS
    grammar: it is the parameter [valid].  An [Outcome] is the world a
    call leaves behind together with the way it ended. *)

Inductive Outcome :=
| returned (w : World)
| thrown (w : World).

Definition world_of (o : Outcome) : World :=
  match o with
  | returned w => w
  | thrown w => w
  end.

Definition has_returned (o : Outcome) : bool :=
  match o with
  | returned _ => true
  | thrown _ => false
  end.

Section Program.

Variable rnd : Q -> Q.
Variable valid : string -> bool.
Variable Params : Type.
Variable input : Elem -> Params -> Input.

(** [getIgnoredElements], [None] when [querySelectorAll] throws. *)
Definition getIgnoredElementsT (w : World) : option (list Elem) :=
  match ignore (config (closure w)) with
  | Some sel =>
      if (sel =? "")%string then Some []
      else if valid sel
           then Some (querySelectorAll (document (page w))
                                       (handle (config (closure w))) sel)
           else None
  | None => Some []
  end.

(** [onMouseDown] calls [getIgnoredElements] before anything else; when
    the call returns the handler is [onMouseDown] as above. *)
Definition onMouseDownT (w : World) (target : Elem) (clientX clientY : Q)
    (computedStyles : ComputedStyle) : Outcome :=
  match getIgnoredElementsT w with
  | None => thrown w
  | Some _ => returned (onMouseDown w target clientX clientY computedStyles)
  end.

Definition addCursorT (w : World) : Outcome :=
  if cursor (config (closure w)) then
    let w := set_style_cursor (handle (config (closure w))) "grab" w in
    match getIgnoredElementsT w with
    | None => thrown w
    | Some ignoredElements =>
        returned
          (fold_left
             (fun w e => if (style_cursor w e =? "")%string
                         then set_style_cursor e "auto" w else w)
             ignoredElements w)
    end
  else returned w.

Definition removeCursorT (w : World) : Outcome :=
  if cursor (config (closure w)) then
    let h := handle (config (closure w)) in
    let w := if (style_cursor w h =? "grab")%string
             then remove_style_cursor h w else w in
    match getIgnoredElementsT w with
    | None => thrown w
    | Some ignoredElements =>
        returned
          (fold_left
             (fun w e => if (style_cursor w e =? "auto")%string
                         then remove_style_cursor e w else w)
             ignoredElements w)
    end
  else returned w.

(** [update]: an exception of [removeCursor] leaves the remaining
    statements unexecuted. *)
Definition updateT (w : World) (p : Params) : Outcome :=
  match removeCursorT w with
  | thrown w => thrown w
  | returned w =>
      returned (install (update_assign input p (update_removeListener w)))
  end.

Definition destroyT (w : World) : Outcome :=
  removeCursorT
    (removeEventListener_mousedown (handle (config (closure w))) w).

(** The delivery of an event with the arithmetic [rnd].  An exception
    thrown by an event listener or by a promise callback is reported by
    the host and the page goes on; so it does after an exception of
    [update] or [destroy], which reaches their caller. *)
Definition stepT (w : World) (ev : Event Params) : World :=
  match ev with
  | Mousedown target clientX clientY cs =>
      fold_left
        (fun w h => if contains h target
                    then world_of (onMouseDownT w target clientX clientY cs)
                    else w)
        (mousedownListeners (page w)) w
  | Mousemove clientX clientY lay =>
      if mousemoveListener (page w) then onMouseMoveR rnd w clientX clientY lay
      else w
  | Mouseup => if mouseupListener (page w) then end_ w else w
  | Microtask =>
      match microtasks (page w) with
      | O => w
      | S n => world_of (addCursorT (set_microtasks n w))
      end
  | Update p => world_of (updateT w p)
  | Destroy => world_of (destroyT w)
  | HostSetCursor e v =>
      if (v =? "")%string then remove_style_cursor e w else set_style_cursor e v w
  | HostSetUserSelect v => set_userSelect v w
  | HostSetDocument d => set_document d w
  end.

Definition runT (w : World) (evs : list (Event Params)) : World :=
  fold_left stepT evs w.

(** The worlds [update] goes through, statement by statement, up to the
    exception if there is one. *)
Definition update_pointsT (w : World) (p : Params) : list World :=
  match removeCursorT w with
  | thrown w1 => [w1]
  | returned w1 =>
      let w2 := update_removeListener w1 in
      let w3 := update_assign input p w2 in
      [w1; w2; w3; install w3]
  end.

Definition pointsT (w : World) (ev : Event Params) : list World :=
  match ev with
  | Update p => update_pointsT w p
  | _ => [stepT w ev]
  end.

Fixpoint visitedT (w : World) (evs : list (Event Params)) : list World :=
  match evs with
  | [] => []
  | ev :: evs' => pointsT w ev ++ visitedT (stepT w ev) evs'
  end.

End Program.

Arguments updateT valid {Params} input w p.
Arguments update_pointsT valid {Params} input w p.
Arguments pointsT rnd valid {Params} input w ev.
Arguments stepT rnd valid {Params} input w ev.
Arguments runT rnd valid {Params} input w evs.
Arguments visitedT rnd valid {Params} input w evs.

Definition is_update {Params : Type} (ev : Event Params) : bool :=
  match ev with
  | Update _ => true
  | _ => false
  end.

(** The parameters in force after the events [evs] on the node [n], when
    [c] was in force in [w]: the ones resolved for the last [update] that
    returned. *)
Fixpoint latest {Params : Type} (rnd : Q -> Q) (valid : string -> bool)
    (input : Elem -> Params -> Input) (n : Elem) (c : Input) (w : World)
    (evs : list (Event Params)) : Input :=
  match evs with
  | [] => c
  | ev :: evs' =>
      let c' := match ev with
                | Update p =>
                    if has_returned (updateT valid input w p) then input n p
                    else c
                | _ => c
                end in
      latest rnd valid input n c' (stepT rnd valid input w ev) evs'
  end.


(** * Properties *)

(** ** The move handler *)



Lemma top_of_onMouseMove_free w clientX clientY lay :
  parent (config (closure w)) = None ->
  top_of (onMouseMove w clientX clientY lay) =
  clampTotal (top_of w + Δy_of w clientY) (top_of w) (ΣΔy (closure w))
             (boundY_of w lay).
Proof.
  intros Hp. unfold top_of, onMouseMove. cbn. rewrite Hp. reflexivity.
Qed.

Lemma left_of_onMouseMove_free w clientX clientY lay :
  parent (config (closure w)) = None ->
  left_of (onMouseMove w clientX clientY lay) =
  clampTotal (left_of w + Δx_of w clientX) (left_of w) (ΣΔx (closure w))
             (boundX_of w lay).
Proof.
  intros Hp. unfold left_of, onMouseMove. cbn. rewrite Hp. reflexivity.
Qed.


(** Whatever the mode, the move writes the offsets it remembers and adds
    the applied displacement to the running totals. *)
Lemma onMouseMove_writes w clientX clientY lay :
  let w' := onMouseMove w clientX clientY lay in
  nodeLeft (page w') = Some (left_of w') /\
  nodeTop (page w') = Some (top_of w') /\
  ΣΔx (closure w') = ΣΔx (closure w) + applied_dx w w' /\
  ΣΔy (closure w') = ΣΔy (closure w) + applied_dy w w'.
Proof.
  unfold onMouseMove, applied_dx, applied_dy, left_of, top_of. cbn.
  destruct (parent (config (closure w))); cbn; repeat split; reflexivity.
Qed.




Lemma clampTotal_bounded candidate last total bnd :
  0 < bnd ->
  Qabs (total + (clampTotal candidate last total bnd - last)) <= bnd.
Proof.
  intros Hb. apply Qabs_Qle_condition. unfold clampTotal.
  destruct (Qlt_le_dec 0 bnd); [| lra].
  destruct (Qlt_le_dec bnd (total + candidate - last));
    [| destruct (Qlt_le_dec (total + candidate - last) (- bnd))];
    split; lra.
Qed.




(** ** Cursor styles *)

Lemma isSameNode_true a b : isSameNode a b = true <-> a = b.
Proof. unfold isSameNode. apply bool_decide_eq_true. Qed.

Lemma isSameNode_false a b : isSameNode a b = false <-> a <> b.
Proof. unfold isSameNode. apply bool_decide_eq_false. Qed.

Lemma isSameNode_refl a : isSameNode a a = true.
Proof. apply isSameNode_true. reflexivity. Qed.

Lemma existsb_isSameNode e l :
  List.existsb (isSameNode e) l = true <-> In e l.
Proof.
  rewrite existsb_exists. split.
  - intros (x & Hin & Heq). apply isSameNode_true in Heq. subst. assumption.
  - intros Hin. exists e. split; [assumption | apply isSameNode_refl].
Qed.

Lemma style_cursor_set w e v e' :
  style_cursor (set_style_cursor e v w) e' =
  if isSameNode e' e then v else style_cursor w e'.
Proof.
  unfold style_cursor, set_style_cursor. cbn.
  destruct (isSameNode e' e) eqn:He.
  - apply isSameNode_true in He. subst. rewrite lookup_insert_eq. reflexivity.
  - apply isSameNode_false in He. rewrite lookup_insert_ne; [reflexivity | congruence].
Qed.

Lemma style_cursor_remove w e e' :
  style_cursor (remove_style_cursor e w) e' =
  if isSameNode e' e then "" else style_cursor w e'.
Proof.
  unfold style_cursor, remove_style_cursor. cbn.
  destruct (isSameNode e' e) eqn:He.
  - apply isSameNode_true in He. subst. rewrite lookup_delete_eq. reflexivity.
  - apply isSameNode_false in He. rewrite lookup_delete_ne; [reflexivity | congruence].
Qed.

(** The loops of [addCursor] and [removeCursor] touch nothing but the
    cursor styles. *)
Lemma only_cursors_differ_refl w : only_cursors_differ w w.
Proof. unfold only_cursors_differ. destruct w as [k []]; reflexivity. Qed.

Lemma only_cursors_differ_trans w1 w2 w3 :
  only_cursors_differ w1 w2 -> only_cursors_differ w2 w3 ->
  only_cursors_differ w1 w3.
Proof.
  unfold only_cursors_differ. intros H12 H23.
  rewrite H23 at 1. rewrite H12 at 1. reflexivity.
Qed.

Lemma only_cursors_differ_set m w : only_cursors_differ w (set_cursors m w).
Proof. reflexivity. Qed.

Lemma fold_only_cursors_differ (f : World -> Elem -> World) l :
  (forall w e, only_cursors_differ w (f w e)) ->
  forall w, only_cursors_differ w (fold_left f l w).
Proof.
  intros Hf. induction l as [| a l IH]; intros w; cbn.
  - apply only_cursors_differ_refl.
  - eapply only_cursors_differ_trans; [apply Hf | apply IH].
Qed.

Lemma addCursor_only_cursors w : only_cursors_differ w (addCursor w).
Proof.
  unfold addCursor. destruct (cursor _); [| apply only_cursors_differ_refl].
  eapply only_cursors_differ_trans;
    [apply only_cursors_differ_set | apply fold_only_cursors_differ].
  intros w' e. destruct (_ =? _)%string;
    [apply only_cursors_differ_set | apply only_cursors_differ_refl].
Qed.

Lemma removeCursor_only_cursors w : only_cursors_differ w (removeCursor w).
Proof.
  unfold removeCursor. destruct (cursor _); [| apply only_cursors_differ_refl].
  eapply only_cursors_differ_trans; [| apply fold_only_cursors_differ].
  - destruct (_ =? _)%string;
      [apply only_cursors_differ_set | apply only_cursors_differ_refl].
  - intros w' e. destruct (_ =? _)%string;
      [apply only_cursors_differ_set | apply only_cursors_differ_refl].
Qed.

Lemma only_cursors_differ_closure w w' :
  only_cursors_differ w w' -> closure w' = closure w.
Proof. intros ->. reflexivity. Qed.

Lemma only_cursors_differ_ignored w w' :
  only_cursors_differ w w' -> getIgnoredElements w' = getIgnoredElements w.
Proof. intros ->. reflexivity. Qed.

Lemma fold_remove_auto l : forall w e,
  style_cursor
    (fold_left (fun w e => if (style_cursor w e =? "auto")%string
                           then remove_style_cursor e w else w) l w) e =
  if List.existsb (isSameNode e) l && (style_cursor w e =? "auto")%string
  then "" else style_cursor w e.
Proof.
  induction l as [| a l IH]; intros w e; cbn [fold_left List.existsb].
  - reflexivity.
  - rewrite IH. destruct (style_cursor w a =? "auto")%string eqn:Ha.
    + rewrite style_cursor_remove. destruct (isSameNode e a) eqn:Hea.
      * apply isSameNode_true in Hea. subst a. rewrite Ha. cbn.
        rewrite andb_false_r. reflexivity.
      * cbn. reflexivity.
    + destruct (isSameNode e a) eqn:Hea.
      * apply isSameNode_true in Hea. subst a. rewrite Ha.
        rewrite !andb_false_r. reflexivity.
      * cbn. reflexivity.
Qed.

Lemma fold_add_auto l : forall w e,
  style_cursor
    (fold_left (fun w e => if (style_cursor w e =? "")%string
                           then set_style_cursor e "auto" w else w) l w) e =
  if List.existsb (isSameNode e) l && (style_cursor w e =? "")%string
  then "auto" else style_cursor w e.
Proof.
  induction l as [| a l IH]; intros w e; cbn [fold_left List.existsb].
  - reflexivity.
  - rewrite IH. destruct (style_cursor w a =? "")%string eqn:Ha.
    + rewrite style_cursor_set. destruct (isSameNode e a) eqn:Hea.
      * apply isSameNode_true in Hea. subst a. rewrite Ha. cbn.
        rewrite andb_false_r. reflexivity.
      * cbn. reflexivity.
    + destruct (isSameNode e a) eqn:Hea.
      * apply isSameNode_true in Hea. subst a. rewrite Ha.
        rewrite !andb_false_r. reflexivity.
      * cbn. reflexivity.
Qed.

(** What [removeCursor] does to each element: it clears the cursor of the
    handle when it reads [grab], the cursor of an ignored element when it
    reads [auto], and nothing else. *)
Lemma style_cursor_removeCursor w e :
  style_cursor (removeCursor w) e =
  if cursor (config (closure w))
     && (isSameNode e (handle (config (closure w)))
           && (style_cursor w e =? "grab")%string
         || List.existsb (isSameNode e) (getIgnoredElements w)
              && (style_cursor w e =? "auto")%string)
  then "" else style_cursor w e.
Proof.
  unfold removeCursor. destruct (cursor _); [| reflexivity]. cbn [andb].
  set (h := handle (config (closure w))).
  destruct (style_cursor w h =? "grab")%string eqn:Hg.
  - change (getIgnoredElements (remove_style_cursor h w))
      with (getIgnoredElements w).
    rewrite fold_remove_auto, style_cursor_remove.
    destruct (isSameNode e h) eqn:Heh.
    + apply isSameNode_true in Heh. subst e. rewrite Hg. cbn.
      rewrite andb_false_r. reflexivity.
    + cbn. reflexivity.
  - rewrite fold_remove_auto. destruct (isSameNode e h) eqn:Heh.
    + apply isSameNode_true in Heh. subst e. rewrite Hg. cbn. reflexivity.
    + cbn. reflexivity.
Qed.

Lemma style_cursor_addCursor w e :
  style_cursor (addCursor w) e =
  if cursor (config (closure w)) then
    if isSameNode e (handle (config (closure w))) then "grab"
    else if List.existsb (isSameNode e) (getIgnoredElements w)
              && (style_cursor w e =? "")%string
         then "auto" else style_cursor w e
  else style_cursor w e.
Proof.
  unfold addCursor. destruct (cursor _); [| reflexivity].
  set (h := handle (config (closure w))).
  change (getIgnoredElements (set_style_cursor h "grab" w))
    with (getIgnoredElements w).
  rewrite fold_add_auto, style_cursor_set.
  destruct (isSameNode e h); [| reflexivity].
  cbn. rewrite andb_false_r. reflexivity.
Qed.

(** C9, as amended.  [removeCursor] reverts by value, not by record of
    what [addCursor] changed: it clears the handle's cursor exactly when it
    reads [grab] and an ignored descendant's cursor exactly when it reads
    [auto], whoever set them, and changes no other cursor.  So
    [removeCursor] after [addCursor] gives every element its cursor of
    before the mount provided that, before the mount, the handle had no
    inline cursor and no ignored descendant had the cursor [auto]. *)
Theorem C9_removeCursor_reverts_by_value w :
  (forall e,
     style_cursor (removeCursor w) e =
     if cursor (config (closure w))
        && (isSameNode e (handle (config (closure w)))
              && (style_cursor w e =? "grab")%string
            || List.existsb (isSameNode e) (getIgnoredElements w)
                 && (style_cursor w e =? "auto")%string)
     then "" else style_cursor w e)
  /\
  (style_cursor w (handle (config (closure w))) = "" ->
   (forall e, In e (getIgnoredElements w) -> style_cursor w e <> "auto") ->
   forall e, style_cursor (removeCursor (addCursor w)) e = style_cursor w e).
Proof.
  split; [apply style_cursor_removeCursor |].
  intros Hh Hi e.
  rewrite style_cursor_removeCursor.
  rewrite (only_cursors_differ_closure _ _ (addCursor_only_cursors w)).
  rewrite (only_cursors_differ_ignored _ _ (addCursor_only_cursors w)).
  rewrite style_cursor_addCursor.
  destruct (cursor (config (closure w))); [| reflexivity]. cbn [andb].
  destruct (isSameNode e (handle (config (closure w)))) eqn:Heh.
  - apply isSameNode_true in Heh. subst e. cbn. symmetry. exact Hh.
  - cbn [andb orb].
    destruct (List.existsb (isSameNode e) (getIgnoredElements w)) eqn:Hin;
      [| reflexivity].
    cbn [andb]. destruct (style_cursor w e =? "")%string eqn:He.
    + cbn. apply String.eqb_eq in He. symmetry. exact He.
    + destruct (style_cursor w e =? "auto")%string eqn:Ha; [| reflexivity].
      apply String.eqb_eq in Ha. apply existsb_isSameNode in Hin.
      exfalso. exact (Hi e Hin Ha).
Qed.

Lemma C9_witness :
  let w := Sample.attach Sample.withHandle Sample.blank in
  style_cursor (removeCursor (addCursor w)) [0;0;0]%nat =
    style_cursor w [0;0;0]%nat /\
  style_cursor (removeCursor (addCursor w)) [0;0;0;1]%nat =
    style_cursor w [0;0;0;1]%nat.
Proof.
  cbv zeta.
  assert (Hh : style_cursor (Sample.attach Sample.withHandle Sample.blank)
                 (handle (config (closure
                    (Sample.attach Sample.withHandle Sample.blank)))) = "")
    by (vm_compute; reflexivity).
  assert (Hi : forall e,
             In e (getIgnoredElements
                     (Sample.attach Sample.withHandle Sample.blank)) ->
             style_cursor (Sample.attach Sample.withHandle Sample.blank) e
             <> "auto")
    by (intros e _; vm_compute; discriminate).
  split;
    apply (proj2 (C9_removeCursor_reverts_by_value
                    (Sample.attach Sample.withHandle Sample.blank)) Hh Hi).
Defined.

(** C9 as stated fails: the host gave the ignored [".text"] element the
    cursor [auto] before the mount; the mount step leaves that element
    alone, and the unmount step clears its cursor all the same. *)
Lemma C9_counterexample :
  let e := [0;0;0;1]%nat in
  let w := Sample.attach Sample.withHandle Sample.styled in
  let mounted := Sample.deliver w Microtask in
  let unmounted := Sample.deliver mounted Destroy in
  In e (getIgnoredElements w) /\
  style_cursor w e = "auto" /\
  cursors (page mounted) !! e = cursors (page w) !! e /\
  style_cursor unmounted e = "".
Proof.
  cbv zeta. split; [left; reflexivity |]. repeat split; vm_compute; reflexivity.
Qed.

(** ** The press listener across the life of the action *)

Lemma same_install_refl w : same_install w w.
Proof. split; reflexivity. Qed.

Lemma same_install_trans w1 w2 w3 :
  same_install w1 w2 -> same_install w2 w3 -> same_install w1 w3.
Proof. intros [H1 H2] [H3 H4]. split; congruence. Qed.

Lemma only_cursors_same_install w w' :
  only_cursors_differ w w' -> same_install w w'.
Proof. intros ->. split; reflexivity. Qed.

Lemma onMouseDown_same_install w target clientX clientY cs :
  same_install w (onMouseDown w target clientX clientY cs).
Proof.
  unfold onMouseDown. destruct (List.existsb _ _); [apply same_install_refl |].
  cbn. destruct (is_positioned _), (cursor _); split; reflexivity.
Qed.

Lemma onMouseMove_same_install w clientX clientY lay :
  same_install w (onMouseMove w clientX clientY lay).
Proof.
  unfold onMouseMove. cbn. destruct (parent _); split; reflexivity.
Qed.

Lemma end_same_install w : same_install w (end_ w).
Proof.
  unfold end_. cbn. destruct (cursor _); [| split; reflexivity].
  destruct (_ =? _)%string; split; reflexivity.
Qed.

Lemma same_install_ok w w' :
  same_install w w' -> installed_ok w -> installed_ok w'.
Proof. unfold installed_ok. intros [-> ->]. trivial. Qed.

Lemma same_install_exact w w' :
  same_install w w' -> installed_exact w -> installed_exact w'.
Proof. unfold installed_exact. intros [-> ->]. trivial. Qed.

Lemma installed_exact_ok w : installed_exact w -> installed_ok w.
Proof.
  unfold installed_exact, installed_ok.
  destruct (enabled _); intros ->; [right; split; reflexivity | left; reflexivity].
Qed.

Lemma installed_ok_length w :
  installed_ok w -> (length (mousedownListeners (page w)) <= 1)%nat.
Proof. intros [-> | [-> _]]; cbn; lia. Qed.

(** With no press listener registered, [install] registers exactly the one
    the parameters ask for. *)
Lemma install_exact w :
  mousedownListeners (page w) = [] -> installed_exact (install w).
Proof.
  intros Hl. unfold installed_exact, install.
  destruct (enabled (config (closure w))) eqn:He.
  - unfold addEventListener_mousedown. rewrite Hl. cbn. rewrite He. reflexivity.
  - rewrite He. exact Hl.
Qed.

Lemma removeListener_none w :
  installed_ok w ->
  mousedownListeners
    (page (removeEventListener_mousedown (handle (config (closure w))) w)) = [].
Proof.
  intros [Hl | [Hl _]]; unfold removeEventListener_mousedown; rewrite Hl; cbn.
  - reflexivity.
  - rewrite isSameNode_refl. reflexivity.
Qed.

Section Lifecycle.

Variable Params : Type.
Variable input : Elem -> Params -> Input.
Variable defaultParameters : Params.

Lemma movable_installed_exact n parameters pg :
  installed_exact (movable input defaultParameters n parameters pg).
Proof. unfold movable. apply install_exact. reflexivity. Qed.

(** The four worlds [update] goes through. *)
Lemma update_points_spec w p :
  installed_ok w ->
  Forall installed_ok (update_points input w p) /\
  installed_exact (update input w p).
Proof.
  intros Hok. unfold update_points, update.
  pose proof (removeCursor_only_cursors w) as Hc.
  apply only_cursors_same_install in Hc.
  assert (H1 : installed_ok (update_removeCursor w))
    by (eapply same_install_ok; eassumption).
  assert (H2 : mousedownListeners
                 (page (update_removeListener (update_removeCursor w))) = [])
    by (apply removeListener_none; exact H1).
  assert (H3 : mousedownListeners
                 (page (update_assign input p
                          (update_removeListener (update_removeCursor w)))) = [])
    by exact H2.
  assert (H4 := install_exact _ H3).
  split; [| exact H4].
  apply List.Forall_cons; [exact H1 |].
  apply List.Forall_cons; [left; exact H2 |].
  apply List.Forall_cons; [left; exact H3 |].
  apply List.Forall_cons; [apply installed_exact_ok; exact H4 | apply List.Forall_nil].
Qed.

Lemma step_mousedown_same_install w target clientX clientY cs :
  same_install w (step input w (Mousedown target clientX clientY cs)).
Proof.
  cbn. generalize (mousedownListeners (page w)) as ls. intros ls.
  revert w. induction ls as [| h ls IH]; intros w; cbn.
  - apply same_install_refl.
  - eapply same_install_trans; [| apply IH].
    destruct (contains h target);
      [apply onMouseDown_same_install | apply same_install_refl].
Qed.

(** Every event but [update] and [destroy] leaves the press listeners and
    the parameters as they are. *)
Lemma step_same_install w ev :
  match ev with
  | Update _ | Destroy => True
  | _ => same_install w (step input w ev)
  end.
Proof.
  destruct ev; try exact I.
  - apply step_mousedown_same_install.
  - cbn. destruct (mousemoveListener _);
      [apply onMouseMove_same_install | apply same_install_refl].
  - cbn. destruct (mouseupListener _);
      [apply end_same_install | apply same_install_refl].
  - cbn. destruct (microtasks (page w)); [apply same_install_refl |].
    apply (same_install_trans _ (set_microtasks n w));
      [split; reflexivity |].
    apply only_cursors_same_install, addCursor_only_cursors.
  - cbn. destruct (v =? "")%string; split; reflexivity.
  - split; reflexivity.
  - split; reflexivity.
Qed.

Lemma destroy_no_listener w :
  installed_ok w -> mousedownListeners (page (destroy w)) = [].
Proof.
  intros Hok. unfold destroy.
  pose proof (removeCursor_only_cursors
                (removeEventListener_mousedown (handle (config (closure w))) w))
    as Hc.
  apply only_cursors_same_install in Hc. destruct Hc as [-> _].
  apply removeListener_none. exact Hok.
Qed.

Lemma step_installed_ok w ev : installed_ok w -> installed_ok (step input w ev).
Proof.
  intros Hok. pose proof (step_same_install w ev) as Hs.
  destruct ev; try (eapply same_install_ok; eassumption).
  - apply installed_exact_ok. apply update_points_spec. exact Hok.
  - left. apply destroy_no_listener. exact Hok.
Qed.

Lemma step_installed_exact w ev :
  is_destroy ev = false -> installed_exact w -> installed_exact (step input w ev).
Proof.
  intros Hd Hex. pose proof (step_same_install w ev) as Hs.
  destruct ev; try discriminate; try (eapply same_install_exact; eassumption).
  apply update_points_spec. apply installed_exact_ok. exact Hex.
Qed.

Lemma points_installed_ok w ev :
  installed_ok w -> Forall installed_ok (points input w ev).
Proof.
  intros Hok.
  destruct ev;
    try (apply List.Forall_cons; [apply step_installed_ok; exact Hok | apply List.Forall_nil]).
  apply update_points_spec. exact Hok.
Qed.

Lemma visited_installed_ok evs : forall w,
  installed_ok w -> Forall installed_ok (visited input w evs).
Proof.
  induction evs as [| ev evs IH]; intros w Hok; cbn [visited].
  - apply List.Forall_nil.
  - apply Forall_app. split.
    + apply points_installed_ok. exact Hok.
    + apply IH. apply step_installed_ok. exact Hok.
Qed.

Lemma run_installed_ok evs : forall w,
  installed_ok w -> installed_ok (run input w evs).
Proof.
  induction evs as [| ev evs IH]; intros w Hok; cbn.
  - exact Hok.
  - apply IH. apply step_installed_ok. exact Hok.
Qed.

Lemma run_installed_exact evs : forall w,
  List.forallb (fun ev => negb (is_destroy ev)) evs = true ->
  installed_exact w -> installed_exact (run input w evs).
Proof.
  induction evs as [| ev evs IH]; intros w Hnd Hex; cbn.
  - exact Hex.
  - cbn in Hnd. apply andb_prop in Hnd. destruct Hnd as [Hd Hnd].
    apply IH; [exact Hnd |]. apply step_installed_exact; [| exact Hex].
    apply negb_true_iff. exact Hd.
Qed.

End Lifecycle.

(** ** One drag session *)

Lemma contains_trans a : forall b c,
  contains a b = true -> contains b c = true -> contains a c = true.
Proof.
  induction a as [| x a IH]; intros b c Hab Hbc; [reflexivity |].
  destruct b as [| y b]; [discriminate |].
  destruct c as [| z c]; [discriminate |].
  cbn in *. apply andb_prop in Hab. destruct Hab as [Hxy Hab].
  apply andb_prop in Hbc. destruct Hbc as [Hyz Hbc].
  apply Nat.eqb_eq in Hxy. apply Nat.eqb_eq in Hyz. subst.
  rewrite Nat.eqb_refl. cbn. eapply IH; eassumption.
Qed.

Lemma ignoredTarget_In w target :
  ignoredTarget w target = true <-> In target (getIgnoredElements w).
Proof.
  unfold ignoredTarget. rewrite existsb_exists. split.
  - intros (x & Hin & Heq). apply isSameNode_true in Heq. subst. assumption.
  - intros Hin. exists target. split; [assumption | apply isSameNode_refl].
Qed.

Lemma In_getIgnoredElements w e :
  In e (getIgnoredElements w) ->
  exists sel, ignore (config (closure w)) = Some sel /\
              descendant_of (handle (config (closure w))) e = true /\
              selector_matches (document (page w)) sel e = true.
Proof.
  unfold getIgnoredElements. destruct (ignore _) as [sel |]; [| intros []].
  destruct (sel =? "")%string; [intros [] |].
  unfold querySelectorAll. rewrite filter_In. intros [_ H].
  apply andb_prop in H. exists sel. split; [reflexivity | exact H].
Qed.

(** What a press that passes the guard does. *)
Lemma onMouseDown_starts w target clientX clientY cs :
  ignoredTarget w target = false ->
  let w' := onMouseDown w target clientX clientY cs in
  dispatched (page w') =
    dispatched (page w) ++
    [movablestart (node (closure w))
       (mkPosition (inject_Z (cs_top cs)) (inject_Z (cs_left cs)))] /\
  mousemoveListener (page w') = true /\
  mouseupListener (page w') = true /\
  userSelect (page w') = "none" /\
  node (closure w') = node (closure w).
Proof.
  unfold ignoredTarget. intros Hg. cbv zeta. unfold onMouseDown. rewrite Hg.
  cbn. destruct (is_positioned _), (cursor _); cbn; repeat split; reflexivity.
Qed.

Lemma onMouseDown_ignored w target clientX clientY cs :
  ignoredTarget w target = true ->
  onMouseDown w target clientX clientY cs = w.
Proof. unfold ignoredTarget, onMouseDown. intros ->. reflexivity. Qed.

(** What a release does when [end] is registered. *)
Lemma end_finishes w :
  dispatched (page (end_ w)) =
    dispatched (page w) ++
    [movableend (node (closure w)) (lastNodePosition (closure w))] /\
  mousemoveListener (page (end_ w)) = false /\
  mouseupListener (page (end_ w)) = false /\
  userSelect (page (end_ w)) = "".
Proof.
  unfold end_. cbn. destruct (cursor _); [| repeat split; reflexivity].
  destruct (_ =? _)%string; repeat split; reflexivity.
Qed.

(** A move emits nothing and keeps the session going. *)
Lemma onMouseMove_quiet w clientX clientY lay :
  let w' := onMouseMove w clientX clientY lay in
  dispatched (page w') = dispatched (page w) /\
  mouseupListener (page w') = mouseupListener (page w) /\
  mousemoveListener (page w') = mousemoveListener (page w) /\
  node (closure w') = node (closure w).
Proof.
  unfold onMouseMove. cbn. destruct (parent _); repeat split; reflexivity.
Qed.

Section Session.

Variable Params : Type.
Variable input : Elem -> Params -> Input.
Variable defaultParameters : Params.

Lemma step_mousedown_ignored w target clientX clientY cs :
  ignoredTarget w target = true ->
  step input w (Mousedown target clientX clientY cs) = w.
Proof.
  intros Hg. cbn. induction (mousedownListeners (page w)) as [| h ls IH]; cbn.
  - reflexivity.
  - destruct (contains h target); [rewrite onMouseDown_ignored by exact Hg |];
      exact IH.
Qed.

Lemma step_mousedown_no_listener w target clientX clientY cs :
  mousedownListeners (page w) = [] ->
  step input w (Mousedown target clientX clientY cs) = w.
Proof. intros Hl. cbn. rewrite Hl. reflexivity. Qed.

Lemma step_mousedown_on_handle w target clientX clientY cs :
  mousedownListeners (page w) = [handle (config (closure w))] ->
  contains (handle (config (closure w))) target = true ->
  step input w (Mousedown target clientX clientY cs) =
  onMouseDown w target clientX clientY cs.
Proof. intros Hl Hc. cbn. rewrite Hl. cbn. rewrite Hc. reflexivity. Qed.

Lemma run_cons w ev evs :
  run input w (ev :: evs) = run input (step input w ev) evs.
Proof. reflexivity. Qed.

Lemma step_mousemove_quiet w clientX clientY lay :
  let w' := step input w (Mousemove clientX clientY lay) in
  dispatched (page w') = dispatched (page w) /\
  mouseupListener (page w') = mouseupListener (page w) /\
  node (closure w') = node (closure w).
Proof.
  cbv zeta. cbn [step].
  destruct (mousemoveListener (page w)); [| repeat split; reflexivity].
  destruct (onMouseMove_quiet w clientX clientY lay) as (Hd & Hu & _ & Hn).
  repeat split; assumption.
Qed.

Lemma run_mousemoves_quiet moves : forall w,
  let w' := run input w (mousemoves moves) in
  dispatched (page w') = dispatched (page w) /\
  mouseupListener (page w') = mouseupListener (page w) /\
  node (closure w') = node (closure w).
Proof.
  induction moves as [| m moves IH]; intros w; cbv zeta.
  - repeat split; reflexivity.
  - unfold mousemoves. cbn [map]. rewrite run_cons.
    fold (@mousemoves Params moves).
    destruct (IH (step input w (Mousemove (fst (fst m)) (snd (fst m)) (snd m))))
      as (Hd & Hu & Hn).
    destruct (step_mousemove_quiet w (fst (fst m)) (snd (fst m)) (snd m))
      as (Hd' & Hu' & Hn').
    cbv zeta in *. rewrite Hd, Hu, Hn. repeat split; assumption.
Qed.

(** C5.  A release signal always leaves the session idle, a second release
    signal then changes nothing at all (no state, no notification), and so
    does any release signal that arrives while the session is idle. *)
Theorem C5_duplicate_release_is_a_no_op w :
  let released := step input w Mouseup in
  dragging released = false /\
  step input released Mouseup = released /\
  (dragging w = false -> released = w).
Proof.
  cbv zeta. unfold dragging.
  assert (Hidle : mouseupListener (page (step input w Mouseup)) = false).
  { cbn. destruct (mouseupListener (page w)) eqn:Hup; [| exact Hup].
    apply end_finishes. }
  split; [exact Hidle |]. split.
  - cbn [step] in *. rewrite Hidle. reflexivity.
  - intros Hup. cbn. rewrite Hup. reflexivity.
Qed.

(** C8.  In any world reached from [movable], a press on an ignored
    element, or a press while the parameters are not enabled, changes
    nothing: no notification, no session.  A press that reaches the
    handler and passes the guard dispatches one [movablestart]; the moves
    that follow dispatch nothing; the release dispatches one [movableend]. *)
Theorem C8_notifications_of_a_press
    n parameters pg evs target clientX clientY cs moves :
  let w := run input (movable input defaultParameters n parameters pg) evs in
  let pressed := step input w (Mousedown target clientX clientY cs) in
  let moved := run input pressed (mousemoves moves) in
  let released := step input moved Mouseup in
  (ignoredTarget w target = true \/ enabled (config (closure w)) = false ->
   pressed = w)
  /\
  (ignoredTarget w target = false ->
   mousedownListeners (page w) = [handle (config (closure w))] ->
   contains (handle (config (closure w))) target = true ->
   dispatched (page released) =
   dispatched (page w) ++
   [movablestart (node (closure w))
      (mkPosition (inject_Z (cs_top cs)) (inject_Z (cs_left cs)));
    movableend (node (closure w)) (lastNodePosition (closure moved))]).
Proof.
  cbv zeta.
  set (w := run input (movable input defaultParameters n parameters pg) evs).
  assert (Hok : installed_ok w).
  { apply run_installed_ok, installed_exact_ok, movable_installed_exact. }
  split.
  - intros [Hg | Hen].
    + apply step_mousedown_ignored. exact Hg.
    + apply step_mousedown_no_listener.
      destruct Hok as [Hl | [_ He]]; [exact Hl | congruence].
  - intros Hg Hl Hc.
    rewrite (step_mousedown_on_handle w) by assumption.
    destruct (onMouseDown_starts w target clientX clientY cs Hg)
      as (Hd & _ & Hup & _ & Hn).
    destruct (run_mousemoves_quiet moves
                (onMouseDown w target clientX clientY cs)) as (Hd' & Hup' & Hn').
    cbv zeta in *. cbn [step]. rewrite Hup', Hup.
    destruct (end_finishes
                (run input (onMouseDown w target clientX clientY cs)
                     (mousemoves moves))) as (-> & _).
    rewrite Hd', Hd, Hn', Hn, <- app_assoc. reflexivity.
Qed.

(** C10.  The guard of [onMouseDown] compares the press target with the
    elements [querySelectorAll] returns, by identity.  So a press on an
    element strictly inside an ignored element, which does not match the
    selector itself, passes the guard and starts a session: [movablestart]
    is dispatched, text selection is suppressed and the move and release
    listeners are registered. *)
Theorem C10_press_inside_an_ignored_element_starts_a_drag
    w sel e target clientX clientY cs :
  mousedownListeners (page w) = [handle (config (closure w))] ->
  ignore (config (closure w)) = Some sel ->
  In e (getIgnoredElements w) ->
  descendant_of e target = true ->
  selector_matches (document (page w)) sel target = false ->
  let pressed := step input w (Mousedown target clientX clientY cs) in
  (forall t, ignoredTarget w t = true <-> In t (getIgnoredElements w)) /\
  ignoredTarget w target = false /\
  dragging pressed = true /\
  mousemoveListener (page pressed) = true /\
  userSelect (page pressed) = "none" /\
  dispatched (page pressed) =
  dispatched (page w) ++
  [movablestart (node (closure w))
     (mkPosition (inject_Z (cs_top cs)) (inject_Z (cs_left cs)))].
Proof.
  intros Hl Hsel He Het Hnot. cbv zeta.
  assert (Hg : ignoredTarget w target = false).
  { destruct (ignoredTarget w target) eqn:Hg; [| reflexivity].
    apply ignoredTarget_In, In_getIgnoredElements in Hg.
    destruct Hg as (sel' & Hsel' & _ & Hm). congruence. }
  assert (Hc : contains (handle (config (closure w))) target = true).
  { apply In_getIgnoredElements in He. destruct He as (_ & _ & Hd & _).
    unfold descendant_of in Hd, Het.
    apply andb_prop in Hd. apply andb_prop in Het.
    eapply contains_trans; [apply Hd | apply Het]. }
  rewrite (step_mousedown_on_handle w) by assumption.
  destruct (onMouseDown_starts w target clientX clientY cs Hg)
    as (Hd & Hmv & Hup & Hus & _).
  split; [intros t; apply ignoredTarget_In |].
  unfold dragging. repeat split; assumption.
Qed.

End Session.

(** ** Cursor and text selection across a press and a release *)

Lemma style_cursor_ext w w' e :
  cursors (page w) = cursors (page w') -> style_cursor w e = style_cursor w' e.
Proof. unfold style_cursor. intros ->. reflexivity. Qed.

Lemma style_cursor_end w e :
  style_cursor (end_ w) e =
  if cursor (config (closure w)) then
    if isSameNode e (handle (config (closure w))) then "grab"
    else if isSameNode e (body (document (page w)))
              && (style_cursor w (body (document (page w))) =? "grabbing")%string
         then "" else style_cursor w e
  else style_cursor w e.
Proof.
  set (h := handle (config (closure w))). set (b := body (document (page w))).
  destruct (cursor (config (closure w))) eqn:Hc.
  - destruct (style_cursor w b =? "grabbing")%string eqn:Hb.
    + rewrite (style_cursor_ext _ (set_style_cursor h "grab" (remove_style_cursor b w))).
      * rewrite style_cursor_set, style_cursor_remove, andb_true_r. reflexivity.
      * unfold end_. cbn. rewrite Hc. fold b.
        change (style_cursor (set_userSelect "" w) b) with (style_cursor w b).
        rewrite Hb. reflexivity.
    + rewrite (style_cursor_ext _ (set_style_cursor h "grab" w)).
      * rewrite style_cursor_set, andb_false_r. reflexivity.
      * unfold end_. cbn. rewrite Hc. fold b.
        change (style_cursor (set_userSelect "" w) b) with (style_cursor w b).
        rewrite Hb. reflexivity.
  - apply style_cursor_ext. unfold end_. cbn. rewrite Hc. reflexivity.
Qed.

Lemma style_cursor_onMouseDown w target clientX clientY cs e :
  ignoredTarget w target = false ->
  style_cursor (onMouseDown w target clientX clientY cs) e =
  if cursor (config (closure w)) then
    if isSameNode e (handle (config (closure w))) then "grabbing"
    else if isSameNode e (body (document (page w))) then "grabbing"
         else style_cursor w e
  else style_cursor w e.
Proof.
  intros Hg.
  set (h := handle (config (closure w))). set (b := body (document (page w))).
  destruct (cursor (config (closure w))) eqn:Hc.
  - rewrite (style_cursor_ext _ (set_style_cursor h "grabbing"
                                   (set_style_cursor b "grabbing" w))).
    + rewrite !style_cursor_set. reflexivity.
    + unfold onMouseDown. fold (ignoredTarget w target). rewrite Hg.
      destruct (is_positioned (cs_position cs)); cbn; rewrite Hc; reflexivity.
  - apply style_cursor_ext.
    unfold onMouseDown. fold (ignoredTarget w target). rewrite Hg.
    destruct (is_positioned (cs_position cs)); cbn; rewrite Hc; reflexivity.
Qed.

Lemma onMouseDown_document w target clientX clientY cs :
  document (page (onMouseDown w target clientX clientY cs)) = document (page w).
Proof.
  unfold onMouseDown. destruct (List.existsb _ _); [reflexivity |].
  cbn. destruct (is_positioned _), (cursor _); reflexivity.
Qed.

(** A move leaves the styles, the parameters and the document alone. *)
Lemma onMouseMove_styles w clientX clientY lay :
  let w' := onMouseMove w clientX clientY lay in
  cursors (page w') = cursors (page w) /\
  userSelect (page w') = userSelect (page w) /\
  config (closure w') = config (closure w) /\
  document (page w') = document (page w).
Proof.
  unfold onMouseMove. cbn. destruct (parent _); repeat split; reflexivity.
Qed.

Section Styles.

Variable Params : Type.
Variable input : Elem -> Params -> Input.

Lemma run_mousemoves_styles moves : forall w,
  let w' := run input w (mousemoves moves) in
  cursors (page w') = cursors (page w) /\
  userSelect (page w') = userSelect (page w) /\
  config (closure w') = config (closure w) /\
  document (page w') = document (page w).
Proof.
  induction moves as [| m moves IH]; intros w; cbv zeta.
  - repeat split; reflexivity.
  - unfold mousemoves. cbn [map]. rewrite run_cons.
    fold (@mousemoves Params moves).
    destruct (IH (step input w (Mousemove (fst (fst m)) (snd (fst m)) (snd m))))
      as (Hc & Hu & Hk & Hd).
    cbv zeta in *. rewrite Hc, Hu, Hk, Hd. cbn [step].
    destruct (mousemoveListener (page w)); [| repeat split; reflexivity].
    apply onMouseMove_styles.
Qed.

(** C4, as amended.  Take a press that reaches the handler and passes the
    guard, any moves, and the release.  If before the press the body has
    no inline text-selection style and, when cursor handling is on, the
    body has no inline cursor and the handle's cursor is [grab], then
    after the release the body's text-selection style, the body's cursor
    and the handle's cursor are what they were before the press. *)
Theorem C4_release_restores_default_styles
    w target clientX clientY cs moves :
  mousedownListeners (page w) = [handle (config (closure w))] ->
  contains (handle (config (closure w))) target = true ->
  ignoredTarget w target = false ->
  userSelect (page w) = "" ->
  (cursor (config (closure w)) = true ->
   style_cursor w (body (document (page w))) = "" /\
   style_cursor w (handle (config (closure w))) = "grab") ->
  let pressed := step input w (Mousedown target clientX clientY cs) in
  let released := step input (run input pressed (mousemoves moves)) Mouseup in
  userSelect (page released) = userSelect (page w) /\
  style_cursor released (body (document (page w))) =
    style_cursor w (body (document (page w))) /\
  style_cursor released (handle (config (closure w))) =
    style_cursor w (handle (config (closure w))).
Proof.
  intros Hl Hin Hg Hus Hdef. cbv zeta.
  rewrite (step_mousedown_on_handle _ input w) by assumption.
  set (pressed := onMouseDown w target clientX clientY cs).
  set (moved := run input pressed (mousemoves moves)).
  destruct (onMouseDown_starts w target clientX clientY cs Hg)
    as (_ & _ & Hup & _ & _).
  destruct (run_mousemoves_quiet _ input moves pressed) as (_ & Hup' & _).
  destruct (run_mousemoves_styles moves pressed) as (Hc & _ & Hk & Hd).
  destruct (onMouseDown_same_install w target clientX clientY cs) as [_ Hk0].
  pose proof (onMouseDown_document w target clientX clientY cs) as Hd0.
  cbv zeta in *. fold pressed in Hup, Hk0, Hd0. fold moved in Hup', Hc, Hk, Hd.
  cbn [step]. rewrite Hup', Hup.
  destruct (end_finishes moved) as (_ & _ & _ & ->).
  split; [symmetry; exact Hus |].
  assert (Hcur : forall e,
    style_cursor (end_ moved) e =
    if cursor (config (closure w)) then
      if isSameNode e (handle (config (closure w))) then "grab"
      else if isSameNode e (body (document (page w))) then ""
           else style_cursor w e
    else style_cursor w e).
  { intros e. rewrite style_cursor_end, Hk, Hk0, Hd, Hd0.
    rewrite !(style_cursor_ext moved pressed) by exact Hc.
    unfold pressed. rewrite !style_cursor_onMouseDown by exact Hg.
    destruct (cursor (config (closure w))); [| reflexivity].
    rewrite isSameNode_refl.
    destruct (isSameNode e (handle (config (closure w)))); [reflexivity |].
    destruct (isSameNode e (body (document (page w)))) eqn:Heb;
      [| reflexivity].
    destruct (isSameNode (body (document (page w)))
                         (handle (config (closure w)))); reflexivity. }
  rewrite !Hcur.
  destruct (cursor (config (closure w))); [| split; reflexivity].
  destruct (Hdef eq_refl) as [Hb Hh].
  rewrite !isSameNode_refl.
  destruct (isSameNode (body (document (page w)))
                       (handle (config (closure w)))) eqn:Hbh.
  - apply isSameNode_true in Hbh. rewrite Hbh in Hb. congruence.
  - split; [symmetry; exact Hb | symmetry; exact Hh].
Qed.

End Styles.

(** ** The properties on the sample page *)

(** Scenario 1 of the specification: no boundary, no limit, press at
    (100, 100), move to (150, 120): the node ends at top 20, left 50. *)
Example scenario_free_move :
  let w := Sample.play (Sample.attach Sample.free Sample.blank)
             [Mousedown [0;0]%nat 100 100 Sample.static;
              Mousemove 150 120 (Sample.layout 0 0 100 100)] in
  top_of w == 20 /\ left_of w == 50.
Proof. cbv zeta. split; vm_compute; reflexivity. Qed.

(** Scenario 3 of the specification: no boundary, limit 50 px on x and
    none on y.  Moves adding up to +80 leave the node at left 50, a further
    move to the right is absorbed, a move back to the left is followed. *)
Example scenario_limited_move :
  let lay := Sample.layout 0 0 100 100 in
  let w1 := Sample.play (Sample.attach (Sample.limited 50 0) Sample.blank)
              [Mousedown [0;0]%nat 0 0 Sample.static;
               Mousemove 30 0 lay; Mousemove 80 0 lay] in
  let w2 := Sample.deliver w1 (Mousemove 120 0 lay) in
  let w3 := Sample.deliver w2 (Mousemove 110 0 lay) in
  left_of w1 == 50 /\ left_of w2 == 50 /\ left_of w3 == 40.
Proof. cbv zeta. repeat split; vm_compute; reflexivity. Qed.

Lemma C5_witness :
  let w := Sample.play (Sample.attach Sample.free Sample.blank)
             [Mousedown [0;0]%nat 0 0 Sample.static; Mouseup] in
  dragging w = false /\ Sample.deliver w Mouseup = w.
Proof.
  cbv zeta. split; [vm_compute; reflexivity |].
  apply (C5_duplicate_release_is_a_no_op Input (fun _ p => p)).
  vm_compute; reflexivity.
Defined.

Lemma C8_witness :
  let w := Sample.play (Sample.attach Sample.withHandle Sample.blank) [Microtask] in
  let off := Sample.play (Sample.attach Sample.withHandle Sample.blank)
               [Microtask; Update Sample.disabled] in
  let lay := Sample.layout 0 0 100 100 in
  let pressed := Sample.deliver w (Mousedown [0;0;0;0]%nat 0 0 Sample.static) in
  let moved := Sample.play pressed (mousemoves [(10, 5, lay); (20, 5, lay)]) in
  let released := Sample.deliver moved Mouseup in
  Sample.deliver w (Mousedown [0;0;0;1]%nat 0 0 Sample.static) = w /\
  Sample.deliver off (Mousedown [0;0;0;0]%nat 0 0 Sample.static) = off /\
  dispatched (page released) =
  dispatched (page w) ++
  [movablestart (node (closure w)) (mkPosition 0 0);
   movableend (node (closure w)) (lastNodePosition (closure moved))].
Proof.
  cbv zeta. split; [| split].
  - apply (proj1 (C8_notifications_of_a_press
                    Input (fun _ p => p) Sample.free [0;0]%nat
                    (Some Sample.withHandle) Sample.blank [Microtask]
                    [0;0;0;1]%nat 0 0 Sample.static [])).
    left. vm_compute; reflexivity.
  - apply (proj1 (C8_notifications_of_a_press
                    Input (fun _ p => p) Sample.free [0;0]%nat
                    (Some Sample.withHandle) Sample.blank
                    [Microtask; Update Sample.disabled]
                    [0;0;0;0]%nat 0 0 Sample.static [])).
    right. vm_compute; reflexivity.
  - apply (proj2 (C8_notifications_of_a_press
                    Input (fun _ p => p) Sample.free [0;0]%nat
                    (Some Sample.withHandle) Sample.blank [Microtask]
                    [0;0;0;0]%nat 0 0 Sample.static
                    [(10, 5, Sample.layout 0 0 100 100);
                     (20, 5, Sample.layout 0 0 100 100)]));
      vm_compute; reflexivity.
Defined.

Lemma C10_witness :
  let w := Sample.play (Sample.attach Sample.withHandle Sample.blank) [Microtask] in
  let pressed := Sample.deliver w (Mousedown [0;0;0;1;0]%nat 0 0 Sample.static) in
  In [0;0;0;1]%nat (getIgnoredElements w) /\
  descendant_of [0;0;0;1]%nat [0;0;0;1;0]%nat = true /\
  ignoredTarget w [0;0;0;1;0]%nat = false /\
  dragging pressed = true /\
  dispatched (page pressed) =
  dispatched (page w) ++ [movablestart (node (closure w)) (mkPosition 0 0)].
Proof.
  cbv zeta.
  assert (Hin : In [0;0;0;1]%nat
                   (getIgnoredElements
                      (Sample.play (Sample.attach Sample.withHandle Sample.blank)
                                   [Microtask])))
    by (vm_compute; left; reflexivity).
  split; [exact Hin |]. split; [vm_compute; reflexivity |].
  destruct (C10_press_inside_an_ignored_element_starts_a_drag
              Input (fun _ p => p)
              (Sample.play (Sample.attach Sample.withHandle Sample.blank)
                           [Microtask])
              ".text" [0;0;0;1]%nat [0;0;0;1;0]%nat 0 0 Sample.static
              ltac:(vm_compute; reflexivity) ltac:(vm_compute; reflexivity)
              Hin ltac:(vm_compute; reflexivity) ltac:(vm_compute; reflexivity))
    as (_ & Hg & Hdrag & _ & _ & Hd).
  repeat split; assumption.
Defined.

Lemma C4_witness :
  let w := Sample.play (Sample.attach Sample.withHandle Sample.blank) [Microtask] in
  let pressed := Sample.deliver w (Mousedown [0;0;0;0]%nat 0 0 Sample.static) in
  let released :=
    Sample.deliver
      (Sample.play pressed (mousemoves [(10, 5, Sample.layout 0 0 100 100)]))
      Mouseup in
  userSelect (page released) = userSelect (page w) /\
  style_cursor released (body (document (page w))) =
    style_cursor w (body (document (page w))) /\
  style_cursor released (handle (config (closure w))) =
    style_cursor w (handle (config (closure w))).
Proof.
  cbv zeta.
  apply (C4_release_restores_default_styles
           Input (fun _ p => p)
           (Sample.play (Sample.attach Sample.withHandle Sample.blank) [Microtask])
           [0;0;0;0]%nat 0 0 Sample.static
           [(10, 5, Sample.layout 0 0 100 100)]).
  - vm_compute; reflexivity.
  - vm_compute; reflexivity.
  - vm_compute; reflexivity.
  - vm_compute; reflexivity.
  - intros _. split; vm_compute; reflexivity.
Defined.

(** C4 as stated fails.  On a page whose body has the text-selection
    style [text] and the cursor [wait], and whose handle was given the
    cursor [pointer] by the host after the mount, a press followed by a
    release leaves the body with neither and the handle with [grab]. *)
Lemma C4_counterexample :
  let before := Sample.play (Sample.attach Sample.free Sample.styled)
                  [Microtask; HostSetCursor [0;0]%nat "pointer"] in
  let after := Sample.play before
                 [Mousedown [0;0]%nat 0 0 Sample.static; Mouseup] in
  (userSelect (page before) = "text" /\ userSelect (page after) = "") /\
  (style_cursor before [0]%nat = "wait" /\ style_cursor after [0]%nat = "") /\
  (style_cursor before [0;0]%nat = "pointer" /\
   style_cursor after [0;0]%nat = "grab").
Proof. cbv zeta. repeat split; vm_compute; reflexivity. Qed.

(** * Further properties of the handlers *)

(** ** The cumulative clamp *)

Lemma clampTotal_total candidate last total bnd :
  0 < bnd ->
  total + (clampTotal candidate last total bnd - last) ==
  Qmax (- bnd) (Qmin bnd (total + (candidate - last))).
Proof.
  intros Hb. unfold clampTotal.
  destruct (Qlt_le_dec 0 bnd); [| lra].
  destruct (Q.min_spec bnd (total + (candidate - last))) as [[Hm Em] | [Hm Em]];
    rewrite Em;
    [destruct (Q.max_spec (- bnd) bnd) as [[HM EM] | [HM EM]]
    | destruct (Q.max_spec (- bnd) (total + (candidate - last)))
        as [[HM EM] | [HM EM]]];
    rewrite EM;
    destruct (Qlt_le_dec bnd (total + candidate - last));
    try destruct (Qlt_le_dec (total + candidate - last) (- bnd)); lra.
Qed.

(** ** What the lifecycle functions leave alone *)

Lemma same_session_refl w : same_session w w.
Proof. unfold same_session. repeat split; reflexivity. Qed.

Lemma same_session_trans w1 w2 w3 :
  same_session w1 w2 -> same_session w2 w3 -> same_session w1 w3.
Proof.
  unfold same_session.
  intros (A1 & A2 & A3 & A4 & A5 & A6 & A7 & A8 & A9 & A10)
         (B1 & B2 & B3 & B4 & B5 & B6 & B7 & B8 & B9 & B10).
  repeat split; congruence.
Qed.

Lemma only_cursors_same_session w w' :
  only_cursors_differ w w' -> same_session w w'.
Proof. intros ->. unfold same_session. repeat split; reflexivity. Qed.

Lemma removeListener_same_session e w :
  same_session w (removeEventListener_mousedown e w).
Proof. unfold same_session. repeat split; reflexivity. Qed.

Lemma install_same_session w : same_session w (install w).
Proof.
  unfold install. destruct (enabled _); [| apply same_session_refl].
  unfold addEventListener_mousedown. destruct (List.existsb _ _);
    unfold same_session; repeat split; reflexivity.
Qed.

Lemma destroy_same_session w : same_session w (destroy w).
Proof.
  unfold destroy.
  eapply same_session_trans; [apply removeListener_same_session |].
  apply only_cursors_same_session, removeCursor_only_cursors.
Qed.

Lemma end_closure w : closure (end_ w) = closure w.
Proof.
  unfold end_. cbn. destruct (cursor _); [| reflexivity].
  destruct (_ =? _)%string; reflexivity.
Qed.

Lemma end_offsets w :
  nodeLeft (page (end_ w)) = nodeLeft (page w) /\
  nodeTop (page (end_ w)) = nodeTop (page w).
Proof.
  unfold end_. cbn. destruct (cursor _); [| split; reflexivity].
  destruct (_ =? _)%string; split; reflexivity.
Qed.

Lemma onMouseDown_totals w target clientX clientY cs :
  ΣΔx (closure (onMouseDown w target clientX clientY cs)) = ΣΔx (closure w) /\
  ΣΔy (closure (onMouseDown w target clientX clientY cs)) = ΣΔy (closure w).
Proof.
  unfold onMouseDown. destruct (List.existsb _ _); [split; reflexivity |].
  cbn. destruct (is_positioned _), (cursor _); split; reflexivity.
Qed.

(** What a press that passes the guard remembers. *)
Lemma onMouseDown_reads w target clientX clientY cs :
  ignoredTarget w target = false ->
  let w' := onMouseDown w target clientX clientY cs in
  lastNodePosition (closure w') =
    mkPosition (inject_Z (cs_top cs)) (inject_Z (cs_left cs)) /\
  lastMousePosition (closure w') = mkPoint clientX clientY.
Proof.
  unfold ignoredTarget. intros Hg. cbv zeta. unfold onMouseDown. rewrite Hg.
  cbn. destruct (is_positioned _), (cursor _); split; reflexivity.
Qed.

Lemma onMouseDown_ignoredTarget w target clientX clientY cs t :
  ignoredTarget (onMouseDown w target clientX clientY cs) t = ignoredTarget w t.
Proof.
  unfold ignoredTarget, getIgnoredElements.
  destruct (onMouseDown_same_install w target clientX clientY cs) as [_ ->].
  rewrite onMouseDown_document. reflexivity.
Qed.

Lemma contains_refl a : contains a a = true.
Proof. induction a as [| x a IH]; cbn; [| rewrite Nat.eqb_refl]; auto. Qed.

Lemma fold_left_invariant {A B : Type} (f : A -> B -> A) (P : A -> Prop) l :
  (forall a b, P a -> P (f a b)) -> forall a, P a -> P (fold_left f l a).
Proof.
  intros Hf. induction l as [| b l IH]; intros a Ha; cbn; [exact Ha |].
  apply IH, Hf, Ha.
Qed.

Section Life.

Variable Params : Type.
Variable input : Elem -> Params -> Input.
Variable defaultParameters : Params.

Lemma update_same_session w p : same_session w (update input w p).
Proof.
  unfold update, update_assign, update_removeListener, update_removeCursor.
  eapply same_session_trans;
    [apply only_cursors_same_session, removeCursor_only_cursors |].
  eapply same_session_trans; [apply removeListener_same_session |].
  eapply same_session_trans; [| apply install_same_session].
  unfold same_session. repeat split; reflexivity.
Qed.

(** Every event that is not a pointer event keeps the session. *)
Lemma step_same_session w (ev : Event Params) :
  match ev with
  | Mousedown _ _ _ _ | Mousemove _ _ _ | Mouseup => True
  | _ => same_session w (step input w ev)
  end.
Proof.
  destruct ev; try exact I; cbn [step].
  - destruct (microtasks (page w)); [apply same_session_refl |].
    apply (same_session_trans _ (set_microtasks n w));
      [unfold same_session; repeat split; reflexivity |].
    apply only_cursors_same_session, addCursor_only_cursors.
  - apply update_same_session.
  - apply destroy_same_session.
  - destruct (v =? "")%string; unfold same_session; repeat split; reflexivity.
  - unfold same_session. repeat split; reflexivity.
  - unfold same_session. repeat split; reflexivity.
Qed.

Lemma run_invariant (P : World -> Prop) :
  (forall w (ev : Event Params), P w -> P (step input w ev)) ->
  forall evs w, P w -> P (run input w evs).
Proof.
  intros Hs evs. induction evs as [| ev evs IH]; intros w Hw; cbn; [exact Hw |].
  apply IH, Hs, Hw.
Qed.

(** X5.  Only a [mousemove] changes the running totals: presses,
    releases, updates of the parameters, the scheduled cursor callbacks,
    [destroy] and changes made by the host all keep them.  In particular
    the totals are carried from one drag to the next and are not reset
    when the limit or the boundary is changed by [update]. *)
Theorem X5_totals_change_only_on_moves evs : forall w,
  List.forallb (fun ev => negb (is_mousemove ev)) evs = true ->
  ΣΔx (closure (run input w evs)) = ΣΔx (closure w) /\
  ΣΔy (closure (run input w evs)) = ΣΔy (closure w).
Proof.
  induction evs as [| ev evs IH]; intros w Hnm; [split; reflexivity |].
  cbn [List.forallb] in Hnm. apply andb_prop in Hnm. destruct Hnm as [Hev Hnm].
  rewrite run_cons. destruct (IH (step input w ev) Hnm) as [-> ->].
  pose proof (step_same_session w ev) as Hs.
  destruct ev; try discriminate;
    try (destruct Hs as (_ & _ & _ & Hx & Hy & _); split; assumption).
  - cbn [step].
    apply (fold_left_invariant
             (fun w0 h => if contains h target
                          then onMouseDown w0 target clientX clientY computedStyles
                          else w0)
             (fun w0 => ΣΔx (closure w0) = ΣΔx (closure w) /\
                        ΣΔy (closure w0) = ΣΔy (closure w)));
      [| split; reflexivity].
    intros w0 h [Hx Hy]. destruct (contains h target); [| split; assumption].
    destruct (onMouseDown_totals w0 target clientX clientY computedStyles)
      as [-> ->].
    split; assumption.
  - cbn [step]. destruct (mouseupListener (page w)); [| split; reflexivity].
    rewrite end_closure. split; reflexivity.
Qed.

Lemma starts_ends_app w w' ev :
  dispatched (page w') = dispatched (page w) ++ [ev] ->
  starts w' = (starts w + (if is_movablestart ev then 1 else 0))%nat /\
  ends w' = (ends w + (if is_movableend ev then 1 else 0))%nat.
Proof.
  intros Hd. unfold starts, ends. rewrite Hd, !List.filter_app, !length_app.
  cbn. destruct ev; cbn; split; reflexivity.
Qed.

Lemma onMouseDown_session_ok w target clientX clientY cs :
  session_ok w -> session_ok (onMouseDown w target clientX clientY cs).
Proof.
  intros [Hp Hc]. destruct (ignoredTarget w target) eqn:Hg.
  - rewrite onMouseDown_ignored by exact Hg. split; assumption.
  - destruct (onMouseDown_starts w target clientX clientY cs Hg)
      as (Hd & Hmv & Hup & _ & _).
    cbv zeta in *. unfold session_ok. rewrite Hmv, Hup.
    destruct (starts_ends_app _ _ _ Hd) as [-> ->]. cbn.
    split; [reflexivity |].
    destruct (mouseupListener (page w)); lia.
Qed.

Lemma end_session_ok w :
  mouseupListener (page w) = true -> session_ok w -> session_ok (end_ w).
Proof.
  intros Hup [Hp Hc]. rewrite Hup in Hc.
  destruct (end_finishes w) as (Hd & Hmv & Hup' & _).
  unfold session_ok. rewrite Hmv, Hup'.
  destruct (starts_ends_app _ _ _ Hd) as [-> ->]. cbn.
  split; [reflexivity | lia].
Qed.

Lemma same_session_ok w w' : same_session w w' -> session_ok w -> session_ok w'.
Proof.
  intros (_ & _ & _ & _ & _ & Hmv & Hup & _ & _ & Hd).
  unfold session_ok, starts, ends. rewrite Hmv, Hup, Hd. trivial.
Qed.

Lemma step_session_ok w (ev : Event Params) :
  session_ok w -> session_ok (step input w ev).
Proof.
  intros Hok. pose proof (step_same_session w ev) as Hs.
  destruct ev; try (eapply same_session_ok; eassumption); cbn [step].
  - apply (fold_left_invariant
             (fun w0 h => if contains h target
                          then onMouseDown w0 target clientX clientY computedStyles
                          else w0) session_ok); [| exact Hok].
    intros w0 h Hw0. destruct (contains h target); [| exact Hw0].
    apply onMouseDown_session_ok. exact Hw0.
  - destruct (mousemoveListener (page w)); [| exact Hok].
    destruct (onMouseMove_quiet w clientX clientY lay) as (Hd & Hup & Hmv & _).
    cbv zeta in *. unfold session_ok, starts, ends. rewrite Hd, Hup, Hmv.
    exact Hok.
  - destruct (mouseupListener (page w)) eqn:Hup; [| exact Hok].
    apply end_session_ok; assumption.
Qed.

Lemma movable_session_ok n parameters pg :
  session_ok (movable input defaultParameters n parameters pg).
Proof.
  unfold movable. eapply same_session_ok; [apply install_same_session |].
  split; cbn; [reflexivity | lia].
Qed.

Lemma reachable_session_ok n parameters pg evs :
  session_ok (run input (movable input defaultParameters n parameters pg) evs).
Proof.
  apply (run_invariant session_ok); [apply step_session_ok |].
  apply movable_session_ok.
Qed.

(** X7.  In every world reached from [movable], [onMouseMove] and [end]
    are registered on [window] together or not at all; so while no drag
    is in progress a [mousemove] changes nothing. *)
Theorem X7_moves_are_processed_only_while_dragging
    n parameters pg evs clientX clientY lay :
  let w := run input (movable input defaultParameters n parameters pg) evs in
  mousemoveListener (page w) = mouseupListener (page w) /\
  (dragging w = false -> step input w (Mousemove clientX clientY lay) = w).
Proof.
  cbv zeta. destruct (reachable_session_ok n parameters pg evs) as [Hp _].
  split; [exact Hp |]. unfold dragging. intros Hup. cbn [step].
  rewrite Hp, Hup. reflexivity.
Qed.

(** X8.  In every world reached from [movable], whatever the events were,
    at most as many [movableend] as [movablestart] events have been
    dispatched, and strictly fewer while a drag is in progress: a
    [movableend] never comes without a [movablestart] before it. *)
Theorem X8_no_end_without_a_start n parameters pg evs :
  let w := run input (movable input defaultParameters n parameters pg) evs in
  (ends w <= starts w)%nat /\ (dragging w = true -> (ends w < starts w)%nat).
Proof.
  cbv zeta. destruct (reachable_session_ok n parameters pg evs) as [_ Hc].
  unfold dragging. destruct (mouseupListener (page _)).
  - split; [lia | intros _; lia].
  - split; [lia | discriminate].
Qed.

(** X9.  A press that arrives while a drag is already in progress (the
    release of the first one was never seen) starts over: it dispatches a
    second [movablestart] and reads the node position again; the one
    release that follows dispatches a single [movableend] and ends the
    drag.  So [movablestart] events can outnumber [movableend] events. *)
Theorem X9_press_during_a_drag_starts_over
    w t1 x1 y1 cs1 t2 x2 y2 cs2 :
  mousedownListeners (page w) = [handle (config (closure w))] ->
  contains (handle (config (closure w))) t1 = true ->
  contains (handle (config (closure w))) t2 = true ->
  ignoredTarget w t1 = false ->
  ignoredTarget w t2 = false ->
  let w1 := step input w (Mousedown t1 x1 y1 cs1) in
  let w2 := step input w1 (Mousedown t2 x2 y2 cs2) in
  let w3 := step input w2 Mouseup in
  dragging w1 = true /\
  dragging w3 = false /\
  dispatched (page w3) =
  dispatched (page w) ++
  [movablestart (node (closure w))
     (mkPosition (inject_Z (cs_top cs1)) (inject_Z (cs_left cs1)));
   movablestart (node (closure w))
     (mkPosition (inject_Z (cs_top cs2)) (inject_Z (cs_left cs2)));
   movableend (node (closure w))
     (mkPosition (inject_Z (cs_top cs2)) (inject_Z (cs_left cs2)))].
Proof.
  intros Hl Hc1 Hc2 Hg1 Hg2. cbv zeta.
  rewrite (step_mousedown_on_handle _ input w) by assumption.
  set (w1 := onMouseDown w t1 x1 y1 cs1).
  destruct (onMouseDown_starts w t1 x1 y1 cs1 Hg1) as (Hd1 & _ & Hup1 & _ & Hn1).
  destruct (onMouseDown_same_install w t1 x1 y1 cs1) as [Hl1 Hk1].
  cbv zeta in *. fold w1 in Hd1, Hup1, Hn1, Hl1, Hk1.
  assert (Hg2' : ignoredTarget w1 t2 = false)
    by (unfold w1; rewrite onMouseDown_ignoredTarget; exact Hg2).
  rewrite (step_mousedown_on_handle _ input w1)
    by (rewrite ?Hl1, ?Hk1; assumption).
  set (w2 := onMouseDown w1 t2 x2 y2 cs2).
  destruct (onMouseDown_starts w1 t2 x2 y2 cs2 Hg2') as (Hd2 & _ & Hup2 & _ & Hn2).
  destruct (onMouseDown_reads w1 t2 x2 y2 cs2 Hg2') as [Hr2 _].
  cbv zeta in *. fold w2 in Hd2, Hup2, Hn2, Hr2.
  unfold dragging. cbn [step]. rewrite Hup2.
  destruct (end_finishes w2) as (Hd3 & _ & Hup3 & _).
  split; [exact Hup1 |]. split; [exact Hup3 |].
  rewrite Hd3, Hd2, Hd1, Hn2, Hn1, Hr2, <- !app_assoc. reflexivity.
Qed.

(** X10.  Neither [update] nor [destroy] ends a drag in progress: they
    leave [onMouseMove] and [end] registered on [window], and the
    remembered positions and the totals as they are.  After either of them
    the drag goes on, and the release still dispatches [movableend]. *)
Theorem X10_update_and_destroy_leave_a_drag_running w p :
  dragging w = true ->
  let updated := update input w p in
  let destroyed := destroy w in
  let ended := [movableend (node (closure w)) (lastNodePosition (closure w))] in
  (same_session w updated /\
   dispatched (page (step input updated Mouseup)) = dispatched (page w) ++ ended)
  /\
  (same_session w destroyed /\
   dispatched (page (step input destroyed Mouseup)) = dispatched (page w) ++ ended).
Proof.
  unfold dragging. intros Hup. cbv zeta.
  assert (H : forall w', same_session w w' ->
            same_session w w' /\
            dispatched (page (step input w' Mouseup)) =
            dispatched (page w) ++
            [movableend (node (closure w)) (lastNodePosition (closure w))]).
  { intros w' Hs. split; [exact Hs |].
    destruct Hs as (Hn & _ & Hp & _ & _ & _ & Hup' & _ & _ & Hd).
    cbn [step]. rewrite Hup', Hup.
    destruct (end_finishes w') as (-> & _). rewrite Hd, Hn, Hp. reflexivity. }
  split; apply H; [apply update_same_session | apply destroy_same_session].
Qed.

(** X11.  After [destroy], in any world reached from [movable], no press
    does anything: the press listener is gone from the handle. *)
Theorem X11_no_press_after_destroy
    n parameters pg evs target clientX clientY cs :
  let w := step input
             (run input (movable input defaultParameters n parameters pg) evs)
             Destroy in
  mousedownListeners (page w) = [] /\
  step input w (Mousedown target clientX clientY cs) = w.
Proof.
  cbv zeta.
  assert (Hl : mousedownListeners
                 (page (step input
                          (run input
                             (movable input defaultParameters n parameters pg)
                             evs) Destroy)) = []).
  { cbn [step]. apply destroy_no_listener.
    apply run_installed_ok, installed_exact_ok, movable_installed_exact. }
  split; [exact Hl |]. apply step_mousedown_no_listener. exact Hl.
Qed.

(** X12.  In any world reached from [movable], a press whose target is
    neither the handle nor inside it changes nothing. *)
Theorem X12_press_outside_the_handle_is_a_no_op
    n parameters pg evs target clientX clientY cs :
  let w := run input (movable input defaultParameters n parameters pg) evs in
  contains (handle (config (closure w))) target = false ->
  step input w (Mousedown target clientX clientY cs) = w.
Proof.
  cbv zeta. intros Hc.
  assert (Hok : installed_ok
                  (run input (movable input defaultParameters n parameters pg)
                       evs))
    by apply run_installed_ok, installed_exact_ok, movable_installed_exact.
  destruct Hok as [Hl | [Hl _]]; cbn [step]; rewrite Hl; cbn.
  - reflexivity.
  - rewrite Hc. reflexivity.
Qed.

End Life.

(** ** The position reported at the end of a drag *)

Section Report.

Variable Params : Type.
Variable input : Elem -> Params -> Input.

Lemma run_mousemoves_written moves : forall w,
  nodeLeft (page w) = Some (left_of w) /\ nodeTop (page w) = Some (top_of w) ->
  let w' := run input w (mousemoves moves) in
  nodeLeft (page w') = Some (left_of w') /\ nodeTop (page w') = Some (top_of w').
Proof.
  induction moves as [| m moves IH]; intros w Hw; cbv zeta; [exact Hw |].
  unfold mousemoves. cbn [map]. rewrite run_cons.
  fold (@mousemoves Params moves). apply IH. cbn [step].
  destruct (mousemoveListener (page w)); [| exact Hw].
  destruct (onMouseMove_writes w (fst (fst m)) (snd (fst m)) (snd m))
    as (Hl & Ht & _). split; assumption.
Qed.

(** X14.  When a drag with at least one move ends, the position carried
    by [movableend] is the pair of offsets last written to the node's
    [left] and [top]. *)
Theorem X14_movableend_reports_the_written_offsets w m moves :
  mousemoveListener (page w) = true ->
  mouseupListener (page w) = true ->
  let released := step input (run input w (mousemoves (m :: moves))) Mouseup in
  dispatched (page released) =
  dispatched (page w) ++
  [movableend (node (closure w)) (lastNodePosition (closure released))] /\
  nodeLeft (page released) = Some (left_of released) /\
  nodeTop (page released) = Some (top_of released).
Proof.
  intros Hmv Hup. cbv zeta.
  set (moved := run input w (mousemoves (m :: moves))).
  destruct (run_mousemoves_quiet _ input (m :: moves) w) as (Hd & Hup' & Hn).
  cbv zeta in Hd, Hup', Hn. fold moved in Hd, Hup', Hn.
  assert (Hw : nodeLeft (page moved) = Some (left_of moved) /\
               nodeTop (page moved) = Some (top_of moved)).
  { unfold moved, mousemoves. cbn [map]. rewrite run_cons.
    fold (@mousemoves Params moves). apply run_mousemoves_written.
    cbn [step]. rewrite Hmv.
    destruct (onMouseMove_writes w (fst (fst m)) (snd (fst m)) (snd m))
      as (Hl & Ht & _). split; assumption. }
  cbn [step]. rewrite Hup', Hup.
  destruct (end_finishes moved) as (-> & _).
  destruct (end_offsets moved) as [-> ->].
  unfold left_of, top_of. rewrite end_closure, Hd, Hn.
  fold (left_of moved) (top_of moved). split; [reflexivity | exact Hw].
Qed.

End Report.

(** ** The cursor callbacks *)

(** X15.  [addCursor] and [removeCursor] are idempotent: running either a
    second time changes no cursor.  Several callbacks scheduled by
    [movable] and [update] and run in a row do what one of them does. *)
Theorem X15_cursor_steps_are_idempotent w e :
  style_cursor (addCursor (addCursor w)) e = style_cursor (addCursor w) e /\
  style_cursor (removeCursor (removeCursor w)) e = style_cursor (removeCursor w) e.
Proof.
  split.
  - rewrite (style_cursor_addCursor (addCursor w)).
    rewrite (only_cursors_differ_closure _ _ (addCursor_only_cursors w)).
    rewrite (only_cursors_differ_ignored _ _ (addCursor_only_cursors w)).
    rewrite style_cursor_addCursor.
    destruct (cursor (config (closure w))); [| reflexivity].
    destruct (isSameNode e (handle (config (closure w)))); [reflexivity |].
    destruct (List.existsb (isSameNode e) (getIgnoredElements w)); [| reflexivity].
    cbn [andb]. destruct (style_cursor w e =? "")%string eqn:He;
      [reflexivity |]. rewrite He. reflexivity.
  - rewrite (style_cursor_removeCursor (removeCursor w)).
    rewrite (only_cursors_differ_closure _ _ (removeCursor_only_cursors w)).
    rewrite (only_cursors_differ_ignored _ _ (removeCursor_only_cursors w)).
    rewrite style_cursor_removeCursor.
    destruct (cursor (config (closure w))); [| reflexivity]. cbn [andb].
    destruct (isSameNode e (handle (config (closure w))) &&
                (style_cursor w e =? "grab")%string
              || List.existsb (isSameNode e) (getIgnoredElements w) &&
                   (style_cursor w e =? "auto")%string) eqn:Hc.
    + rewrite !andb_false_r. reflexivity.
    + rewrite Hc. reflexivity.
Qed.

Section Callbacks.

Variable Params : Type.
Variable input : Elem -> Params -> Input.

Lemma install_effect w :
  config (closure (install w)) = config (closure w) /\
  microtasks (page (install w)) =
    (if enabled (config (closure w)) then S (microtasks (page w))
     else microtasks (page w)).
Proof.
  unfold install. destruct (enabled (config (closure w))); [| split; reflexivity].
  unfold addEventListener_mousedown.
  destruct (List.existsb _ _); split; reflexivity.
Qed.

(** A pending callback consults [cursor], not [enabled]. *)
Lemma callback_dresses_the_handle w :
  (0 < microtasks (page w))%nat ->
  cursor (config (closure w)) = true ->
  let mounted := step input w Microtask in
  style_cursor mounted (handle (config (closure w))) = "grab" /\
  forall e, In e (getIgnoredElements w) ->
    style_cursor mounted e =
    (if (style_cursor w e =? "")%string then "auto" else style_cursor w e).
Proof.
  intros Hm Hcur. cbv zeta. cbn [step].
  destruct (microtasks (page w)) as [| m]; [lia |].
  assert (Hadd : forall e,
            style_cursor (addCursor (set_microtasks m w)) e =
            if isSameNode e (handle (config (closure w))) then "grab"
            else if List.existsb (isSameNode e) (getIgnoredElements w)
                      && (style_cursor w e =? "")%string
                 then "auto" else style_cursor w e).
  { intros e. rewrite style_cursor_addCursor.
    change (cursor (config (closure (set_microtasks m w))))
      with (cursor (config (closure w))).
    rewrite Hcur. reflexivity. }
  split.
  - rewrite Hadd, isSameNode_refl. reflexivity.
  - intros e Hin. rewrite Hadd.
    assert (Hhe : isSameNode e (handle (config (closure w))) = false).
    { apply isSameNode_false. intros ->.
      apply In_getIgnoredElements in Hin. destruct Hin as (_ & _ & Hd & _).
      unfold descendant_of in Hd.
      rewrite isSameNode_refl, andb_false_r in Hd. discriminate. }
    rewrite Hhe. apply existsb_isSameNode in Hin. rewrite Hin. reflexivity.
Qed.

(** X17.  [movable] starts idle, with nothing dispatched, and when the
    parameters are enabled with exactly one cursor callback pending; once
    it has run and the parameters ask for cursors the handle has the
    cursor [grab].  When the parameters are not enabled nothing is
    registered or scheduled, and a press does nothing. *)
Theorem X17_movable_mounts_the_handle
    defaultParameters n parameters pg target clientX clientY cs :
  let w := movable input defaultParameters n parameters pg in
  dragging w = false /\ dispatched (page w) = [] /\
  (enabled (config (closure w)) = true ->
   cursor (config (closure w)) = true ->
   microtasks (page w) = 1%nat /\
   style_cursor (step input w Microtask) (handle (config (closure w))) = "grab")
  /\
  (enabled (config (closure w)) = false ->
   microtasks (page w) = 0%nat /\
   step input w (Mousedown target clientX clientY cs) = w).
Proof.
  cbv zeta. unfold movable.
  set (w0 := mkWorld _ (fresh pg)).
  destruct (install_same_session w0) as (_ & _ & _ & _ & _ & _ & Hup & _ & _ & Hd).
  destruct (install_effect w0) as [Hcfg Hmt].
  unfold dragging. rewrite Hup, Hd.
  split; [reflexivity |]. split; [reflexivity |].
  rewrite Hcfg. split.
  - intros Hen Hcur.
    assert (Hm1 : microtasks (page (install w0)) = 1%nat)
      by (rewrite Hmt, Hen; reflexivity).
    split; [exact Hm1 |].
    rewrite <- Hcfg. apply callback_dresses_the_handle.
    + rewrite Hm1. lia.
    + rewrite Hcfg. exact Hcur.
  - intros Hen. split; [rewrite Hmt, Hen; reflexivity |].
    apply step_mousedown_no_listener.
    unfold install. rewrite Hen. reflexivity.
Qed.

End Callbacks.

(** ** The further properties on the sample page *)

Lemma X5_witness :
  let lay := Sample.layout 0 0 100 100 in
  let w := Sample.play (Sample.attach (Sample.limited 50 30) Sample.blank)
             [Mousedown [0;0]%nat 0 0 Sample.static; Mousemove 80 (-10) lay] in
  let evs := [Mouseup; Update (Sample.inside screen 0); Microtask;
              Mousedown [0;0]%nat 5 5 Sample.static; Mouseup; Destroy] in
  ΣΔx (closure (Sample.play w evs)) = ΣΔx (closure w) /\
  ΣΔy (closure (Sample.play w evs)) = ΣΔy (closure w).
Proof.
  cbv zeta.
  apply (X5_totals_change_only_on_moves Input (fun _ p => p)
           [Mouseup; Update (Sample.inside screen 0); Microtask;
            Mousedown [0;0]%nat 5 5 Sample.static; Mouseup; Destroy]).
  vm_compute; reflexivity.
Defined.

Lemma X7_witness :
  let w := Sample.play (Sample.attach Sample.free Sample.blank)
             [Microtask; Mousedown [0;0]%nat 0 0 Sample.static; Mouseup] in
  Sample.deliver w (Mousemove 30 40 (Sample.layout 0 0 100 100)) = w.
Proof.
  cbv zeta.
  apply (proj2 (X7_moves_are_processed_only_while_dragging
                  Input (fun _ p => p) Sample.free [0;0]%nat
                  (Some Sample.free) Sample.blank
                  [Microtask; Mousedown [0;0]%nat 0 0 Sample.static; Mouseup]
                  30 40 (Sample.layout 0 0 100 100))).
  vm_compute; reflexivity.
Defined.

Lemma X8_witness :
  let w := Sample.play (Sample.attach Sample.free Sample.blank)
             [Mousedown [0;0]%nat 0 0 Sample.static;
              Mousedown [0;0]%nat 1 1 Sample.static] in
  (ends w < starts w)%nat.
Proof.
  cbv zeta.
  apply (proj2 (X8_no_end_without_a_start
                  Input (fun _ p => p) Sample.free [0;0]%nat
                  (Some Sample.free) Sample.blank
                  [Mousedown [0;0]%nat 0 0 Sample.static;
                   Mousedown [0;0]%nat 1 1 Sample.static])).
  vm_compute; reflexivity.
Defined.

Lemma X9_witness :
  let w := Sample.play (Sample.attach Sample.withHandle Sample.blank) [Microtask] in
  let w1 := Sample.deliver w (Mousedown [0;0;0]%nat 0 0 Sample.static) in
  let w2 := Sample.deliver w1
              (Mousedown [0;0;0;0]%nat 9 9 (mkComputed 4 6 "relative")) in
  let w3 := Sample.deliver w2 Mouseup in
  dragging w1 = true /\ dragging w3 = false /\
  dispatched (page w3) =
  dispatched (page w) ++
  [movablestart (node (closure w)) (mkPosition 0 0);
   movablestart (node (closure w)) (mkPosition (inject_Z 6) (inject_Z 4));
   movableend (node (closure w)) (mkPosition (inject_Z 6) (inject_Z 4))].
Proof.
  cbv zeta.
  apply (X9_press_during_a_drag_starts_over Input (fun _ p => p)
           (Sample.play (Sample.attach Sample.withHandle Sample.blank)
                        [Microtask])
           [0;0;0]%nat 0 0 Sample.static
           [0;0;0;0]%nat 9 9 (mkComputed 4 6 "relative"));
    vm_compute; reflexivity.
Defined.

Lemma X10_witness :
  let w := Sample.grabbed Sample.free 7 3 in
  let ended := [movableend (node (closure w)) (lastNodePosition (closure w))] in
  dispatched (page (Sample.deliver (update (fun _ p => p) w Sample.disabled)
                                   Mouseup)) =
  dispatched (page w) ++ ended /\
  dispatched (page (Sample.deliver (destroy w) Mouseup)) =
  dispatched (page w) ++ ended.
Proof.
  cbv zeta.
  destruct (X10_update_and_destroy_leave_a_drag_running
              Input (fun _ p => p) (Sample.grabbed Sample.free 7 3)
              Sample.disabled ltac:(vm_compute; reflexivity))
    as [[_ Hu] [_ Hd]].
  split; [exact Hu | exact Hd].
Defined.

Lemma X12_witness :
  let w := Sample.play (Sample.attach Sample.withHandle Sample.blank) [Microtask] in
  Sample.deliver w (Mousedown [0;0]%nat 0 0 Sample.static) = w.
Proof.
  cbv zeta.
  apply (X12_press_outside_the_handle_is_a_no_op
           Input (fun _ p => p) Sample.free [0;0]%nat
           (Some Sample.withHandle) Sample.blank [Microtask]
           [0;0]%nat 0 0 Sample.static).
  vm_compute; reflexivity.
Defined.

Lemma X14_witness :
  let lay := Sample.layout 0 0 100 100 in
  let w := Sample.grabbed (Sample.limited 50 0) 7 3 in
  let released :=
    Sample.deliver (Sample.play w (mousemoves [(80, 5, lay); (70, 9, lay)]))
                   Mouseup in
  dispatched (page released) =
  dispatched (page w) ++
  [movableend (node (closure w)) (lastNodePosition (closure released))] /\
  nodeLeft (page released) = Some (left_of released) /\
  nodeTop (page released) = Some (top_of released).
Proof.
  cbv zeta.
  apply (X14_movableend_reports_the_written_offsets Input (fun _ p => p)
           (Sample.grabbed (Sample.limited 50 0) 7 3)
           (80, 5, Sample.layout 0 0 100 100)
           [(70, 9, Sample.layout 0 0 100 100)]);
    vm_compute; reflexivity.
Defined.

Lemma X17_witness :
  let w := Sample.attach Sample.withHandle Sample.blank in
  let off := Sample.attach Sample.disabled Sample.blank in
  (microtasks (page w) = 1%nat /\
   style_cursor (Sample.deliver w Microtask) (handle (config (closure w))) =
   "grab") /\
  (microtasks (page off) = 0%nat /\
   Sample.deliver off (Mousedown [0;0;0]%nat 0 0 Sample.static) = off).
Proof.
  cbv zeta. split.
  - apply (X17_movable_mounts_the_handle Input (fun _ p => p) Sample.free
             [0;0]%nat (Some Sample.withHandle) Sample.blank
             [0;0;0]%nat 0 0 Sample.static); vm_compute; reflexivity.
  - apply (X17_movable_mounts_the_handle Input (fun _ p => p) Sample.free
             [0;0]%nat (Some Sample.disabled) Sample.blank
             [0;0;0]%nat 0 0 Sample.static); vm_compute; reflexivity.
Defined.


(** * The program in double precision *)

(** ** Rounding to binary64 *)

Lemma round64_comp x y : x == y -> round64 x = round64 y.
Proof. intros H. unfold round64. rewrite (Qred_complete _ _ H). reflexivity. Qed.

Lemma rne_Z x k : x == inject_Z k -> rne x = k.
Proof.
  intros H. unfold rne. cbv zeta.
  rewrite (Qfloor_comp _ _ H), Qfloor_Z.
  assert (E : x - inject_Z k == 0) by (rewrite H; ring).
  rewrite (Qcompare_comp _ _ E (1 # 2) (1 # 2) (Qeq_refl _)). reflexivity.
Qed.

Lemma two_pow_pos e : 0 < 2 ^ e.
Proof. apply Qpower_0_lt. reflexivity. Qed.

Lemma Qlog2_lower a : 0 < a -> 2 ^ Qlog2 a <= a.
Proof.
  intros Ha. unfold Qlog2.
  destruct (Qle_bool _ _) eqn:Ht; [apply Qle_bool_iff; exact Ht |].
  destruct a as [n d]. cbn [Qnum Qden].
  assert (Hn : (0 < n)%Z).
  { unfold Qlt in Ha. cbn in Ha. lia. }
  destruct (Z.log2_spec n Hn) as [Hn1 _].
  destruct (Z.log2_spec (Zpos d) (Pos2Z.is_pos d)) as [_ Hd2].
  set (ln := Z.log2 n) in *. set (ld := Z.log2 (Zpos d)) in *.
  assert (Hln : (0 <= ln)%Z) by apply Z.log2_nonneg.
  assert (Hld : (0 <= ld)%Z) by apply Z.log2_nonneg.
  replace (ln - ld - 1)%Z with (ln - (ld + 1))%Z by ring.
  rewrite Qpower_minus by discriminate.
  rewrite <- (Zpower_Qpower 2 ln Hln), <- (Zpower_Qpower 2 (ld + 1)) by lia.
  assert (Hp : (0 < 2 ^ (Z.succ ld))%Z) by (apply Z.pow_pos_nonneg; lia).
  replace (ld + 1)%Z with (Z.succ ld) by ring.
  apply Qle_shift_div_r.
  - change 0 with (inject_Z 0). rewrite <- Zlt_Qlt. exact Hp.
  - assert (H1 : (2 ^ ln * Zpos d <= n * 2 ^ Z.succ ld)%Z).
    { apply Z.mul_le_mono_nonneg; lia. }
    unfold Qle, Qmult, inject_Z. simpl Qnum. simpl Qden.
    rewrite !Z.mul_1_r, Pos.mul_1_r. exact H1.
Qed.

Lemma Qabs_inject_Z c : Qabs (inject_Z c) = inject_Z (Z.abs c).
Proof. reflexivity. Qed.

Lemma round64_exact (c e : Z) :
  (Z.abs c < 2 ^ 53)%Z -> (-1074 <= e)%Z ->
  round64 (inject_Z c * 2 ^ e) == inject_Z c * 2 ^ e.
Proof.
  intros Hc He. unfold round64.
  set (x := inject_Z c * 2 ^ e).
  pose proof (Qred_correct x) as Hq.
  destruct (Qeq_bool (Qred x) 0) eqn:Hz.
  - apply Qeq_bool_iff in Hz. rewrite <- Hq. symmetry. exact Hz.
  - assert (Hx0 : ~ x == 0).
    { intros H0. rewrite <- Hq in H0. apply Qeq_bool_iff in H0. congruence. }
    assert (Hc0 : c <> 0%Z).
    { intros ->. apply Hx0. unfold x. ring. }
    set (a := Qabs (Qred x)).
    assert (Ha : a == inject_Z (Z.abs c) * 2 ^ e).
    { unfold a. rewrite Hq. unfold x. rewrite Qabs_Qmult.
      rewrite (Qabs_pos (2 ^ e)) by (apply Qlt_le_weak, two_pow_pos).
      rewrite Qabs_inject_Z. reflexivity. }
    assert (Hapos : 0 < a).
    { rewrite Ha. apply Qmult_lt_0_compat; [| apply two_pow_pos].
      change 0 with (inject_Z 0). rewrite <- Zlt_Qlt. lia. }
    pose proof (Qlog2_lower a Hapos) as HL.
    assert (Hup : a < 2 ^ (53 + e)).
    { rewrite Ha, Qpower_plus by discriminate.
      apply Qmult_lt_compat_r; [apply two_pow_pos |].
      rewrite <- (Zpower_Qpower 2 53) by lia. rewrite <- Zlt_Qlt. exact Hc. }
    assert (HLe : (Qlog2 a < 53 + e)%Z).
    { apply (Qpower_lt_compat_l_inv 2); [| reflexivity].
      eapply Qle_lt_trans; eassumption. }
    set (E := Z.max (Qlog2 a - 52) (-1074)).
    assert (HE : (E <= e)%Z) by (unfold E; lia).
    assert (Hk : Qred x / 2 ^ E == inject_Z (c * 2 ^ (e - E))).
    { rewrite Hq. unfold x. rewrite inject_Z_mult, Zpower_Qpower by lia.
      rewrite Qpower_minus by discriminate.
      change (inject_Z 2) with 2. field.
      apply Qnot_eq_sym, Qlt_not_eq, two_pow_pos. }
    rewrite (rne_Z _ _ Hk).
    rewrite inject_Z_mult, Zpower_Qpower by lia.
    rewrite Qpower_minus by discriminate.
    change (inject_Z 2) with 2. unfold x. field.
    apply Qnot_eq_sym, Qlt_not_eq, two_pow_pos.
Qed.

Lemma round64_comp_eq x y : x == y -> round64 x == round64 y.
Proof. intros H. rewrite (round64_comp _ _ H). reflexivity. Qed.

Lemma round64_on_grid_step (k : nat) (c : Z) :
  (k <= 1074)%nat -> (Z.abs c < 2 ^ 53)%Z ->
  round64 (inject_Z c * grid_step k) == inject_Z c * grid_step k.
Proof. intros Hk Hc. apply round64_exact; [exact Hc | lia]. Qed.

Lemma grid_step_pos k : 0 < grid_step k.
Proof. apply two_pow_pos. Qed.

Lemma on_grid_steps k x : on_grid k x = true -> steps (grid_step k) safe x.
Proof.
  unfold on_grid. cbv zeta. intros H. apply andb_prop in H. destruct H as [He Hc].
  apply Qeq_bool_iff in He. apply Z.leb_le in Hc.
  exists (Qfloor (x / grid_step k)). split; assumption.
Qed.

(** [round64] against the binary64 arithmetic of the kernel: on the
    margin of 20 percent of 101 px and the offset a move by 100 is clamped
    to, on the right edge a node 62 wide is pulled to in a viewport of 500
    with a margin of 10 percent, and on a few numbers that are not
    doubles. *)
Example round64_is_the_arithmetic_of_doubles :
  same_number (20 * 101 / 100)%float (round64 (round64 (20 * 101) / 100)) = true /\
  same_number (100 - (100 - 20 * 101 / 100))%float
    (round64 (100 - round64 (100 - round64 (round64 (20 * 101) / 100)))) = true /\
  same_number (200 - (362 + 200 - 10 * 62 / 100 - 500))%float
    (round64 (200 - round64 (round64 (round64 (362 + 200)
                                      - round64 (round64 (10 * 62) / 100))
                             - 500))) = true /\
  same_number (1 / 10 + 2 / 10)%float
    (round64 (round64 (1 # 10) + round64 (2 # 10))) = true /\
  same_number (1 / 3)%float (round64 (1 # 3)) = true /\
  same_number (- (7 / 1000))%float (round64 (- (7 # 1000))) = true.
Proof. repeat split; vm_compute; reflexivity. Qed.

(** ** Operations that do not round *)

Ltac safe_lt := vm_compute; reflexivity.
Ltac safe_le := vm_compute; discriminate.

Section Exactness.

Variable rnd : Q -> Q.
Variable u : Q.
Hypothesis rnd_comp : forall x y, x == y -> rnd x == rnd y.
Hypothesis rnd_exact :
  forall c : Z, (Z.abs c < 2 ^ 53)%Z -> rnd (inject_Z c * u) == inject_Z c * u.

Lemma steps_comp M x y : x == y -> steps u M x -> steps u M y.
Proof. intros E (c & Hc & Hx). exists c. split; [exact Hc | rewrite <- E; exact Hx]. Qed.

Lemma steps_weaken M N x : (M <= N)%Z -> steps u M x -> steps u N x.
Proof. intros HMN (c & Hc & Hx). exists c. split; [lia | exact Hx]. Qed.

Lemma steps_zero M : (0 <= M)%Z -> steps u M 0.
Proof. intros HM. exists 0%Z. split; [cbn; lia | ring]. Qed.

Lemma steps_radd M N a b :
  steps u M a -> steps u N b -> (M + N < 2 ^ 53)%Z ->
  radd rnd a b == a + b /\ steps u (M + N) (radd rnd a b).
Proof.
  intros (ca & Ha & Ea) (cb & Hb & Eb) HMN.
  assert (E : a + b == inject_Z (ca + cb) * u).
  { rewrite inject_Z_plus, Ea, Eb. ring. }
  assert (Hc : (Z.abs (ca + cb) <= M + N)%Z) by lia.
  assert (R : radd rnd a b == a + b).
  { unfold radd. rewrite (rnd_comp _ _ E), E. apply rnd_exact. lia. }
  split; [exact R |]. exists (ca + cb)%Z. split; [exact Hc |].
  rewrite R. exact E.
Qed.

Lemma steps_rsub M N a b :
  steps u M a -> steps u N b -> (M + N < 2 ^ 53)%Z ->
  rsub rnd a b == a - b /\ steps u (M + N) (rsub rnd a b).
Proof.
  intros (ca & Ha & Ea) (cb & Hb & Eb) HMN.
  assert (E : a - b == inject_Z (ca - cb) * u).
  { unfold Zminus. rewrite inject_Z_plus, inject_Z_opp, Ea, Eb. ring. }
  assert (Hc : (Z.abs (ca - cb) <= M + N)%Z) by lia.
  assert (R : rsub rnd a b == a - b).
  { unfold rsub. rewrite (rnd_comp _ _ E), E. apply rnd_exact. lia. }
  split; [exact R |]. exists (ca - cb)%Z. split; [exact Hc |].
  rewrite R. exact E.
Qed.

(** One axis of the [else] branch of [onMouseMove], from the pointer
    positions on: on the grid it computes what the exact clamp computes. *)
Lemma free_axis_exact x px last total bnd :
  steps u safe x -> steps u safe px -> steps u safe last ->
  steps u safe total -> steps u safe bnd ->
  let exact := clampTotal (last + (x - px)) last total bnd in
  let res := clampTotalR rnd (radd rnd last (rsub rnd x px)) last total bnd in
  res == exact /\
  radd rnd total (rsub rnd res last) == total + (exact - last) /\
  steps u (16 * safe) res.
Proof.
  intros Gx Gp Gl Gt Gb. cbv zeta.
  destruct (steps_rsub _ _ x px Gx Gp ltac:(safe_lt)) as [E1 G1].
  set (Δ := rsub rnd x px) in *.
  destruct (steps_radd _ _ last Δ Gl G1 ltac:(safe_lt)) as [E2 G2].
  set (cand := radd rnd last Δ) in *.
  destruct (steps_radd _ _ total cand Gt G2 ltac:(safe_lt)) as [E3 G3].
  set (t1 := radd rnd total cand) in *.
  destruct (steps_rsub _ _ t1 last G3 Gl ltac:(safe_lt)) as [E4 G4].
  set (newTotal := rsub rnd t1 last) in *.
  destruct (steps_rsub _ _ newTotal bnd G4 Gb ltac:(safe_lt)) as [E5 G5].
  set (over := rsub rnd newTotal bnd) in *.
  destruct (steps_rsub _ _ cand over G2 G5 ltac:(safe_lt)) as [E6 G6].
  destruct (steps_radd _ _ newTotal bnd G4 Gb ltac:(safe_lt)) as [E7 G7].
  set (under := radd rnd newTotal bnd) in *.
  destruct (steps_rsub _ _ cand under G2 G7 ltac:(safe_lt)) as [E8 G8].
  set (res := clampTotalR rnd cand last total bnd).
  assert (Gres : steps u (9 * safe) res).
  { unfold res, clampTotalR. fold t1. fold newTotal. fold over. fold under.
    destruct (Qlt_le_dec 0 bnd);
      [destruct (Qlt_le_dec bnd newTotal);
         [| destruct (Qlt_le_dec newTotal (- bnd))] |];
      first [ eapply steps_weaken; [| exact G6]; safe_le
            | eapply steps_weaken; [| exact G8]; safe_le
            | eapply steps_weaken; [| exact G2]; safe_le ]. }
  assert (Hres : res == clampTotal (last + (x - px)) last total bnd).
  { unfold res, clampTotalR, clampTotal. fold t1. fold newTotal. fold over.
    fold under.
    destruct (Qlt_le_dec 0 bnd); [| lra].
    destruct (Qlt_le_dec bnd newTotal);
      destruct (Qlt_le_dec bnd (total + (last + (x - px)) - last)); try lra;
      destruct (Qlt_le_dec newTotal (- bnd));
      destruct (Qlt_le_dec (total + (last + (x - px)) - last) (- bnd)); lra. }
  destruct (steps_rsub _ _ res last Gres Gl ltac:(safe_lt)) as [E9 G9].
  destruct (steps_radd _ _ total (rsub rnd res last) Gt G9 ltac:(safe_lt))
    as [E10 _].
  split; [exact Hres |]. split; [lra |].
  eapply steps_weaken; [| exact Gres]. safe_le.
Qed.

(** One axis of the [if (parent)] branch, from the pointer positions and
    the origin and size of the node's box on.  [lo] and [hi] are the edges
    the program compares with, [hi'] the exact far edge. *)
Lemma inside_axis_exact x px last total near size bnd lo hi hi' :
  steps u safe x -> steps u safe px -> steps u safe last ->
  steps u safe total -> steps u safe near -> steps u safe size ->
  steps u safe bnd -> steps u safe lo -> steps u (2 * safe) hi -> hi == hi' ->
  let exact := clampInside (last + (x - px)) near (near + size) (x - px)
                           bnd lo hi' in
  let res := clampInsideR rnd (radd rnd last (rsub rnd x px)) near
                          (radd rnd near size) (rsub rnd x px) bnd lo hi in
  res == exact /\
  radd rnd total (rsub rnd res last) == total + (exact - last) /\
  steps u (16 * safe) res.
Proof.
  intros Gx Gp Gl Gt Gn Gs Gb Glo Ghi Ehi. cbv zeta.
  destruct (steps_rsub _ _ x px Gx Gp ltac:(safe_lt)) as [E1 G1].
  set (Δ := rsub rnd x px) in *.
  destruct (steps_radd _ _ last Δ Gl G1 ltac:(safe_lt)) as [E2 G2].
  set (cand := radd rnd last Δ) in *.
  destruct (steps_radd _ _ near size Gn Gs ltac:(safe_lt)) as [E3 G3].
  set (far := radd rnd near size) in *.
  destruct (steps_radd _ _ near Δ Gn G1 ltac:(safe_lt)) as [E4 G4].
  set (n1 := radd rnd near Δ) in *.
  destruct (steps_radd _ _ n1 bnd G4 Gb ltac:(safe_lt)) as [E5 G5].
  set (newAbsNear := radd rnd n1 bnd) in *.
  destruct (steps_rsub _ _ lo newAbsNear Glo G5 ltac:(safe_lt)) as [E6 G6].
  set (push := rsub rnd lo newAbsNear) in *.
  destruct (steps_radd _ _ cand push G2 G6 ltac:(safe_lt)) as [E7 G7].
  destruct (steps_radd _ _ far Δ G3 G1 ltac:(safe_lt)) as [E8 G8].
  set (f1 := radd rnd far Δ) in *.
  destruct (steps_rsub _ _ f1 bnd G8 Gb ltac:(safe_lt)) as [E9 G9].
  set (newAbsFar := rsub rnd f1 bnd) in *.
  destruct (steps_rsub _ _ newAbsFar hi G9 Ghi ltac:(safe_lt)) as [E10 G10].
  set (pull := rsub rnd newAbsFar hi) in *.
  destruct (steps_rsub _ _ cand pull G2 G10 ltac:(safe_lt)) as [E11 G11].
  set (res := clampInsideR rnd cand near far Δ bnd lo hi).
  assert (Gres : steps u (11 * safe) res).
  { unfold res, clampInsideR. fold n1. fold newAbsNear. fold push. fold f1.
    fold newAbsFar. fold pull.
    destruct (Qlt_le_dec newAbsNear lo);
      [| destruct (Qlt_le_dec hi newAbsFar)];
      first [ eapply steps_weaken; [| exact G7]; safe_le
            | eapply steps_weaken; [| exact G11]; safe_le
            | eapply steps_weaken; [| exact G2]; safe_le ]. }
  assert (Hres : res == clampInside (last + (x - px)) near (near + size)
                                    (x - px) bnd lo hi').
  { unfold res, clampInsideR, clampInside. fold n1. fold newAbsNear.
    fold push. fold f1. fold newAbsFar. fold pull.
    destruct (Qlt_le_dec newAbsNear lo);
      destruct (Qlt_le_dec (near + (x - px) + bnd) lo); try lra;
      destruct (Qlt_le_dec hi newAbsFar);
      destruct (Qlt_le_dec hi' (near + size + (x - px) - bnd)); lra. }
  destruct (steps_rsub _ _ res last Gres Gl ltac:(safe_lt)) as [E12 G12].
  destruct (steps_radd _ _ total (rsub rnd res last) Gt G12 ltac:(safe_lt))
    as [E13 _].
  split; [exact Hres |]. split; [lra |].
  eapply steps_weaken; [| exact Gres]. safe_le.
Qed.

End Exactness.


(** ** The move handler in double precision *)

Lemma onMouseMoveR_identity w clientX clientY lay :
  onMouseMoveR (fun q => q) w clientX clientY lay = onMouseMove w clientX clientY lay.
Proof. reflexivity. Qed.

Lemma left_of_onMouseMoveR_free rnd w clientX clientY lay :
  parent (config (closure w)) = None ->
  left_of (onMouseMoveR rnd w clientX clientY lay) =
  clampTotalR rnd
    (radd rnd (left_of w)
          (rsub rnd clientX (pt_x (lastMousePosition (closure w)))))
    (left_of w) (ΣΔx (closure w)) (boundX_ofR rnd w lay).
Proof.
  intros Hp. unfold left_of, onMouseMoveR. cbn. rewrite Hp. reflexivity.
Qed.

Lemma top_of_onMouseMoveR_free rnd w clientX clientY lay :
  parent (config (closure w)) = None ->
  top_of (onMouseMoveR rnd w clientX clientY lay) =
  clampTotalR rnd
    (radd rnd (top_of w)
          (rsub rnd clientY (pt_y (lastMousePosition (closure w)))))
    (top_of w) (ΣΔy (closure w)) (boundY_ofR rnd w lay).
Proof.
  intros Hp. unfold top_of, onMouseMoveR. cbn. rewrite Hp. reflexivity.
Qed.

Lemma left_of_onMouseMoveR_inside rnd w clientX clientY lay p :
  parent (config (closure w)) = Some p ->
  left_of (onMouseMoveR rnd w clientX clientY lay) =
  let r := nodeBoundingRect_of w lay in
  let R := insideBoundingRectR rnd p lay in
  clampInsideR rnd
    (radd rnd (left_of w)
          (rsub rnd clientX (pt_x (lastMousePosition (closure w)))))
    (r_x r) (radd rnd (r_x r) (r_width r))
    (rsub rnd clientX (pt_x (lastMousePosition (closure w))))
    (boundX_ofR rnd w lay) (b_left R) (b_right R).
Proof.
  intros Hp. unfold left_of, onMouseMoveR. cbn. rewrite Hp. reflexivity.
Qed.

Lemma top_of_onMouseMoveR_inside rnd w clientX clientY lay p :
  parent (config (closure w)) = Some p ->
  top_of (onMouseMoveR rnd w clientX clientY lay) =
  let r := nodeBoundingRect_of w lay in
  let R := insideBoundingRectR rnd p lay in
  clampInsideR rnd
    (radd rnd (top_of w)
          (rsub rnd clientY (pt_y (lastMousePosition (closure w)))))
    (r_y r) (radd rnd (r_y r) (r_height r))
    (rsub rnd clientY (pt_y (lastMousePosition (closure w))))
    (boundY_ofR rnd w lay) (b_top R) (b_bottom R).
Proof.
  intros Hp. unfold top_of, onMouseMoveR. cbn. rewrite Hp. reflexivity.
Qed.

(** In either mode the move writes the offsets it remembers, remembers the
    pointer, and adds the rounded displacement to the totals. *)
Lemma onMouseMoveR_writes rnd w clientX clientY lay :
  let w' := onMouseMoveR rnd w clientX clientY lay in
  nodeLeft (page w') = Some (left_of w') /\
  nodeTop (page w') = Some (top_of w') /\
  ΣΔx (closure w') = radd rnd (ΣΔx (closure w)) (rsub rnd (left_of w') (left_of w)) /\
  ΣΔy (closure w') = radd rnd (ΣΔy (closure w)) (rsub rnd (top_of w') (top_of w)) /\
  lastMousePosition (closure w') = mkPoint clientX clientY /\
  config (closure w') = config (closure w) /\
  node (closure w') = node (closure w).
Proof.
  unfold onMouseMoveR, left_of, top_of. cbn.
  destruct (parent (config (closure w))); cbn; repeat split; reflexivity.
Qed.

(** The hypotheses of a move on the grid, one by one. *)
Lemma move_on_grid_steps k w clientX clientY lay :
  move_on_grid k w clientX clientY lay = true ->
  let G := steps (grid_step k) safe in
  G clientX /\ G clientY /\
  G (pt_x (lastMousePosition (closure w))) /\
  G (pt_y (lastMousePosition (closure w))) /\
  G (top_of w) /\ G (left_of w) /\
  G (ΣΔx (closure w)) /\ G (ΣΔy (closure w)) /\
  G (boundX_ofR round64 w lay) /\ G (boundY_ofR round64 w lay).
Proof.
  unfold move_on_grid. intros H. cbv zeta.
  do 9 (apply andb_prop in H; destruct H as [H ?]).
  repeat split; apply on_grid_steps; assumption.
Qed.

Lemma rect_on_grid_steps k r :
  rect_on_grid k r = true ->
  let G := steps (grid_step k) safe in
  G (r_x r) /\ G (r_y r) /\ G (r_width r) /\ G (r_height r).
Proof.
  unfold rect_on_grid. intros H. cbv zeta.
  do 3 (apply andb_prop in H; destruct H as [H ?]).
  repeat split; apply on_grid_steps; assumption.
Qed.

(** The region the program compares with is the exact region, and its
    edges are a few steps of the grid. *)
Lemma region_on_grid k p w lay :
  (k <= 1074)%nat ->
  boxes_on_grid k p w lay = true ->
  let R := insideBoundingRectR round64 p lay in
  let R' := insideBoundingRect p lay in
  let G := steps (grid_step k) in
  b_top R = b_top R' /\ b_left R = b_left R' /\
  b_bottom R == b_bottom R' /\ b_right R == b_right R' /\
  G safe (b_top R) /\ G safe (b_left R) /\
  G (2 * safe)%Z (b_bottom R) /\ G (2 * safe)%Z (b_right R).
Proof.
  intros Hk H. cbv zeta. unfold boxes_on_grid in H.
  apply andb_prop in H. destruct H as [_ H].
  destruct p as [| e]; cbn.
  - apply andb_prop in H. destruct H as [Hw Hh].
    apply on_grid_steps in Hw, Hh.
    repeat split; try reflexivity.
    + apply steps_zero. safe_le.
    + apply steps_zero. safe_le.
    + eapply steps_weaken; [| exact Hh]. safe_le.
    + eapply steps_weaken; [| exact Hw]. safe_le.
  - destruct (rect_on_grid_steps k _ H) as (Gx & Gy & Gw & Gh).
    unfold rect_bottomR, rect_rightR, rect_top, rect_left, rect_bottom,
      rect_right.
    destruct (steps_radd round64 (grid_step k) round64_comp_eq
                (fun c => round64_on_grid_step k c Hk) _ _ _ _ Gy Gh
                ltac:(safe_lt)) as [Eb Gb].
    destruct (steps_radd round64 (grid_step k) round64_comp_eq
                (fun c => round64_on_grid_step k c Hk) _ _ _ _ Gx Gw
                ltac:(safe_lt)) as [Er Gr].
    repeat split;
      first [ reflexivity | assumption
            | eapply steps_weaken; [| exact Gb]; safe_le
            | eapply steps_weaken; [| exact Gr]; safe_le ].
Qed.

Lemma clampInside_within last near far Δ bnd lo hi :
  far - near <= (hi + bnd) - (lo - bnd) ->
  let d := clampInside (last + Δ) near far Δ bnd lo hi - last in
  lo - bnd <= near + d /\ far + d <= hi + bnd.
Proof.
  intros Hfit. cbv zeta. unfold clampInside.
  destruct (Qlt_le_dec (near + Δ + bnd) lo);
    [| destruct (Qlt_le_dec hi (far + Δ - bnd))]; split; lra.
Qed.

(** On the grid a move computes what the exact clamps compute from the
    margins of the program, and the totals advance by the displacement of
    the offsets. *)
Lemma onMouseMoveR_free_on_grid k w clientX clientY lay :
  (k <= 1074)%nat ->
  parent (config (closure w)) = None ->
  move_on_grid k w clientX clientY lay = true ->
  let w' := onMouseMoveR round64 w clientX clientY lay in
  left_of w' == clampTotal (left_of w + Δx_of w clientX) (left_of w)
                           (ΣΔx (closure w)) (boundX_ofR round64 w lay) /\
  top_of w' == clampTotal (top_of w + Δy_of w clientY) (top_of w)
                          (ΣΔy (closure w)) (boundY_ofR round64 w lay) /\
  ΣΔx (closure w') == ΣΔx (closure w) + (left_of w' - left_of w) /\
  ΣΔy (closure w') == ΣΔy (closure w) + (top_of w' - top_of w).
Proof.
  intros Hk Hp Hm. cbv zeta.
  destruct (move_on_grid_steps _ _ _ _ _ Hm)
    as (Gx & Gy & Gpx & Gpy & Gt & Gl & Gsx & Gsy & Gbx & Gby).
  cbv zeta in *.
  destruct (onMouseMoveR_writes round64 w clientX clientY lay)
    as (_ & _ & Hsx & Hsy & _).
  cbv zeta in Hsx, Hsy. rewrite Hsx, Hsy.
  rewrite (top_of_onMouseMoveR_free _ _ _ _ _ Hp),
    (left_of_onMouseMoveR_free _ _ _ _ _ Hp).
  destruct (free_axis_exact round64 (grid_step k) round64_comp_eq
              (fun c => round64_on_grid_step k c Hk)
              clientX _ (left_of w) (ΣΔx (closure w)) _ Gx Gpx Gl Gsx Gbx)
    as (Ex & Sx & _).
  destruct (free_axis_exact round64 (grid_step k) round64_comp_eq
              (fun c => round64_on_grid_step k c Hk)
              clientY _ (top_of w) (ΣΔy (closure w)) _ Gy Gpy Gt Gsy Gby)
    as (Ey & Sy & _).
  cbv zeta in Ex, Sx, Ey, Sy. unfold Δx_of, Δy_of.
  repeat split; first [exact Ex | exact Ey | rewrite Sx, Ex; reflexivity
                      | rewrite Sy, Ey; reflexivity].
Qed.

Lemma onMouseMoveR_inside_on_grid k w clientX clientY lay p :
  (k <= 1074)%nat ->
  parent (config (closure w)) = Some p ->
  move_on_grid k w clientX clientY lay = true ->
  boxes_on_grid k p w lay = true ->
  let w' := onMouseMoveR round64 w clientX clientY lay in
  let r := nodeBoundingRect_of w lay in
  let R := insideBoundingRect p lay in
  left_of w' == clampInside (left_of w + Δx_of w clientX)
                            (rect_left r) (rect_right r) (Δx_of w clientX)
                            (boundX_ofR round64 w lay) (b_left R) (b_right R) /\
  top_of w' == clampInside (top_of w + Δy_of w clientY)
                           (rect_top r) (rect_bottom r) (Δy_of w clientY)
                           (boundY_ofR round64 w lay) (b_top R) (b_bottom R) /\
  ΣΔx (closure w') == ΣΔx (closure w) + (left_of w' - left_of w) /\
  ΣΔy (closure w') == ΣΔy (closure w) + (top_of w' - top_of w).
Proof.
  intros Hk Hp Hm Hb. cbv zeta.
  destruct (move_on_grid_steps _ _ _ _ _ Hm)
    as (Gx & Gy & Gpx & Gpy & Gt & Gl & Gsx & Gsy & Gbx & Gby).
  pose proof Hb as Hb'. unfold boxes_on_grid in Hb'.
  apply andb_prop in Hb'. destruct Hb' as [Hr _].
  destruct (rect_on_grid_steps _ _ Hr) as (Grx & Gry & Grw & Grh).
  destruct (region_on_grid k p w lay Hk Hb)
    as (Etop & Eleft & Ebot & Eright & Gtop & Gleft & Gbot & Gright).
  cbv zeta in *.
  destruct (inside_axis_exact round64 (grid_step k) round64_comp_eq
              (fun c => round64_on_grid_step k c Hk)
              clientY _ (top_of w) (ΣΔy (closure w)) _ _ _ _ _ _
              Gy Gpy Gt Gsy Gry Grh Gby Gtop Gbot Ebot) as (Ey & Sy & _).
  destruct (inside_axis_exact round64 (grid_step k) round64_comp_eq
              (fun c => round64_on_grid_step k c Hk)
              clientX _ (left_of w) (ΣΔx (closure w)) _ _ _ _ _ _
              Gx Gpx Gl Gsx Grx Grw Gbx Gleft Gright Eright) as (Ex & Sx & _).
  cbv zeta in Ex, Sx, Ey, Sy.
  destruct (onMouseMoveR_writes round64 w clientX clientY lay)
    as (_ & _ & Hsx & Hsy & _).
  cbv zeta in Hsx, Hsy. rewrite Hsx, Hsy.
  rewrite (top_of_onMouseMoveR_inside _ _ _ _ _ _ Hp),
    (left_of_onMouseMoveR_inside _ _ _ _ _ _ Hp).
  cbv zeta. unfold Δx_of, Δy_of, rect_left, rect_right, rect_top, rect_bottom.
  rewrite <- Etop, <- Eleft.
  repeat split; first [exact Ex | exact Ey | rewrite Sx, Ex; reflexivity
                      | rewrite Sy, Ey; reflexivity].
Qed.

(** ** The boundary clamp in double precision *)

(** C1, as amended.  Take a move with a boundary configured whose
    quantities are multiples of [2^-k] px (so that the doubles of the
    program do not round), and let the offsets the node really has be the
    ones the handler remembers.  Then on each axis on which the node is
    not larger than the boundary region extended by the margin, the
    node's box after the move lies within that extended region, whatever
    the size of the delta. *)
Theorem C1_fitting_box_stays_within_the_region
    k w clientX clientY lay p actual :
  (k <= 1074)%nat ->
  parent (config (closure w)) = Some p ->
  move_on_grid k w clientX clientY lay = true ->
  boxes_on_grid k p w lay = true ->
  p_left actual == left_of w -> p_top actual == top_of w ->
  let w' := onMouseMoveR round64 w clientX clientY lay in
  let r := nodeBoundingRect_of w lay in
  let region := extended (insideBoundingRect p lay)
                         (boundX_ofR round64 w lay) (boundY_ofR round64 w lay) in
  (fits_vertically r region -> within_vertically (boxAfterMove actual w' r) region)
  /\
  (fits_horizontally r region ->
   within_horizontally (boxAfterMove actual w' r) region).
Proof.
  intros Hk Hp Hm Hb Hal Hat. cbv zeta.
  destruct (onMouseMoveR_inside_on_grid k w clientX clientY lay p Hk Hp Hm Hb)
    as (El & Et & _ & _).
  cbv zeta in El, Et.
  unfold boxAfterMove, within_vertically, within_horizontally, fits_vertically,
    fits_horizontally, extended, translate.
  unfold rect_top, rect_bottom, rect_left, rect_right in *.
  cbn [b_top b_bottom b_left b_right r_x r_y r_width r_height].
  rewrite El, Et, Hal, Hat.
  split; intros Hfit.
  - pose proof (clampInside_within (top_of w)
                  (r_y (nodeBoundingRect_of w lay))
                  (r_y (nodeBoundingRect_of w lay)
                   + r_height (nodeBoundingRect_of w lay))
                  (Δy_of w clientY)
                  (boundY_ofR round64 w lay)
                  (b_top (insideBoundingRect p lay))
                  (b_bottom (insideBoundingRect p lay))) as Hw.
    cbv zeta in Hw.
    destruct Hw as [Hw1 Hw2]; [lra |]. split; lra.
  - pose proof (clampInside_within (left_of w)
                  (r_x (nodeBoundingRect_of w lay))
                  (r_x (nodeBoundingRect_of w lay)
                   + r_width (nodeBoundingRect_of w lay))
                  (Δx_of w clientX)
                  (boundX_ofR round64 w lay)
                  (b_left (insideBoundingRect p lay))
                  (b_right (insideBoundingRect p lay))) as Hw.
    cbv zeta in Hw.
    destruct Hw as [Hw1 Hw2]; [lra |]. split; lra.
Qed.

Lemma C1_witness :
  let w := Sample.grabbed (Sample.inside screen (81 # 4)) 450 450 in
  let lay := Sample.layout (1801 # 4) (3603 # 8) (401 # 4) 100 in
  let w' := onMouseMoveR round64 w (2001 # 2) (- (64007 # 32)) lay in
  let r := nodeBoundingRect_of w lay in
  let region := extended (insideBoundingRect screen lay)
                         (boundX_ofR round64 w lay) (boundY_ofR round64 w lay) in
  within_vertically (boxAfterMove (lastNodePosition (closure w)) w' r) region /\
  within_horizontally (boxAfterMove (lastNodePosition (closure w)) w' r) region.
Proof.
  cbv zeta.
  destruct (C1_fitting_box_stays_within_the_region 6
              (Sample.grabbed (Sample.inside screen (81 # 4)) 450 450)
              (2001 # 2) (- (64007 # 32))
              (Sample.layout (1801 # 4) (3603 # 8) (401 # 4) 100) screen
              (lastNodePosition
                 (closure (Sample.grabbed (Sample.inside screen (81 # 4)) 450 450))))
    as [Hv Hh];
    [lia | vm_compute; reflexivity | vm_compute; reflexivity
    | vm_compute; reflexivity | reflexivity | reflexivity |].
  split; [apply Hv | apply Hh]; vm_compute; discriminate.
Defined.

(** C1 as stated fails when the node is larger than the region, on the
    grid too: a node 600 high in a viewport 500 high, no margin, whose
    offsets are the remembered ones, moved by nothing, is pulled up to top
    -100 and sticks out above the region. *)
Lemma C1_counterexample :
  let w := Sample.grabbed (Sample.inside screen 0) 0 0 in
  let lay := Sample.layout 0 0 100 600 in
  let w' := onMouseMoveR round64 w 0 0 lay in
  parent (config (closure w)) = Some screen /\
  move_on_grid 0 w 0 0 lay = true /\
  boxes_on_grid 0 screen w lay = true /\
  ~ within_vertically
      (boxAfterMove (lastNodePosition (closure w)) w' (nodeBoundingRect_of w lay))
      (extended (insideBoundingRect screen lay)
                (boundX_ofR round64 w lay) (boundY_ofR round64 w lay)).
Proof.
  cbv zeta. repeat split; try (vm_compute; reflexivity).
  intros [Htop _]. vm_compute in Htop. apply Htop. reflexivity.
Qed.

(** Why the two other provisos of C1 are there.  Off the grid the doubles round:
    with the viewport 500 wide as boundary and a margin of 10 percent, a
    node 62 wide at [x = 300] dragged 200 to the right is written an
    offset that puts its right edge above [500 + 6.2]. *)
Example inside_clamp_overshoots_off_the_grid :
  let w := Sample.grabbed (Sample.insidePercent screen 10) 0 0 in
  let lay := Sample.layout 300 0 62 62 in
  let w' := onMouseMoveR round64 w 200 0 lay in
  let r := nodeBoundingRect_of w lay in
  fits_horizontally r (extended (insideBoundingRect screen lay) (62 # 10) (62 # 10)) /\
  500 + (62 # 10) < rect_right (boxAfterMove (lastNodePosition (closure w)) w' r).
Proof. cbv zeta. split; vm_compute; first [discriminate | reflexivity]. Qed.

(** And [onMouseDown] remembers the integer [parseInt] reads at the head
    of the computed offset, not the offset: a node whose computed [left]
    is [10.5px], standing at [x = 10.5] in a parent that starts at
    [x = 10.25], is written [left = 10] by a move of the pointer by
    nothing, which takes it out of its parent. *)
Example inside_clamp_starts_from_the_truncated_offset :
  let w := Sample.grabbed (Sample.inside (parentNode [0]%nat) 0) 0 10 in
  let lay := mkLayout (fun e => if isSameNode e [0]%nat
                                then mkRect (41 # 4) 0 200 200
                                else mkRect (21 # 2) 0 50 50) 500 500 in
  let w' := onMouseMoveR round64 w 0 0 lay in
  let actual := mkPosition 0 (21 # 2) in
  move_on_grid 2 w 0 0 lay = true /\
  boxes_on_grid 2 (parentNode [0]%nat) w lay = true /\
  nodeLeft (page w') = Some (left_of w') /\ left_of w' == 10 /\
  rect_left (boxAfterMove actual w' (nodeBoundingRect_of w lay)) < 41 # 4.
Proof.
  cbv zeta. repeat split; vm_compute; reflexivity.
Qed.

(** ** The cumulative clamp in double precision *)

Lemma onMouseMoveR_frame rnd w clientX clientY lay lay' :
  let w' := onMouseMoveR rnd w clientX clientY lay in
  parent (config (closure w')) = parent (config (closure w)) /\
  boundX_ofR rnd w' lay' = boundX_ofR rnd w lay' /\
  boundY_ofR rnd w' lay' = boundY_ofR rnd w lay' /\
  pt_x (lastMousePosition (closure w')) = clientX /\
  pt_y (lastMousePosition (closure w')) = clientY.
Proof.
  cbv zeta.
  destruct (onMouseMoveR_writes rnd w clientX clientY lay)
    as (_ & _ & _ & _ & Hpt & Hc & Hn).
  cbv zeta in Hpt, Hc, Hn.
  unfold boundX_ofR, boundY_ofR, nodeBoundingRect_of.
  rewrite Hpt, Hc, Hn. repeat split; reflexivity.
Qed.

Section Totals.

Variable valid : string -> bool.
Variable Params : Type.
Variable input : Elem -> Params -> Input.
Variable defaultParameters : Params.

(** C2, as amended.  The totals are zero when [movable] returns.  In any
    world reached from there, a processed move without boundary, with both
    margins strictly positive and with its quantities on the grid of
    multiples of [2^-k] px, leaves each total within its margin; the total
    has advanced by exactly the displacement of the offset the move has
    written to the node. *)
Theorem C2_totals_stay_within_bounds_on_the_grid
    n parameters pg evs k clientX clientY lay :
  let w0 := movable input defaultParameters n parameters pg in
  let w := runT round64 valid input w0 evs in
  let w' := stepT round64 valid input w (Mousemove clientX clientY lay) in
  (ΣΔx (closure w0) = 0 /\ ΣΔy (closure w0) = 0)
  /\
  ((k <= 1074)%nat ->
   mousemoveListener (page w) = true ->
   parent (config (closure w)) = None ->
   move_on_grid k w clientX clientY lay = true ->
   0 < boundX_ofR round64 w lay -> 0 < boundY_ofR round64 w lay ->
   Qabs (ΣΔx (closure w')) <= boundX_ofR round64 w lay /\
   Qabs (ΣΔy (closure w')) <= boundY_ofR round64 w lay /\
   ΣΔx (closure w') == ΣΔx (closure w) + (left_of w' - left_of w) /\
   ΣΔy (closure w') == ΣΔy (closure w) + (top_of w' - top_of w) /\
   nodeLeft (page w') = Some (left_of w') /\
   nodeTop (page w') = Some (top_of w')).
Proof.
  cbv zeta. split.
  - unfold movable, install. cbn. destruct (enabled _); split; reflexivity.
  - intros Hk Hmv Hp Hm Hx Hy. cbn [stepT]. rewrite Hmv.
    set (w := runT round64 valid input _ evs) in *.
    destruct (onMouseMoveR_free_on_grid k w clientX clientY lay Hk Hp Hm)
      as (El & Et & Sx & Sy).
    cbv zeta in El, Et, Sx, Sy.
    destruct (onMouseMoveR_writes round64 w clientX clientY lay)
      as (Hl & Ht & _).
    cbv zeta in Hl, Ht.
    repeat split; try assumption.
    + rewrite Sx, El. apply clampTotal_bounded. exact Hx.
    + rewrite Sy, Et. apply clampTotal_bounded. exact Hy.
Qed.

End Totals.

Lemma C2_witness :
  let lay := Sample.layout 0 0 100 100 in
  let w0 := Sample.attach (Sample.percent 50 (61 # 2)) Sample.blank in
  let w := runT round64 Sample.valid (fun _ p => p) w0
             [Mousedown [0;0]%nat 0 0 Sample.static;
              Mousemove (161 # 2) 0 lay] in
  let w' := stepT round64 Sample.valid (fun _ p => p) w
              (Mousemove (803 # 4) (- (1601 # 8)) lay) in
  Qabs (ΣΔx (closure w')) <= boundX_ofR round64 w lay /\
  Qabs (ΣΔy (closure w')) <= boundY_ofR round64 w lay /\
  ΣΔx (closure w') == ΣΔx (closure w) + (left_of w' - left_of w) /\
  ΣΔy (closure w') == ΣΔy (closure w) + (top_of w' - top_of w) /\
  nodeLeft (page w') = Some (left_of w') /\
  nodeTop (page w') = Some (top_of w').
Proof.
  cbv zeta.
  apply (proj2 (C2_totals_stay_within_bounds_on_the_grid
                  Sample.valid Input (fun _ p => p) Sample.free [0;0]%nat
                  (Some (Sample.percent 50 (61 # 2))) Sample.blank
                  [Mousedown [0;0]%nat 0 0 Sample.static;
                   Mousemove (161 # 2) 0 (Sample.layout 0 0 100 100)]
                  3 (803 # 4) (- (1601 # 8)) (Sample.layout 0 0 100 100)));
    first [lia | vm_compute; reflexivity].
Defined.

(** The claim without the grid: with a limit of 20 percent on a node 101
    wide, one processed move by 100 leaves the total above the margin the
    program computed. *)
Lemma C2_counterexample :
  let lay := Sample.layout 0 0 101 101 in
  let w0 := Sample.attach (Sample.percent 20 20) Sample.blank in
  let w := runT round64 Sample.valid (fun _ p => p) w0
             [Mousedown [0;0]%nat 0 0 Sample.static] in
  let w' := stepT round64 Sample.valid (fun _ p => p) w (Mousemove 100 100 lay) in
  mousemoveListener (page w) = true /\
  parent (config (closure w)) = None /\
  0 < boundX_ofR round64 w lay /\ 0 < boundY_ofR round64 w lay /\
  ~ Qabs (ΣΔx (closure w')) <= boundX_ofR round64 w lay.
Proof.
  cbv zeta. repeat split; try (vm_compute; reflexivity).
  intros H. vm_compute in H. apply H. reflexivity.
Qed.

(** X1.  Without a boundary, on an axis whose margin is strictly
    positive, a move on the grid takes the running total to the old total
    plus the pointer delta, clamped into [[-margin, margin]], whatever the
    old total was, and displaces the node by exactly the change of the
    total. *)
Theorem X1_free_total_is_the_clamped_sum k w clientX clientY lay :
  (k <= 1074)%nat ->
  parent (config (closure w)) = None ->
  move_on_grid k w clientX clientY lay = true ->
  let w' := onMouseMoveR round64 w clientX clientY lay in
  (0 < boundX_ofR round64 w lay ->
   ΣΔx (closure w') ==
     Qmax (- boundX_ofR round64 w lay)
          (Qmin (boundX_ofR round64 w lay) (ΣΔx (closure w) + Δx_of w clientX)) /\
   applied_dx w w' == ΣΔx (closure w') - ΣΔx (closure w))
  /\
  (0 < boundY_ofR round64 w lay ->
   ΣΔy (closure w') ==
     Qmax (- boundY_ofR round64 w lay)
          (Qmin (boundY_ofR round64 w lay) (ΣΔy (closure w) + Δy_of w clientY)) /\
   applied_dy w w' == ΣΔy (closure w') - ΣΔy (closure w)).
Proof.
  intros Hk Hp Hm. cbv zeta.
  destruct (onMouseMoveR_free_on_grid k w clientX clientY lay Hk Hp Hm)
    as (El & Et & Sx & Sy).
  cbv zeta in El, Et, Sx, Sy. unfold applied_dx, applied_dy.
  split; intros Hb; (split; [| lra]).
  - rewrite Sx, El, (clampTotal_total _ _ _ _ Hb).
    assert (E : ΣΔx (closure w) + (left_of w + Δx_of w clientX - left_of w) ==
                ΣΔx (closure w) + Δx_of w clientX) by lra.
    rewrite E. reflexivity.
  - rewrite Sy, Et, (clampTotal_total _ _ _ _ Hb).
    assert (E : ΣΔy (closure w) + (top_of w + Δy_of w clientY - top_of w) ==
                ΣΔy (closure w) + Δy_of w clientY) by lra.
    rewrite E. reflexivity.
Qed.

Lemma X1_witness :
  let w := Sample.grabbed (Sample.limited (101 # 2) (121 # 4)) 0 0 in
  let lay := Sample.layout 0 0 100 100 in
  let w' := onMouseMoveR round64 w (321 # 4) (- (81 # 8)) lay in
  ΣΔx (closure w') ==
    Qmax (- boundX_ofR round64 w lay)
         (Qmin (boundX_ofR round64 w lay) (ΣΔx (closure w) + Δx_of w (321 # 4))) /\
  ΣΔy (closure w') ==
    Qmax (- boundY_ofR round64 w lay)
         (Qmin (boundY_ofR round64 w lay)
               (ΣΔy (closure w) + Δy_of w (- (81 # 8)))).
Proof.
  cbv zeta.
  destruct (X1_free_total_is_the_clamped_sum 3
              (Sample.grabbed (Sample.limited (101 # 2) (121 # 4)) 0 0)
              (321 # 4) (- (81 # 8))
              (Sample.layout 0 0 100 100) ltac:(lia)
              ltac:(vm_compute; reflexivity) ltac:(vm_compute; reflexivity))
    as [Hx Hy].
  split; [apply Hx | apply Hy]; vm_compute; reflexivity.
Defined.

(** X2.  The pointer position is remembered at every move, also when the
    move is absorbed by the margin: with the horizontal total at its
    positive margin, a move further out by any [a >= 0] leaves the node in
    place, and a following move back by [c] (at most twice the margin)
    moves the node by exactly [c], with no dead zone to cross first.  Both
    moves are on the grid. *)
Theorem X2_absorbed_motion_is_not_owed k w y1 y2 lay a c :
  (k <= 1074)%nat ->
  parent (config (closure w)) = None ->
  0 < boundX_ofR round64 w lay ->
  ΣΔx (closure w) == boundX_ofR round64 w lay ->
  0 <= a -> 0 <= c -> c <= 2 * boundX_ofR round64 w lay ->
  let x0 := pt_x (lastMousePosition (closure w)) in
  let w1 := onMouseMoveR round64 w (x0 + a) y1 lay in
  let w2 := onMouseMoveR round64 w1 (x0 + a - c) y2 lay in
  move_on_grid k w (x0 + a) y1 lay = true ->
  move_on_grid k w1 (x0 + a - c) y2 lay = true ->
  left_of w1 == left_of w /\ left_of w2 == left_of w - c.
Proof.
  intros Hk Hp Hb Hs Ha Hc Hc2. cbv zeta.
  set (x0 := pt_x (lastMousePosition (closure w))).
  set (w1 := onMouseMoveR round64 w (x0 + a) y1 lay).
  intros Hm1 Hm2.
  destruct (onMouseMoveR_frame round64 w (x0 + a) y1 lay lay)
    as (Hp1 & Hb1 & _ & Hpt & _).
  cbv zeta in Hp1, Hb1, Hpt. fold w1 in Hp1, Hb1, Hpt.
  rewrite Hp in Hp1.
  destruct (onMouseMoveR_free_on_grid k w (x0 + a) y1 lay Hk Hp Hm1)
    as (El1 & _ & Sx1 & _).
  cbv zeta in El1, Sx1. fold w1 in El1, Sx1.
  destruct (onMouseMoveR_free_on_grid k w1 (x0 + a - c) y2 lay Hk Hp1 Hm2)
    as (El2 & _ & _ & _).
  cbv zeta in El2. rewrite Hb1 in El2.
  unfold Δx_of in El1, El2. rewrite Hpt in El2. fold x0 in El1.
  assert (Hl1 : left_of w1 == left_of w).
  { rewrite El1. unfold clampTotal.
    destruct (Qlt_le_dec 0 (boundX_ofR round64 w lay)); [| lra].
    destruct (Qlt_le_dec _ _); [lra |].
    destruct (Qlt_le_dec _ _); lra. }
  split; [exact Hl1 |].
  rewrite El2. unfold clampTotal.
  destruct (Qlt_le_dec 0 (boundX_ofR round64 w lay)); [| lra].
  destruct (Qlt_le_dec _ _); [lra |].
  destruct (Qlt_le_dec _ _); lra.
Qed.

Lemma X2_witness :
  let lay := Sample.layout 0 0 100 100 in
  let w := onMouseMoveR round64 (Sample.grabbed (Sample.limited (101 # 2) 0) 0 0)
             (161 # 2) 0 lay in
  let x0 := pt_x (lastMousePosition (closure w)) in
  let w1 := onMouseMoveR round64 w (x0 + (161 # 4)) 0 lay in
  let w2 := onMouseMoveR round64 w1 (x0 + (161 # 4) - (81 # 8)) 0 lay in
  left_of w1 == left_of w /\ left_of w2 == left_of w - (81 # 8).
Proof.
  cbv zeta.
  apply (X2_absorbed_motion_is_not_owed 3
           (onMouseMoveR round64
              (Sample.grabbed (Sample.limited (101 # 2) 0) 0 0)
              (161 # 2) 0 (Sample.layout 0 0 100 100))
           0 0 (Sample.layout 0 0 100 100) (161 # 4) (81 # 8));
    first [lia | vm_compute; first [reflexivity | discriminate]].
Defined.

(** ** Moves in a row *)

Lemma onMouseMoveR_listeners rnd w clientX clientY lay :
  mousemoveListener (page (onMouseMoveR rnd w clientX clientY lay)) =
  mousemoveListener (page w).
Proof. unfold onMouseMoveR. cbn. destruct (parent _); reflexivity. Qed.

Lemma runT_mousemoves rnd valid (Params : Type) (input : Elem -> Params -> Input)
    moves : forall w,
  mousemoveListener (page w) = true ->
  runT rnd valid input w (mousemoves moves) = movesR rnd w moves.
Proof.
  induction moves as [| m moves IH]; intros w Hmv; [reflexivity |].
  unfold mousemoves, runT, movesR. cbn [map fold_left stepT]. rewrite Hmv.
  apply IH. rewrite onMouseMoveR_listeners. exact Hmv.
Qed.

Section Drag.

Variable valid : string -> bool.
Variable Params : Type.
Variable input : Elem -> Params -> Input.

(** X3.  Without a boundary and with no positive margin (limit 0, a
    negative value or an unknown unit), the node follows the pointer
    through any number of processed moves on the grid: its offsets
    relative to the pointer stay what they were at the start. *)
Theorem X3_unbounded_drag_follows_the_pointer k moves : forall w,
  (k <= 1074)%nat ->
  mousemoveListener (page w) = true ->
  parent (config (closure w)) = None ->
  moves_on_grid k w moves = true ->
  Forall (fun m => boundX_ofR round64 w (snd m) <= 0 /\
                   boundY_ofR round64 w (snd m) <= 0) moves ->
  let w' := runT round64 valid input w (mousemoves moves) in
  left_of w' - pt_x (lastMousePosition (closure w')) ==
    left_of w - pt_x (lastMousePosition (closure w)) /\
  top_of w' - pt_y (lastMousePosition (closure w')) ==
    top_of w - pt_y (lastMousePosition (closure w)).
Proof.
  intros w Hk Hmv. cbv zeta. rewrite (runT_mousemoves _ _ _ _ _ _ Hmv).
  clear Hmv. revert w.
  induction moves as [| m moves IH]; intros w Hp Hg Hb.
  - split; reflexivity.
  - cbn [moves_on_grid] in Hg. apply andb_prop in Hg. destruct Hg as [Hm Hg].
    unfold reads_on_grid in Hm. apply andb_prop in Hm. destruct Hm as [Hm _].
    apply Forall_cons in Hb. destruct Hb as [[Hbx Hby] Hb].
    set (x := fst (fst m)) in *. set (y := snd (fst m)) in *.
    unfold movesR. cbn [fold_left]. fold x. fold y.
    set (w1 := onMouseMoveR round64 w x y (snd m)) in *.
    fold (movesR round64 w1 moves).
    assert (Hfr : forall lay', parent (config (closure w1)) = None /\
                    boundX_ofR round64 w1 lay' = boundX_ofR round64 w lay' /\
                    boundY_ofR round64 w1 lay' = boundY_ofR round64 w lay').
    { intros lay'.
      destruct (onMouseMoveR_frame round64 w x y (snd m) lay')
        as (H1 & H2 & H3 & _).
      cbv zeta in H1, H2, H3. fold w1 in H1, H2, H3.
      rewrite H1. repeat split; assumption. }
    destruct (IH w1) as [IHx IHy].
    + apply (Hfr (snd m)).
    + exact Hg.
    + eapply Forall_impl; [exact Hb |]. intros m' [Hx' Hy'].
      destruct (Hfr (snd m')) as (_ & -> & ->). split; assumption.
    + rewrite IHx, IHy.
      destruct (onMouseMoveR_frame round64 w x y (snd m) (snd m))
        as (_ & _ & _ & Hpx & Hpy).
      cbv zeta in Hpx, Hpy. fold w1 in Hpx, Hpy. rewrite Hpx, Hpy.
      destruct (onMouseMoveR_free_on_grid k w x y (snd m) Hk Hp Hm)
        as (El & Et & _ & _).
      cbv zeta in El, Et. fold w1 in El, Et. rewrite El, Et.
      unfold clampTotal, Δx_of, Δy_of.
      destruct (Qlt_le_dec 0 (boundX_ofR round64 w (snd m))); [lra |].
      destruct (Qlt_le_dec 0 (boundY_ofR round64 w (snd m))); [lra |].
      split; lra.
Qed.

End Drag.

Lemma X3_witness :
  let lay := Sample.layout 0 0 100 100 in
  let w := Sample.grabbed Sample.free 7 3 in
  let w' := runT round64 Sample.valid (fun _ p => p) w
              (mousemoves [(121 # 4, 81 # 8, lay); (150, 120, lay)]) in
  left_of w' - pt_x (lastMousePosition (closure w')) ==
    left_of w - pt_x (lastMousePosition (closure w)) /\
  top_of w' - pt_y (lastMousePosition (closure w')) ==
    top_of w - pt_y (lastMousePosition (closure w)).
Proof.
  cbv zeta.
  apply (X3_unbounded_drag_follows_the_pointer Sample.valid Input
           (fun _ p => p) 3
           [(121 # 4, 81 # 8, Sample.layout 0 0 100 100);
            (150, 120, Sample.layout 0 0 100 100)]
           (Sample.grabbed Sample.free 7 3)).
  - lia.
  - vm_compute; reflexivity.
  - vm_compute; reflexivity.
  - vm_compute; reflexivity.
  - repeat apply List.Forall_cons; try apply List.Forall_nil;
      split; vm_compute; discriminate.
Defined.

Lemma runT_mousemoves_idle rnd valid (Params : Type)
    (input : Elem -> Params -> Input) moves : forall w,
  mousemoveListener (page w) = false ->
  runT rnd valid input w (mousemoves moves) = w.
Proof.
  induction moves as [| m moves IH]; intros w Hmv; [reflexivity |].
  unfold mousemoves, runT. cbn [map fold_left stepT]. rewrite Hmv.
  apply IH. exact Hmv.
Qed.

Lemma onMouseMoveR_on_grid k w clientX clientY lay :
  (k <= 1074)%nat ->
  reads_on_grid k w clientX clientY lay = true ->
  let w' := onMouseMoveR round64 w clientX clientY lay in
  ΣΔx (closure w') == ΣΔx (closure w) + (left_of w' - left_of w) /\
  ΣΔy (closure w') == ΣΔy (closure w) + (top_of w' - top_of w).
Proof.
  intros Hk Hr. cbv zeta. unfold reads_on_grid in Hr.
  apply andb_prop in Hr. destruct Hr as [Hm Hb].
  destruct (parent (config (closure w))) as [p |] eqn:Hp.
  - destruct (onMouseMoveR_inside_on_grid k w clientX clientY lay p Hk Hp Hm Hb)
      as (_ & _ & Sx & Sy).
    split; assumption.
  - destruct (onMouseMoveR_free_on_grid k w clientX clientY lay Hk Hp Hm)
      as (_ & _ & Sx & Sy).
    split; assumption.
Qed.

Section Sums.

Variable valid : string -> bool.
Variable Params : Type.
Variable input : Elem -> Params -> Input.

(** X6.  Over any run of moves that read on the grid, in either mode,
    each running total grows by exactly the distance the corresponding
    node offset has moved. *)
Theorem X6_totals_advance_with_the_offsets k moves w :
  (k <= 1074)%nat ->
  moves_on_grid k w moves = true ->
  let w' := runT round64 valid input w (mousemoves moves) in
  ΣΔx (closure w') - ΣΔx (closure w) == left_of w' - left_of w /\
  ΣΔy (closure w') - ΣΔy (closure w) == top_of w' - top_of w.
Proof.
  intros Hk Hg. cbv zeta.
  destruct (mousemoveListener (page w)) eqn:Hmv;
    [| rewrite (runT_mousemoves_idle _ _ _ _ _ _ Hmv); split; lra].
  rewrite (runT_mousemoves _ _ _ _ _ _ Hmv). clear Hmv.
  revert w Hg. induction moves as [| m moves IH]; intros w Hg.
  - split; cbn; lra.
  - cbn [moves_on_grid] in Hg. apply andb_prop in Hg. destruct Hg as [Hm Hg].
    unfold movesR. cbn [fold_left].
    set (w1 := onMouseMoveR round64 w (fst (fst m)) (snd (fst m)) (snd m)) in *.
    fold (movesR round64 w1 moves).
    destruct (IH w1 Hg) as [IHx IHy].
    destruct (onMouseMoveR_on_grid k w _ _ _ Hk Hm) as [Sx Sy].
    cbv zeta in Sx, Sy. fold w1 in Sx, Sy. split; lra.
Qed.

End Sums.

Lemma X6_witness :
  let lay := Sample.layout (1801 # 4) (3603 # 8) (401 # 4) 100 in
  let w := Sample.grabbed (Sample.inside screen (81 # 4)) 450 450 in
  let w' := runT round64 Sample.valid (fun _ p => p) w
              (mousemoves [(2001 # 2, - (64007 # 32), lay); (3 # 8, 12, lay)]) in
  ΣΔx (closure w') - ΣΔx (closure w) == left_of w' - left_of w /\
  ΣΔy (closure w') - ΣΔy (closure w) == top_of w' - top_of w.
Proof.
  cbv zeta.
  apply (X6_totals_advance_with_the_offsets Sample.valid Input (fun _ p => p) 6
           [(2001 # 2, - (64007 # 32),
             Sample.layout (1801 # 4) (3603 # 8) (401 # 4) 100);
            (3 # 8, 12, Sample.layout (1801 # 4) (3603 # 8) (401 # 4) 100)]
           (Sample.grabbed (Sample.inside screen (81 # 4)) 450 450));
    first [lia | vm_compute; reflexivity].
Defined.

(** ** Landing on the edge of the region *)

(** X4.  With a boundary configured, a move on the grid that would take
    the node past an edge of the region extended by the margin puts the
    box exactly on that edge, when the offsets the node really has are
    the ones the handler remembers: top (left) on the region's top (left)
    minus the margin when the near-edge correction applies, bottom (right)
    on the region's bottom (right) plus the margin when the far-edge
    correction applies. *)
Theorem X4_inside_clamp_lands_on_the_edge k w clientX clientY lay p actual :
  (k <= 1074)%nat ->
  parent (config (closure w)) = Some p ->
  move_on_grid k w clientX clientY lay = true ->
  boxes_on_grid k p w lay = true ->
  p_left actual == left_of w -> p_top actual == top_of w ->
  let w' := onMouseMoveR round64 w clientX clientY lay in
  let r := nodeBoundingRect_of w lay in
  let r' := boxAfterMove actual w' r in
  let R := extended (insideBoundingRect p lay)
                    (boundX_ofR round64 w lay) (boundY_ofR round64 w lay) in
  (rect_top r + Δy_of w clientY < b_top R -> rect_top r' == b_top R) /\
  (b_top R <= rect_top r + Δy_of w clientY ->
   b_bottom R < rect_bottom r + Δy_of w clientY ->
   rect_bottom r' == b_bottom R) /\
  (rect_left r + Δx_of w clientX < b_left R -> rect_left r' == b_left R) /\
  (b_left R <= rect_left r + Δx_of w clientX ->
   b_right R < rect_right r + Δx_of w clientX ->
   rect_right r' == b_right R).
Proof.
  intros Hk Hp Hm Hb Hal Hat. cbv zeta.
  destruct (onMouseMoveR_inside_on_grid k w clientX clientY lay p Hk Hp Hm Hb)
    as (El & Et & _ & _).
  cbv zeta in El, Et.
  unfold boxAfterMove, extended, translate.
  unfold rect_top, rect_bottom, rect_left, rect_right in *.
  cbn [b_top b_bottom b_left b_right r_x r_y r_width r_height].
  rewrite El, Et, Hal, Hat. unfold clampInside.
  repeat split; intros;
    repeat (destruct (Qlt_le_dec _ _)); lra.
Qed.

Lemma X4_witness :
  let w := Sample.grabbed (Sample.inside screen (81 # 4)) 450 450 in
  let lay := Sample.layout (1801 # 4) (3603 # 8) (401 # 4) 100 in
  let w' := onMouseMoveR round64 w (2001 # 2) (- (64007 # 32)) lay in
  let r' := boxAfterMove (lastNodePosition (closure w)) w'
                         (nodeBoundingRect_of w lay) in
  let R := extended (insideBoundingRect screen lay)
                    (boundX_ofR round64 w lay) (boundY_ofR round64 w lay) in
  rect_top r' == b_top R /\ rect_right r' == b_right R.
Proof.
  cbv zeta.
  destruct (X4_inside_clamp_lands_on_the_edge 6
              (Sample.grabbed (Sample.inside screen (81 # 4)) 450 450)
              (2001 # 2) (- (64007 # 32))
              (Sample.layout (1801 # 4) (3603 # 8) (401 # 4) 100) screen
              (lastNodePosition
                 (closure (Sample.grabbed (Sample.inside screen (81 # 4)) 450 450))))
    as (Ht & _ & _ & Hr);
    [lia | vm_compute; reflexivity | vm_compute; reflexivity
    | vm_compute; reflexivity | reflexivity | reflexivity |].
  split; [apply Ht | apply Hr]; vm_compute; first [reflexivity | discriminate].
Defined.

(** ** Calls that throw *)

Lemma getIgnoredElementsT_Some valid w l :
  getIgnoredElementsT valid w = Some l -> l = getIgnoredElements w.
Proof.
  unfold getIgnoredElementsT, getIgnoredElements.
  destruct (ignore _) as [sel |]; [| congruence].
  destruct (sel =? "")%string; [congruence |].
  destruct (valid sel); congruence.
Qed.

Lemma getIgnoredElementsT_ext valid w w' :
  only_cursors_differ w w' ->
  getIgnoredElementsT valid w' = getIgnoredElementsT valid w.
Proof. intros ->. reflexivity. Qed.

(** A call that returns has done what the handlers above do. *)
Lemma removeCursorT_returned valid w u :
  removeCursorT valid w = returned u -> u = removeCursor w.
Proof.
  unfold removeCursorT, removeCursor. destruct (cursor _); [| congruence].
  cbv zeta.
  destruct (getIgnoredElementsT valid _) as [l |] eqn:Hl; [| discriminate].
  apply getIgnoredElementsT_Some in Hl. rewrite Hl. congruence.
Qed.

Lemma addCursorT_returned valid w u :
  addCursorT valid w = returned u -> u = addCursor w.
Proof.
  unfold addCursorT, addCursor. destruct (cursor _); [| congruence].
  cbv zeta.
  destruct (getIgnoredElementsT valid _) as [l |] eqn:Hl; [| discriminate].
  apply getIgnoredElementsT_Some in Hl. rewrite Hl. congruence.
Qed.

(** One that throws has touched the cursor of the handle at most. *)
Lemma removeCursorT_thrown valid w u :
  removeCursorT valid w = thrown u ->
  cursor (config (closure w)) = true /\
  getIgnoredElementsT valid w = None /\
  u = (if (style_cursor w (handle (config (closure w))) =? "grab")%string
       then remove_style_cursor (handle (config (closure w))) w else w).
Proof.
  unfold removeCursorT. destruct (cursor _); [| discriminate].
  cbv zeta.
  destruct (getIgnoredElementsT valid _) as [l |] eqn:Hl; [discriminate |].
  intros [= <-]. split; [reflexivity |]. split; [| reflexivity].
  rewrite <- Hl. symmetry. apply getIgnoredElementsT_ext.
  destruct (_ =? _)%string;
    [apply only_cursors_differ_set | apply only_cursors_differ_refl].
Qed.

Lemma addCursorT_thrown valid w u :
  addCursorT valid w = thrown u ->
  u = set_style_cursor (handle (config (closure w))) "grab" w.
Proof.
  unfold addCursorT. destruct (cursor _); [| discriminate].
  cbv zeta. destruct (getIgnoredElementsT valid _); [discriminate |].
  intros [= <-]. reflexivity.
Qed.

Lemma removeCursorT_only_cursors valid w :
  only_cursors_differ w (world_of (removeCursorT valid w)).
Proof.
  destruct (removeCursorT valid w) as [u | u] eqn:H; cbn.
  - apply removeCursorT_returned in H. subst u.
    apply removeCursor_only_cursors.
  - apply removeCursorT_thrown in H. destruct H as (_ & _ & ->).
    destruct (_ =? _)%string;
      [apply only_cursors_differ_set | apply only_cursors_differ_refl].
Qed.

Lemma addCursorT_only_cursors valid w :
  only_cursors_differ w (world_of (addCursorT valid w)).
Proof.
  destruct (addCursorT valid w) as [u | u] eqn:H; cbn.
  - apply addCursorT_returned in H. subst u. apply addCursor_only_cursors.
  - apply addCursorT_thrown in H. subst u. apply only_cursors_differ_set.
Qed.

Lemma onMouseDownT_cases valid w target clientX clientY cs :
  world_of (onMouseDownT valid w target clientX clientY cs) = w \/
  world_of (onMouseDownT valid w target clientX clientY cs) =
    onMouseDown w target clientX clientY cs.
Proof.
  unfold onMouseDownT. destruct (getIgnoredElementsT valid w);
    [right | left]; reflexivity.
Qed.


(** With exact arithmetic and every string a selector the delivery is the
    one of the first part. *)
Lemma getIgnoredElementsT_total w :
  getIgnoredElementsT (fun _ => true) w = Some (getIgnoredElements w).
Proof.
  unfold getIgnoredElementsT, getIgnoredElements.
  destruct (ignore _) as [sel |]; [| reflexivity].
  destruct (sel =? "")%string; reflexivity.
Qed.

Lemma removeCursorT_total w :
  removeCursorT (fun _ => true) w = returned (removeCursor w).
Proof.
  unfold removeCursorT, removeCursor. destruct (cursor _); [| reflexivity].
  cbv zeta. rewrite getIgnoredElementsT_total. reflexivity.
Qed.

Lemma addCursorT_total w :
  addCursorT (fun _ => true) w = returned (addCursor w).
Proof.
  unfold addCursorT, addCursor. destruct (cursor _); [| reflexivity].
  cbv zeta. rewrite getIgnoredElementsT_total. reflexivity.
Qed.

Lemma stepT_exact (Params : Type) (input : Elem -> Params -> Input) w ev :
  stepT (fun q => q) (fun _ => true) input w ev = step input w ev.
Proof.
  destruct ev; cbn [stepT step]; try reflexivity.
  - generalize (mousedownListeners (page w)) as ls. intros ls.
    revert w. induction ls as [| h ls IH]; intros w; cbn [fold_left];
      [reflexivity |].
    rewrite IH. unfold onMouseDownT. rewrite getIgnoredElementsT_total.
    reflexivity.
  - destruct (microtasks (page w)); [reflexivity |].
    rewrite addCursorT_total. reflexivity.
  - unfold updateT. rewrite removeCursorT_total. reflexivity.
  - unfold destroyT. rewrite removeCursorT_total. reflexivity.
Qed.

Lemma runT_exact (Params : Type) (input : Elem -> Params -> Input) evs :
  forall w, runT (fun q => q) (fun _ => true) input w evs = run input w evs.
Proof.
  induction evs as [| ev evs IH]; intros w; [reflexivity |].
  unfold runT, run. cbn [fold_left]. rewrite stepT_exact. apply IH.
Qed.

(** ** The press listener across updates that may throw *)

Lemma onMouseMoveR_same_install rnd w clientX clientY lay :
  same_install w (onMouseMoveR rnd w clientX clientY lay).
Proof.
  unfold onMouseMoveR. cbn. destruct (parent _); split; reflexivity.
Qed.

Lemma install_closure w : closure (install w) = closure w.
Proof.
  unfold install. destruct (enabled _); [| reflexivity].
  unfold addEventListener_mousedown. destruct (List.existsb _ _); reflexivity.
Qed.

Section Updates.

Variable rnd : Q -> Q.
Variable valid : string -> bool.
Variable Params : Type.
Variable input : Elem -> Params -> Input.
Variable defaultParameters : Params.

(** The worlds [update] goes through, and what it leaves: the listener
    the new parameters ask for when it returns, everything but cursors as
    it was when it throws. *)
Lemma update_pointsT_spec w p :
  installed_ok w ->
  Forall installed_ok (update_pointsT valid input w p) /\
  match updateT valid input w p with
  | returned u =>
      installed_exact u /\ config (closure u) = input (node (closure w)) p
  | thrown u => only_cursors_differ w u
  end.
Proof.
  intros Hok. unfold update_pointsT, updateT.
  pose proof (removeCursorT_only_cursors valid w) as Hc.
  destruct (removeCursorT valid w) as [w1 | w1]; cbn in Hc.
  - assert (H1 : installed_ok w1)
      by (eapply same_install_ok; [apply only_cursors_same_install |]; eassumption).
    assert (H2 : mousedownListeners (page (update_removeListener w1)) = [])
      by (apply removeListener_none; exact H1).
    assert (H3 : mousedownListeners
                   (page (update_assign input p (update_removeListener w1))) = [])
      by exact H2.
    assert (H4 := install_exact _ H3).
    split.
    + apply List.Forall_cons; [exact H1 |].
      apply List.Forall_cons; [left; exact H2 |].
      apply List.Forall_cons; [left; exact H3 |].
      apply List.Forall_cons;
        [apply installed_exact_ok; exact H4 | apply List.Forall_nil].
    + split; [exact H4 |].
      destruct (install_effect
                  (update_assign input p (update_removeListener w1))) as [-> _].
      unfold update_assign, update_removeListener.
      unfold only_cursors_differ in Hc. rewrite Hc. reflexivity.
  - split; [| exact Hc].
    apply List.Forall_cons; [| apply List.Forall_nil].
    eapply same_install_ok; [apply only_cursors_same_install |]; eassumption.
Qed.

Lemma stepT_mousedown_same_install w target clientX clientY cs :
  same_install w (stepT rnd valid input w (Mousedown target clientX clientY cs)).
Proof.
  cbn. generalize (mousedownListeners (page w)) as ls. intros ls.
  revert w. induction ls as [| h ls IH]; intros w; cbn.
  - apply same_install_refl.
  - eapply same_install_trans; [| apply IH].
    destruct (contains h target); [| apply same_install_refl].
    destruct (onMouseDownT_cases valid w target clientX clientY cs) as [-> | ->];
      [apply same_install_refl | apply onMouseDown_same_install].
Qed.

Lemma stepT_same_install w ev :
  match ev with
  | Update _ | Destroy => True
  | _ => same_install w (stepT rnd valid input w ev)
  end.
Proof.
  destruct ev; try exact I.
  - apply stepT_mousedown_same_install.
  - cbn. destruct (mousemoveListener _);
      [apply onMouseMoveR_same_install | apply same_install_refl].
  - cbn. destruct (mouseupListener _);
      [apply end_same_install | apply same_install_refl].
  - cbn. destruct (microtasks (page w)); [apply same_install_refl |].
    apply (same_install_trans _ (set_microtasks n w));
      [split; reflexivity |].
    apply only_cursors_same_install, addCursorT_only_cursors.
  - cbn. destruct (v =? "")%string; split; reflexivity.
  - split; reflexivity.
  - split; reflexivity.
Qed.

Lemma stepT_update_installed_exact w p :
  installed_exact w -> installed_exact (stepT rnd valid input w (Update p)).
Proof.
  intros Hex. cbn [stepT].
  destruct (update_pointsT_spec w p (installed_exact_ok _ Hex)) as [_ H].
  destruct (updateT valid input w p) as [u | u]; cbn.
  - apply H.
  - eapply same_install_exact; [apply only_cursors_same_install |]; eassumption.
Qed.

Lemma stepT_installed_exact w ev :
  is_destroy ev = false ->
  installed_exact w -> installed_exact (stepT rnd valid input w ev).
Proof.
  intros Hd Hex. pose proof (stepT_same_install w ev) as Hs.
  destruct ev; try discriminate; try (eapply same_install_exact; eassumption).
  apply stepT_update_installed_exact. exact Hex.
Qed.

Lemma pointsT_installed_ok w ev :
  is_destroy ev = false ->
  installed_exact w -> Forall installed_ok (pointsT rnd valid input w ev).
Proof.
  intros Hd Hex.
  destruct ev; try discriminate;
    try (apply List.Forall_cons;
         [apply installed_exact_ok, stepT_installed_exact;
          [reflexivity | exact Hex]
         | apply List.Forall_nil]).
  apply update_pointsT_spec. apply installed_exact_ok. exact Hex.
Qed.

Lemma visitedT_installed_ok evs : forall w,
  List.forallb (fun ev => negb (is_destroy ev)) evs = true ->
  installed_exact w -> Forall installed_ok (visitedT rnd valid input w evs).
Proof.
  induction evs as [| ev evs IH]; intros w Hnd Hex; cbn [visitedT].
  - apply List.Forall_nil.
  - cbn in Hnd. apply andb_prop in Hnd. destruct Hnd as [Hd Hnd].
    apply negb_true_iff in Hd.
    apply Forall_app. split.
    + apply pointsT_installed_ok; assumption.
    + apply IH; [exact Hnd |]. apply stepT_installed_exact; assumption.
Qed.

(** The node of the action never changes. *)
Lemma stepT_node w ev :
  is_destroy ev = false ->
  node (closure (stepT rnd valid input w ev)) = node (closure w).
Proof.
  intros Hd. destruct ev; try discriminate.
  - cbn. generalize (mousedownListeners (page w)) as ls. intros ls.
    revert w. induction ls as [| h ls IH]; intros w; cbn; [reflexivity |].
    rewrite IH. destruct (contains h target); [| reflexivity].
    destruct (onMouseDownT_cases valid w target clientX clientY computedStyles)
      as [-> | ->]; [reflexivity |].
    unfold onMouseDown. destruct (List.existsb _ _); [reflexivity |].
    cbn. destruct (is_positioned _), (cursor _); reflexivity.
  - cbn. destruct (mousemoveListener _); [| reflexivity].
    apply onMouseMoveR_writes.
  - cbn. destruct (mouseupListener _); [| reflexivity].
    rewrite end_closure. reflexivity.
  - cbn. destruct (microtasks (page w)); [reflexivity |].
    rewrite (only_cursors_differ_closure _ _ (addCursorT_only_cursors valid _)).
    reflexivity.
  - cbn [stepT]. unfold updateT.
    pose proof (removeCursorT_only_cursors valid w) as Hc.
    destruct (removeCursorT valid w) as [u | u]; cbn [world_of] in *.
    + rewrite install_closure. cbn.
      rewrite (only_cursors_differ_closure _ _ Hc). reflexivity.
    + rewrite (only_cursors_differ_closure _ _ Hc). reflexivity.
  - cbn. destruct (v =? "")%string; reflexivity.
  - reflexivity.
  - reflexivity.
Qed.

Lemma runT_node evs : forall w,
  List.forallb (fun ev => negb (is_destroy ev)) evs = true ->
  node (closure (runT rnd valid input w evs)) = node (closure w).
Proof.
  induction evs as [| ev evs IH]; intros w Hnd; [reflexivity |].
  cbn in Hnd. apply andb_prop in Hnd. destruct Hnd as [Hd Hnd].
  apply negb_true_iff in Hd. unfold runT. cbn [fold_left].
  fold (runT rnd valid input (stepT rnd valid input w ev) evs).
  rewrite (IH _ Hnd). apply stepT_node. exact Hd.
Qed.

(** The parameters in force are the ones resolved for the last [update]
    that returned, and the press listener is where they say. *)
Lemma runT_latest n evs : forall w,
  List.forallb (fun ev => negb (is_destroy ev)) evs = true ->
  installed_exact w -> node (closure w) = n ->
  let final := runT rnd valid input w evs in
  config (closure final) = latest rnd valid input n (config (closure w)) w evs /\
  installed_exact final.
Proof.
  induction evs as [| ev evs IH]; intros w Hnd Hex Hn; cbv zeta.
  - split; [reflexivity | exact Hex].
  - cbn in Hnd. apply andb_prop in Hnd. destruct Hnd as [Hd Hnd].
    apply negb_true_iff in Hd.
    unfold runT. cbn [fold_left latest].
    fold (runT rnd valid input (stepT rnd valid input w ev) evs).
    destruct (IH (stepT rnd valid input w ev) Hnd
                 (stepT_installed_exact w ev Hd Hex)
                 (eq_trans (stepT_node w ev Hd) Hn)) as [IHc IHe].
    cbv zeta in IHc, IHe. split; [| exact IHe].
    rewrite IHc. f_equal.
    pose proof (stepT_same_install w ev) as Hs.
    destruct ev; try discriminate; try exact (proj2 Hs).
    cbn [stepT].
    destruct (update_pointsT_spec w p (installed_exact_ok _ Hex)) as [_ H].
    destruct (updateT valid input w p) as [u | u]; cbn.
    + destruct H as [_ ->]. rewrite Hn. reflexivity.
    + rewrite (only_cursors_differ_closure _ _ H). reflexivity.
Qed.

(** C7, as amended.  From [movable], through any events other than
    [destroy], every world gone through, the ones between the statements
    of [update] included, has at most one press listener.  At the end the
    parameters in force are the ones resolved for the last [update] that
    returned (those of [movable] if there is none), and the press
    listeners are exactly the handle of these parameters when they are
    enabled, none otherwise.  An [update] that throws changes neither. *)
Theorem C7_one_press_listener_where_the_last_completed_update_put_it
    n parameters pg (evs : list (Event Params)) :
  List.forallb (fun ev => negb (is_destroy ev)) evs = true ->
  let parameters0 := match parameters with
                     | Some p => p
                     | None => defaultParameters
                     end in
  let w0 := movable input defaultParameters n parameters pg in
  let final := runT rnd valid input w0 evs in
  let c := latest rnd valid input n (input n parameters0) w0 evs in
  Forall (fun w => (length (mousedownListeners (page w)) <= 1)%nat)
         (w0 :: visitedT rnd valid input w0 evs) /\
  config (closure final) = c /\
  mousedownListeners (page final) = (if enabled c then [handle c] else []) /\
  (forall evs' p, evs = evs' ++ [Update p] ->
     let w := runT rnd valid input w0 evs' in
     match updateT valid input w p with
     | returned _ => c = input n p
     | thrown _ =>
         c = config (closure w) /\
         mousedownListeners (page final) = mousedownListeners (page w)
     end).
Proof.
  intros Hnd. cbv zeta.
  pose proof (movable_installed_exact Params input defaultParameters
                n parameters pg) as H0.
  set (w0 := movable input defaultParameters n parameters pg) in *.
  assert (Hn0 : node (closure w0) = n).
  { unfold w0, movable. rewrite install_closure. reflexivity. }
  assert (Hc0 : config (closure w0) =
                input n (match parameters with
                         | Some p => p
                         | None => defaultParameters
                         end)).
  { unfold w0, movable. rewrite install_closure. reflexivity. }
  destruct (runT_latest n evs w0 Hnd H0 Hn0) as [Hc He].
  cbv zeta in Hc, He. rewrite Hc0 in Hc.
  split; [| split; [exact Hc | split]].
  - eapply Forall_impl; [| intros w; apply installed_ok_length].
    apply List.Forall_cons; [apply installed_exact_ok; exact H0 |].
    apply visitedT_installed_ok; assumption.
  - rewrite <- Hc. exact He.
  - intros evs' p ->. rewrite <- Hc.
    rewrite forallb_app in Hnd. apply andb_prop in Hnd. destruct Hnd as [Hnd' _].
    destruct (runT_latest n evs' w0 Hnd' H0 Hn0) as [_ He'].
    cbv zeta in He'.
    assert (Hn' : node (closure (runT rnd valid input w0 evs')) = n)
      by (rewrite (runT_node evs' w0 Hnd'); exact Hn0).
    unfold runT. rewrite fold_left_app. cbn [fold_left stepT].
    fold (runT rnd valid input w0 evs').
    destruct (update_pointsT_spec (runT rnd valid input w0 evs') p
                (installed_exact_ok _ He')) as [_ H].
    destruct (updateT valid input (runT rnd valid input w0 evs') p) as [u | u];
      cbn [world_of].
    + destruct H as [_ ->]. rewrite Hn'. reflexivity.
    + rewrite (only_cursors_differ_closure _ _ H).
      split; [reflexivity |].
      apply only_cursors_same_install in H. apply H.
Qed.

End Updates.

Lemma C7_witness :
  let w0 := Sample.attach Sample.free Sample.blank in
  let evs := [Update Sample.withHandle; Microtask; Update Sample.disabled;
              Update (Sample.inside screen 0)] in
  let final := runT round64 Sample.valid (fun _ p => p) w0 evs in
  Forall (fun w => (length (mousedownListeners (page w)) <= 1)%nat)
         (w0 :: visitedT round64 Sample.valid (fun _ p => p) w0 evs) /\
  config (closure final) = Sample.inside screen 0 /\
  mousedownListeners (page final) = [[0;0]%nat].
Proof.
  cbv zeta.
  destruct (C7_one_press_listener_where_the_last_completed_update_put_it
              round64 Sample.valid Input (fun _ p => p) Sample.free [0;0]%nat
              (Some Sample.free) Sample.blank
              [Update Sample.withHandle; Microtask; Update Sample.disabled;
               Update (Sample.inside screen 0)]
              ltac:(vm_compute; reflexivity)) as (Hv & Hc & Hl & _).
  split; [exact Hv |]. split; [exact Hc | exact Hl].
Defined.

(** The claim without the proviso on exceptions.  The action is attached
    with cursors on and an [ignore] that is not a selector; an [update]
    with parameters that are not enabled throws in [removeCursor], before
    the listener is removed: the latest parameters are not enabled and
    the press listener is still on the handle. *)
Lemma C7_counterexample :
  let w0 := Sample.attach Sample.brokenIgnore Sample.blank in
  let final := runT round64 Sample.valid (fun _ p => p) w0
                 [Update Sample.disabled] in
  has_returned (updateT Sample.valid (fun _ p => p) w0 Sample.disabled) = false /\
  enabled Sample.disabled = false /\
  mousedownListeners (page final) = [[0;0;0]%nat] /\
  config (closure final) = Sample.brokenIgnore.
Proof. cbv zeta. repeat split; vm_compute; reflexivity. Qed.

(** ** The cursor callback after an update *)

Section Mounting.

Variable rnd : Q -> Q.
Variable valid : string -> bool.
Variable Params : Type.
Variable input : Elem -> Params -> Input.

(** A pending callback consults [cursor], not [enabled], and gives the
    handle its cursor before it asks for the ignored elements. *)
Lemma callbackT_dresses_the_handle w :
  (0 < microtasks (page w))%nat ->
  cursor (config (closure w)) = true ->
  let mounted := stepT rnd valid input w Microtask in
  style_cursor mounted (handle (config (closure w))) = "grab" /\
  forall l e, getIgnoredElementsT valid w = Some l -> In e l ->
    style_cursor mounted e =
    (if (style_cursor w e =? "")%string then "auto" else style_cursor w e).
Proof.
  intros Hm Hcur. cbv zeta.
  destruct (callback_dresses_the_handle Params input w Hm Hcur) as [Hh He].
  cbv zeta in Hh, He. cbn [step stepT] in *.
  destruct (microtasks (page w)) as [| m]; [lia |].
  destruct (addCursorT valid (set_microtasks m w)) as [u | u] eqn:Hu;
    cbn [world_of].
  - apply addCursorT_returned in Hu. subst u. split; [exact Hh |].
    intros l e Hl Hin. apply getIgnoredElementsT_Some in Hl. subst l.
    apply He. exact Hin.
  - pose proof Hu as Hu'. apply addCursorT_thrown in Hu'. subst u.
    split.
    + rewrite style_cursor_set.
      change (handle (config (closure (set_microtasks m w))))
        with (handle (config (closure w))).
      rewrite isSameNode_refl. reflexivity.
    + intros l e Hl Hin. exfalso.
      unfold addCursorT in Hu.
      change (cursor (config (closure (set_microtasks m w))))
        with (cursor (config (closure w))) in Hu.
      rewrite Hcur in Hu. cbv zeta in Hu.
      change (getIgnoredElementsT valid
                (set_style_cursor (handle (config (closure (set_microtasks m w))))
                   "grab" (set_microtasks m w)))
        with (getIgnoredElementsT valid w) in Hu.
      rewrite Hl in Hu. discriminate.
Qed.

(** X16.  An [update] that returns has replaced the parameters by
    [input(node, update)] and scheduled one more cursor callback exactly
    when they are enabled.  When a pending callback runs and the
    parameters ask for cursors, the new handle gets [grab], also when
    [ignore] is not a selector, and otherwise each ignored descendant
    without a cursor gets [auto] (one with a cursor keeps it); the
    callback does not consult [enabled], so one still pending from before
    dresses the handle of parameters that are not enabled too.  An
    [update] that throws has changed cursors only: the parameters, the
    listeners and the pending callbacks are as they were. *)
Theorem X16_the_callback_after_update_dresses_the_new_handle w p :
  (forall updated, updateT valid input w p = returned updated ->
   let mounted := stepT rnd valid input updated Microtask in
   config (closure updated) = input (node (closure w)) p /\
   microtasks (page updated) =
     (if enabled (config (closure updated)) then S (microtasks (page w))
      else microtasks (page w)) /\
   ((0 < microtasks (page updated))%nat ->
    cursor (config (closure updated)) = true ->
    style_cursor mounted (handle (config (closure updated))) = "grab" /\
    forall l e, getIgnoredElementsT valid updated = Some l -> In e l ->
      style_cursor mounted e =
      (if (style_cursor updated e =? "")%string then "auto"
       else style_cursor updated e)))
  /\
  (forall u, updateT valid input w p = thrown u ->
   only_cursors_differ w u /\
   cursor (config (closure w)) = true /\
   getIgnoredElementsT valid w = None).
Proof.
  split.
  - intros updated Hu. cbv zeta. unfold updateT in Hu.
    destruct (removeCursorT valid w) as [w1 | w1] eqn:H1; [| discriminate].
    injection Hu as <-.
    apply removeCursorT_returned in H1. subst w1.
    pose proof (removeCursor_only_cursors w) as Hrc.
    destruct (install_effect
                (update_assign input p (update_removeListener (removeCursor w))))
      as [Hcfg Hmt].
    assert (Hc : config (closure (install
                   (update_assign input p
                      (update_removeListener (removeCursor w))))) =
                 input (node (closure w)) p).
    { rewrite Hcfg. unfold update_assign, update_removeListener.
      unfold only_cursors_differ in Hrc. rewrite Hrc. reflexivity. }
    split; [exact Hc |]. split.
    + rewrite Hmt, Hcfg. unfold update_assign, update_removeListener.
      unfold only_cursors_differ in Hrc. rewrite Hrc. reflexivity.
    + apply callbackT_dresses_the_handle.
  - intros u Hu. unfold updateT in Hu.
    destruct (removeCursorT valid w) as [w1 | w1] eqn:H1; [discriminate |].
    injection Hu as <-.
    pose proof (removeCursorT_only_cursors valid w) as Hc.
    rewrite H1 in Hc. cbn in Hc.
    apply removeCursorT_thrown in H1. destruct H1 as (Hcur & Hg & _).
    split; [exact Hc |]. split; assumption.
Qed.

End Mounting.

Lemma X16_witness :
  let w := Sample.attach Sample.withHandle Sample.blank in
  let updated := world_of (updateT Sample.valid (fun _ p => p) w Sample.disabled) in
  let mounted := stepT round64 Sample.valid (fun _ p => p) updated Microtask in
  enabled (config (closure updated)) = false /\
  style_cursor mounted (handle (config (closure updated))) = "grab" /\
  style_cursor mounted [0;0;0;1]%nat = "auto".
Proof.
  cbv zeta. split; [vm_compute; reflexivity |].
  destruct (X16_the_callback_after_update_dresses_the_new_handle
              round64 Sample.valid Input (fun _ p => p)
              (Sample.attach Sample.withHandle Sample.blank) Sample.disabled)
    as [H _].
  destruct (H (world_of (updateT Sample.valid (fun _ p => p)
                           (Sample.attach Sample.withHandle Sample.blank)
                           Sample.disabled))
              ltac:(vm_compute; reflexivity)) as (_ & _ & H').
  destruct H' as [Hh He]; [vm_compute; lia | vm_compute; reflexivity |].
  split; [exact Hh |].
  rewrite (He [[0;0;0;1]%nat] [0;0;0;1]%nat)
    by (vm_compute; first [reflexivity | left; reflexivity]).
  vm_compute. reflexivity.
Defined.

(** ** Parameters that cannot be replaced *)


Section Locked.

Variable rnd : Q -> Q.
Variable valid : string -> bool.
Variable Params : Type.
Variable input : Elem -> Params -> Input.




End Locked.

